(** * EnemCrawler: the document-identification engine and the downloader

    A shallow embedding of [download_enem.py].  Python [str] values are
    sequences of Unicode code points; the browser is reached through
    Selenium and is modelled as an interface whose calls may raise; the
    process-wide [REPORTS] list is threaded as explicit state. *)

From Stdlib Require Import List NArith ZArith Bool Ascii String Lia.
From Stdlib Require Import Sorting.Sorted Sorting.Permutation.
Import ListNotations.

Local Open Scope string_scope.
Local Open Scope N_scope.
Local Open Scope list_scope.

(* ================================================================== *)
(** * Part I. The model                                                 *)
(* ================================================================== *)

(** ** Python strings *)

(** A [str] is a sequence of code points, a [bytes] a sequence of octets. *)
Definition codepoint := N.
Definition str := list codepoint.
Definition bytes := list N.

(** [bytes.decode("utf-8")].  The strict decoder of Python raises on a
    malformed sequence; every caller below passes well-formed input (the
    UTF-8 source text of a literal, or pure ASCII), so only the
    well-formed cases are distinguished. *)
Fixpoint decode_utf8_from (acc : N) (need : nat) (bs : bytes) : str :=
  match bs with
  | [] => []
  | b :: bs' =>
      match need with
      | O =>
          if b <? 128 then b :: decode_utf8_from 0 O bs'
          else if b <? 224 then decode_utf8_from (b - 192) 1%nat bs'
          else if b <? 240 then decode_utf8_from (b - 224) 2%nat bs'
          else decode_utf8_from (b - 240) 3%nat bs'
      | S O => (acc * 64 + (b - 128)) :: decode_utf8_from 0 O bs'
      | S k => decode_utf8_from (acc * 64 + (b - 128)) k bs'
      end
  end.

Definition decode_utf8 (bs : bytes) : str := decode_utf8_from 0 O bs.

(** A string literal of the (UTF-8) source file. *)
Definition ustr (s : string) : str :=
  decode_utf8 (map N_of_ascii (list_ascii_of_string s)).

(** [s.startswith(p)]. *)
Fixpoint startswith (p s : str) : bool :=
  match p, s with
  | [], _ => true
  | _ :: _, [] => false
  | a :: p', b :: s' => (a =? b) && startswith p' s'
  end.

(** [p in s] on strings: [p] occurs as a contiguous substring of [s]. *)
Fixpoint contains (p s : str) : bool :=
  match s with
  | [] => startswith p []
  | _ :: s' => startswith p s || contains p s'
  end.

(** [s.replace(old, new)]: the non-overlapping occurrences of [old],
    found left to right, are replaced.  [skip] counts the characters of
    an occurrence that remain to be passed over. *)
Fixpoint replace_from (old new : str) (skip : nat) (s : str) : str :=
  match s with
  | [] => []
  | c :: s' =>
      match skip with
      | S k => replace_from old new k s'
      | O =>
          if startswith old s
          then new ++ replace_from old new (List.length old - 1)%nat s'
          else c :: replace_from old new O s'
      end
  end.

Definition replace (old new s : str) : str :=
  match old with
  | [] => new ++ flat_map (fun c => c :: new) s
  | _ :: _ => replace_from old new O s
  end.

(** [s.lower()] on text decoded from ASCII bytes, the only place where
    the program calls it: the letters A-Z move to a-z. *)
Definition lower_char (c : codepoint) : codepoint :=
  if (65 <=? c) && (c <=? 90) then c + 32 else c.

Definition lower (s : str) : str := map lower_char s.

(** [s.encode("ascii", "ignore")]: code points outside ASCII are dropped. *)
Definition encode_ascii_ignore (s : str) : bytes :=
  filter (fun c => c <? 128) s.

(** The character class [[a-z0-9]] and its complement [[^a-z0-9]]. *)
Definition is_az09 (c : codepoint) : bool :=
  ((97 <=? c) && (c <=? 122)) || ((48 <=? c) && (c <=? 57)).

Definition not_az09 (c : codepoint) : bool := negb (is_az09 c).

(** [str.isspace] on one character, which is also the class [\s] of [re]
    on [str] patterns. *)
Definition isspace (c : codepoint) : bool :=
  ((9 <=? c) && (c <=? 13)) || ((28 <=? c) && (c <=? 32))
  || (c =? 133) || (c =? 160) || (c =? 5760)
  || ((8192 <=? c) && (c <=? 8202))
  || (c =? 8232) || (c =? 8233) || (c =? 8239) || (c =? 8287)
  || (c =? 12288).

(** [re.sub(r"[cls]+", repl, s)]: every maximal run of characters of the
    class is replaced by [repl].  [in_run] tells that the previous
    character belonged to the run being replaced. *)
Fixpoint re_sub_runs_from (cls : codepoint -> bool) (repl : str)
    (in_run : bool) (s : str) : str :=
  match s with
  | [] => []
  | c :: s' =>
      if cls c
      then (if in_run then [] else repl) ++ re_sub_runs_from cls repl true s'
      else c :: re_sub_runs_from cls repl false s'
  end.

Definition re_sub_runs (cls : codepoint -> bool) (repl s : str) : str :=
  re_sub_runs_from cls repl false s.

(** [s.strip()]. *)
Fixpoint lstrip (s : str) : str :=
  match s with
  | [] => []
  | c :: s' => if isspace c then lstrip s' else s
  end.

Definition rstrip (s : str) : str := rev (lstrip (rev s)).

Definition strip (s : str) : str := rstrip (lstrip s).

(** Lexicographic comparison of two sequences of numbers: the order of
    Python on strings (code point by code point), and the document order
    on the positions of a tree. *)
Fixpoint lex_compare (a b : list N) : comparison :=
  match a, b with
  | [], [] => Eq
  | [], _ :: _ => Lt
  | _ :: _, [] => Gt
  | x :: a', y :: b' =>
      match x ?= y with
      | Eq => lex_compare a' b'
      | c => c
      end
  end.

(** [a == b] and [x != b] where [x] may be [None]. *)
Definition str_eqb (a b : str) : bool :=
  match lex_compare a b with Eq => true | _ => false end.

Definition py_ne (x : option str) (b : str) : bool :=
  match x with
  | None => true
  | Some a => negb (str_eqb a b)
  end.

(** ** Unicode normalisation *)

(** The two properties of the Unicode Character Database that
    [unicodedata.normalize("NFD", _)] reads: the full canonical
    decomposition of a code point (the code point itself when it has
    none) and its canonical combining class. *)
Class UnicodeData := {
  decomposition : codepoint -> list codepoint;
  combining : codepoint -> N
}.

Section Normalizer.

Context {ucd : UnicodeData}.

(** Canonical ordering: a combining mark moves behind the marks of lower
    non-zero class that follow it; starters (class 0) stay and block. *)
Fixpoint reorder_insert (x : codepoint) (l : str) : str :=
  match l with
  | [] => [x]
  | y :: l' =>
      if (0 <? combining y) && (combining y <? combining x)
      then y :: reorder_insert x l'
      else x :: l
  end.

Definition canonical_order (s : str) : str := fold_right reorder_insert [] s.

(** [unicodedata.normalize("NFD", s)]. *)
Definition normalize_NFD (s : str) : str :=
  canonical_order (flat_map decomposition s).

(** [normalizar_texto_para_comparacao], lines 37-73. *)
Definition normalizar_texto_para_comparacao (texto : option str) : str :=
  match texto with
  | None => ustr ""
  | Some texto =>
      let texto := replace (ustr "&nbsp;") (ustr " ") texto in
      let texto := replace (ustr "–") (ustr "-") texto in
      let texto := replace (ustr "ª") (ustr "") (replace (ustr "º") (ustr "") texto) in
      let texto := decode_utf8 (encode_ascii_ignore (normalize_NFD texto)) in
      let texto := lower texto in
      let texto := re_sub_runs not_az09 (ustr " ") texto in
      let texto := strip (re_sub_runs isspace (ustr " ") texto) in
      texto
  end.

End Normalizer.

(** The rows of the Unicode Character Database for the Latin-1 letters
    (U+00C0 to U+00FF): base letter and combining mark. *)
Definition latin1_rows : list (codepoint * list codepoint) :=
  [ (192, [65; 768]); (193, [65; 769]); (194, [65; 770]); (195, [65; 771]);
    (196, [65; 776]); (197, [65; 778]); (199, [67; 807]); (200, [69; 768]);
    (201, [69; 769]); (202, [69; 770]); (203, [69; 776]); (204, [73; 768]);
    (205, [73; 769]); (206, [73; 770]); (207, [73; 776]); (209, [78; 771]);
    (210, [79; 768]); (211, [79; 769]); (212, [79; 770]); (213, [79; 771]);
    (214, [79; 776]); (217, [85; 768]); (218, [85; 769]); (219, [85; 770]);
    (220, [85; 776]); (221, [89; 769]); (224, [97; 768]); (225, [97; 769]);
    (226, [97; 770]); (227, [97; 771]); (228, [97; 776]); (229, [97; 778]);
    (231, [99; 807]); (232, [101; 768]); (233, [101; 769]); (234, [101; 770]);
    (235, [101; 776]); (236, [105; 768]); (237, [105; 769]); (238, [105; 770]);
    (239, [105; 776]); (241, [110; 771]); (242, [111; 768]); (243, [111; 769]);
    (244, [111; 770]); (245, [111; 771]); (246, [111; 776]); (249, [117; 768]);
    (250, [117; 769]); (251, [117; 770]); (252, [117; 776]); (253, [121; 769]);
    (255, [121; 776]) ].

Fixpoint lookup_row (rows : list (codepoint * list codepoint)) (c : codepoint)
    : list codepoint :=
  match rows with
  | [] => [c]
  | (k, d) :: rows' => if k =? c then d else lookup_row rows' c
  end.

(** The database restricted to Latin-1: enough to run the program on
    Portuguese labels. *)
Definition latin1_decomposition (c : codepoint) : list codepoint :=
  if c <? 192 then [c] else lookup_row latin1_rows c.

Definition latin1_combining (c : codepoint) : N :=
  if c <? 768 then 0
  else if c =? 807 then 202
  else if c <=? 778 then 230
  else 0.

#[export] Instance latin1 : UnicodeData :=
  {| decomposition := latin1_decomposition; combining := latin1_combining |}.

(** ** Exceptions, messages and the state of the process *)

(** The exception classes the handlers of the program tell apart. *)
Inductive exn :=
  | NoSuchElementException   (* selenium: no element matches *)
  | WebDriverException       (* selenium: any other driver error *)
  | ConnectionError          (* requests.exceptions.ConnectionError *)
  | Timeout                  (* requests.exceptions.Timeout *)
  | RequestException         (* requests: any other RequestException *)
  | OtherException.          (* any other subclass of Exception *)

Inductive level := INFO | WARNING | ERROR | CRITICAL.

(** One constructor per message template of the modelled functions; the
    arguments are the values the f-string interpolates.  Where the same
    text goes to the log and to [REPORTS], both get the same message. *)
Inductive message :=
  | MsgAnosIdentificados (anos : list str)                        (* l. 137 *)
  | MsgAbasNaoEncontradas                                         (* l. 140 *)
  | MsgErroObterAnos (e : exn)                                    (* l. 144 *)
  | MsgCalloutEncontrado (desc ano : str)                         (* l. 241 *)
  | MsgProvaEncontrada (desc ano : str)                           (* l. 281 *)
  | MsgProvaNaoEncontrada (desc ano : str)                        (* l. 285 *)
  | MsgGabaritoEncontrado (desc ano : str)                        (* l. 297 *)
  | MsgGabaritoNaoEncontrado (desc ano : str)                     (* l. 301 *)
  | MsgPadraoNaoEncontrado (desc : str) (kws : list str) (ano : str) (e : exn)
                                                                  (* l. 306 *)
  | MsgErroInesperado (desc : str) (kws : list str) (ano : str) (e : exn)
                                                                  (* l. 310 *)
  | MsgBuscandoRegular (ano : str)                                (* l. 331 *)
  | MsgBuscandoDigital (ano : str)                                (* l. 357 *)
  | MsgBuscandoReaplicacao (ano : str)                            (* l. 384 *)
  | MsgTemaEncontrado (ano : str)                                 (* l. 398 *)
  | MsgTemaNaoEncontrado (ano : str)                              (* l. 400 *)
  | MsgContainerNaoEncontrado (ano : str)                         (* l. 429 *)
  | MsgErroExtrair (ano : str) (e : exn)                          (* l. 433 *)
  | MsgTentando (tentativa max_retries : Z) (destino : str)       (* l. 460 *)
  | MsgBaixado (destino : str)                                    (* l. 469 *)
  | MsgErroConexao (destino : str) (tentativa max_retries : Z) (e : exn)
                                                                  (* l. 475 *)
  | MsgAguardando (segundos : Z)                                  (* l. 478 *)
  | MsgFalhaApos (destino : str) (max_retries : Z)                (* l. 483 *)
  | MsgErroRequisicao (destino : str) (e : exn)                   (* l. 488 *)
  | MsgErroGenerico (destino : str) (e : exn)                     (* l. 494 *)
  | MsgNenhumAno                                                  (* l. 524 *)
  | MsgProcessando (ano : str)                                    (* l. 531 *)
  | MsgPulando (ano : str)                                        (* l. 535 *)
  | MsgNenhumLink (ano : str)                                     (* l. 545 *)
  | MsgFinalizado (ano : str)                                     (* l. 571 *)
  | MsgErroCritico (e : exn).                                     (* l. 574 *)

(** What the process does to the outside, in the order it does it. *)
Inductive event :=
  | Log (lvl : level) (m : message)       (* logging.info / warning / ... *)
  | Sleep (segundos : Z)                  (* time.sleep *)
  | AtrasoAleatorio (min_seg max_seg : Z) (* gerar_atraso_aleatorio *)
  | Get (url : str)                       (* requests.get *)
  | Saved (destino : str).                (* the response written to disk *)

(** The global list [REPORTS] and the trace of effects. *)
Record world := { REPORTS : list message; TRACE : list event }.

Inductive outcome (A : Type) :=
  | Ok (a : A)
  | Raise (e : exn).
Arguments Ok {A} a.
Arguments Raise {A} e.

(** A computation over a state [S] that returns or raises; the state
    survives a raise, as the heap of a Python process does. *)
Definition M (S A : Type) : Type := S -> outcome A * S.

Definition ret {S A} (a : A) : M S A := fun s => (Ok a, s).

Definition bind {S A B} (m : M S A) (k : A -> M S B) : M S B :=
  fun s =>
    match m s with
    | (Ok a, s') => k a s'
    | (Raise e, s') => (Raise e, s')
    end.

Definition raise {S A} (e : exn) : M S A := fun s => (Raise e, s).

(** [try: m  except ... as e: h e]. *)
Definition try_except {S A} (m : M S A) (h : exn -> M S A) : M S A :=
  fun s =>
    match m s with
    | (Ok a, s') => (Ok a, s')
    | (Raise e, s') => h e s'
    end.

Definition of_outcome {S A} (o : outcome A) : M S A := fun s => (o, s).

Declare Scope prog_scope.
Delimit Scope prog_scope with prog.
Notation "'let*' x ':=' m 'in' k" := (bind m (fun x => k))
  (at level 10, x name, m at level 100, k at level 200) : prog_scope.
Notation "'let*' ' pat ':=' m 'in' k" :=
  (bind m (fun x => match x with pat => k end))
  (at level 10, pat pattern, m at level 100, k at level 200) : prog_scope.
Notation "m ;; k" := (bind m (fun _ => k))
  (at level 100, k at level 200, right associativity) : prog_scope.
Local Open Scope prog_scope.

(** A function body with a local variable of type [L] that outlives the
    exceptions raised inside it. *)
Definition frame (L : Type) : Type := (L * world)%type.

Definition up {L A} (m : M world A) : M (frame L) A :=
  fun s => let '(r, w) := m (snd s) in (r, (fst s, w)).

Definition get_local {L} : M (frame L) L := fun s => (Ok (fst s), s).

Definition set_local {L} (l : L) : M (frame L) unit :=
  fun s => (Ok tt, (l, snd s)).

Definition with_local {L A} (init : L) (m : M (frame L) A) : M world A :=
  fun w => let '(r, s) := m (init, w) in (r, snd s).

(** [REPORTS.append(msg)]. *)
Definition report (m : message) : M world unit :=
  fun w => (Ok tt, {| REPORTS := REPORTS w ++ [m]; TRACE := TRACE w |}).

Definition emit (e : event) : M world unit :=
  fun w => (Ok tt, {| REPORTS := REPORTS w; TRACE := TRACE w ++ [e] |}).

Definition log (lvl : level) (m : message) : M world unit := emit (Log lvl m).

(** Truth value of [None] or a string, as [if x:] and [not x] take it. *)
Definition truthy (x : option str) : bool :=
  match x with
  | Some (_ :: _) => true
  | _ => false
  end.

(** The string a truthy value holds. *)
Definition str_of (x : option str) : str :=
  match x with
  | Some a => a
  | None => []
  end.

(** ** The browser *)

(** The selectors the program passes to the driver. *)
Inductive query :=
  | CssYearTabs               (* "div.govbr-tabs .tabs .tab a[data-id]" *)
  | CssTabContent (ano : str) (* f"div.tab-content[data-id='{ano}']" *)
  | CssCallout                (* "p.callout" *)
  | XPathFollowingLinks       (* xpath_combined_links, lines 252-257 *)
  | XPathTemaRedacao.         (* ".//a[contains(., 'Tema da Redação')]" *)

Inductive attribute := DataId | Href.

(** The page query capability: [find_elements] from the driver ([None])
    or from an element, [element.text], [element.get_attribute].  Every
    call may raise. *)
Class WebDriver (element : Type) := {
  find_elements : option element -> query -> outcome (list element);
  text : element -> outcome str;
  get_attribute : element -> attribute -> outcome (option str)
}.

(** A record of the result list: [{"ano": .., "tipo": .., "url": ..}]. *)
Record link := { ano_of : str; tipo : str; url : option str }.

Section Crawler.

Context {ucd : UnicodeData} {WebElement : Type} {driver : WebDriver WebElement}.

(** [find_element]: the first match, or [NoSuchElementException]. *)
Definition find_element (ctx : option WebElement) (q : query)
    : outcome WebElement :=
  match find_elements ctx q with
  | Ok [] => Raise NoSuchElementException
  | Ok (e :: _) => Ok e
  | Raise e => Raise e
  end.

(** *** [obter_anos_disponiveis], lines 126-146 *)

(** The loop of lines 133-136. *)
Fixpoint coletar_anos (tab_elements : list WebElement) (anos : list str)
    : M world (list str) :=
  match tab_elements with
  | [] => ret anos
  | tab :: rest =>
      let* ano := of_outcome (get_attribute tab DataId) in
      if truthy ano && py_ne ano (ustr "Sobre")
      then coletar_anos rest (anos ++ [str_of ano])
      else coletar_anos rest anos
  end.

(** [sorted(anos, reverse=True)]: a stable sort into descending order. *)
Fixpoint insert_desc (x : str) (l : list str) : list str :=
  match l with
  | [] => [x]
  | y :: l' =>
      match lex_compare x y with
      | Lt => y :: insert_desc x l'
      | _ => x :: l
      end
  end.

Definition sorted_reverse (l : list str) : list str :=
  fold_right insert_desc [] l.

Definition obter_anos_disponiveis : M world (list str) :=
  try_except
    (let* tab_elements := of_outcome (find_elements None CssYearTabs) in
     let* anos := coletar_anos tab_elements [] in
     log INFO (MsgAnosIdentificados anos) ;;
     ret (sorted_reverse anos))
    (fun e =>
       match e with
       | NoSuchElementException =>
           log ERROR MsgAbasNaoEncontradas ;;
           report MsgAbasNaoEncontradas ;;
           ret []
       | _ =>
           log ERROR (MsgErroObterAnos e) ;;
           report (MsgErroObterAnos e) ;;
           ret []
       end).

(** *** [_extrair_prova_gabarito_links], lines 206-314 *)

(** The loop of lines 223-234: the first callout whose normalised text
    holds every keyword. *)
Fixpoint localizar_callout (keywords_to_match : list str)
    (callout_elements : list WebElement) : M world (option WebElement) :=
  match callout_elements with
  | [] => ret None
  | element :: rest =>
      let* raw_text := of_outcome (text element) in
      let normalized_element_text :=
        normalizar_texto_para_comparacao (Some raw_text) in
      if forallb (fun keyword => contains keyword normalized_element_text)
                 keywords_to_match
      then ret (Some element)
      else localizar_callout keywords_to_match rest
  end.

(** The loop of lines 267-275 over the harvested anchors. *)
Fixpoint classificar_links (all_links : list WebElement)
    (prova_link_found gabarito_link_found : option str)
    : M world (option str * option str) :=
  match all_links with
  | [] => ret (prova_link_found, gabarito_link_found)
  | link_element :: rest =>
      let* link_text := of_outcome (text link_element) in
      let link_text_normalized :=
        normalizar_texto_para_comparacao (Some link_text) in
      let* '(prova, gabarito) :=
        (if contains (ustr "prova") link_text_normalized
            && negb (truthy prova_link_found)
         then let* href := of_outcome (get_attribute link_element Href) in
              ret (href, gabarito_link_found)
         else if contains (ustr "gabarito") link_text_normalized
                 && negb (truthy gabarito_link_found)
         then let* href := of_outcome (get_attribute link_element Href) in
              ret (prova_link_found, href)
         else ret (prova_link_found, gabarito_link_found)) in
      if truthy prova && truthy gabarito
      then ret (prova, gabarito)
      else classificar_links rest prova gabarito
  end.

Definition _extrair_prova_gabarito_links (container_elemento : WebElement)
    (description_for_logs : str) (keywords_to_match : list str)
    (ano tipo_base : str) : M world (list link) :=
  with_local (@nil link)
    (try_except
       (let* callout_elements :=
          up (of_outcome (find_elements (Some container_elemento) CssCallout)) in
        let* found_callout :=
          up (localizar_callout keywords_to_match callout_elements) in
        match found_callout with
        | None => raise NoSuchElementException
        | Some base_element_for_link_search =>
            up (log INFO (MsgCalloutEncontrado description_for_logs ano)) ;;
            let* all_following_links_in_siblings :=
              up (of_outcome (find_elements (Some base_element_for_link_search)
                                            XPathFollowingLinks)) in
            let* '(prova_link_found, gabarito_link_found) :=
              up (classificar_links all_following_links_in_siblings None None) in
            (if truthy prova_link_found
             then let* links := get_local in
                  set_local (links ++ [ {| ano_of := ano;
                                           tipo := tipo_base ++ ustr "_prova_azul";
                                           url := prova_link_found |} ]) ;;
                  up (log INFO (MsgProvaEncontrada description_for_logs ano))
             else up (log WARNING (MsgProvaNaoEncontrada description_for_logs ano)) ;;
                  up (report (MsgProvaNaoEncontrada description_for_logs ano))) ;;
            (if truthy gabarito_link_found
             then let* links := get_local in
                  set_local (links ++ [ {| ano_of := ano;
                                           tipo := tipo_base ++ ustr "_gabarito_azul";
                                           url := gabarito_link_found |} ]) ;;
                  up (log INFO (MsgGabaritoEncontrado description_for_logs ano))
             else up (log WARNING (MsgGabaritoNaoEncontrado description_for_logs ano)) ;;
                  up (report (MsgGabaritoNaoEncontrado description_for_logs ano)))
        end)
       (fun e =>
          match e with
          | NoSuchElementException =>
              up (log WARNING (MsgPadraoNaoEncontrado description_for_logs
                                 keywords_to_match ano e)) ;;
              up (report (MsgPadraoNaoEncontrado description_for_logs
                            keywords_to_match ano e))
          | _ =>
              up (log ERROR (MsgErroInesperado description_for_logs
                               keywords_to_match ano e)) ;;
              up (report (MsgErroInesperado description_for_logs
                            keywords_to_match ano e))
          end) ;;
     get_local).

(** *** [extrair_links_provas_e_gabaritos], lines 317-437 *)

(** [links_encontrados.extend(m)]. *)
Definition extend (m : M world (list link)) : M (frame (list link)) unit :=
  let* novos := up m in
  let* links_encontrados := get_local in
  set_local (links_encontrados ++ novos).

(** The essay theme of the re-application, lines 386-402: the inner
    [try] and its handler. *)
Definition tema_da_redacao (container_ano : WebElement) (ano : str)
    : M (frame (list link)) unit :=
  try_except
    (let* tema_redacao_link_element :=
       up (of_outcome (find_element (Some container_ano) XPathTemaRedacao)) in
     let* href := up (of_outcome (get_attribute tema_redacao_link_element Href)) in
     let* links_encontrados := get_local in
     set_local (links_encontrados
                  ++ [ {| ano_of := ano;
                          tipo := ustr "reaplicacao_redacao";
                          url := href |} ]) ;;
     up (log INFO (MsgTemaEncontrado ano)))
    (fun e =>
       match e with
       | NoSuchElementException =>
           up (log INFO (MsgTemaNaoEncontrado ano)) ;;
           up (report (MsgTemaNaoEncontrado ano))
       | _ => raise e
       end).

Definition extrair_links_provas_e_gabaritos (ano : str) : M world (list link) :=
  with_local (@nil link)
    (try_except
       (let* container_ano := up (of_outcome (find_element None (CssTabContent ano))) in
        up (log INFO (MsgBuscandoRegular ano)) ;;
        let regular_d1_keywords :=
          [ustr "1 dia"; ustr "caderno 1"; ustr "azul"; ustr "aplicacao regular"] in
        let regular_d2_keywords :=
          [ustr "2 dia"; ustr "caderno 7"; ustr "azul"; ustr "aplicacao regular"] in
        extend (_extrair_prova_gabarito_links container_ano
                  (ustr "1º Dia - Caderno 1 - Azul - Aplicação Regular")
                  regular_d1_keywords ano (ustr "regular_d1")) ;;
        extend (_extrair_prova_gabarito_links container_ano
                  (ustr "2º Dia - Caderno 7 - Azul - Aplicação Regular")
                  regular_d2_keywords ano (ustr "regular_d2")) ;;
        up (log INFO (MsgBuscandoDigital ano)) ;;
        let digital_d1_keywords :=
          [ustr "1 dia"; ustr "caderno"; ustr "azul"; ustr "aplicacao digital"] in
        let digital_d2_keywords :=
          [ustr "2 dia"; ustr "caderno"; ustr "azul"; ustr "aplicacao digital"] in
        extend (_extrair_prova_gabarito_links container_ano
                  (ustr "1º Dia - Caderno Azul - Aplicação Digital")
                  digital_d1_keywords ano (ustr "digital_d1")) ;;
        extend (_extrair_prova_gabarito_links container_ano
                  (ustr "2º Dia - Caderno Azul - Aplicação Digital")
                  digital_d2_keywords ano (ustr "digital_d2")) ;;
        up (log INFO (MsgBuscandoReaplicacao ano)) ;;
        tema_da_redacao container_ano ano ;;
        let reap_d1_keywords :=
          [ustr "1 dia"; ustr "caderno 1"; ustr "azul"; ustr "reaplicacao ppl"] in
        let reap_d2_keywords :=
          [ustr "2 dia"; ustr "caderno 7"; ustr "azul"; ustr "reaplicacao ppl"] in
        extend (_extrair_prova_gabarito_links container_ano
                  (ustr "1º Dia - Caderno 1 - Azul - Reaplicação/PPL")
                  reap_d1_keywords ano (ustr "reaplicacao_d1")) ;;
        extend (_extrair_prova_gabarito_links container_ano
                  (ustr "2º Dia - Caderno 7 - Azul - Reaplicação/PPL")
                  reap_d2_keywords ano (ustr "reaplicacao_d2")))
       (fun e =>
          match e with
          | NoSuchElementException =>
              up (log ERROR (MsgContainerNaoEncontrado ano)) ;;
              up (report (MsgContainerNaoEncontrado ano))
          | _ =>
              up (log ERROR (MsgErroExtrair ano e)) ;;
              up (report (MsgErroExtrair ano e))
          end) ;;
     get_local).

(** *** The year loop of [main], lines 522-577 *)

Section Main.

(** The collaborators of the loop that stay outside the model, each
    with its result and what it appends to [REPORTS]: [clicar_aba_ano],
    and the download phase of one year (lines 550-569). *)
Variable clicar_aba_ano : str -> outcome bool * list message.
Variable baixar_links : str -> list link -> outcome unit * list message.

Definition external {A} (r : outcome A * list message) : M world A :=
  fun w => (fst r, {| REPORTS := REPORTS w ++ snd r; TRACE := TRACE w |}).

(** The [for ano in anos_disponiveis] loop, lines 530-571. *)
Fixpoint processar_anos (anos_disponiveis : list str) : M world unit :=
  match anos_disponiveis with
  | [] => ret tt
  | ano :: rest =>
      log INFO (MsgProcessando ano) ;;
      emit (AtrasoAleatorio 3 7) ;;
      let* clicked := external (clicar_aba_ano ano) in
      (if negb clicked
       then log WARNING (MsgPulando ano)
       else
         emit (AtrasoAleatorio 5 10) ;;
         let* links_para_baixar := extrair_links_provas_e_gabaritos ano in
         match links_para_baixar with
         | [] =>
             log INFO (MsgNenhumLink ano) ;;
             report (MsgNenhumLink ano)
         | _ :: _ =>
             external (baixar_links ano links_para_baixar) ;;
             log INFO (MsgFinalizado ano)
         end) ;;
      processar_anos rest
  end.

(** [main] from line 522 on, once the browser shows the page. *)
Definition main_anos : M world unit :=
  try_except
    (let* anos_disponiveis := obter_anos_disponiveis in
     match anos_disponiveis with
     | [] =>
         log ERROR MsgNenhumAno ;;
         report MsgNenhumAno
     | _ :: _ => processar_anos anos_disponiveis
     end)
    (fun e =>
       log CRITICAL (MsgErroCritico e) ;;
       report (MsgErroCritico e)).

End Main.

End Crawler.

(** ** [baixar_arquivo], lines 451-499 *)

(** How one pass through the loop body ends. *)
Inductive control :=
  | Return (b : bool)
  | Break
  | Continue.

(** [range(n)]. *)
Definition range (n : Z) : list Z :=
  map Z.of_nat (seq 0 (Z.to_nat n)).

(** [os.path.basename]: what follows the last [/] of a path. *)
Fixpoint basename (p : str) : str :=
  match p with
  | [] => []
  | c :: rest =>
      if existsb (N.eqb 47) rest then basename rest
      else if c =? 47 then rest else p
  end.

(** [time.sleep(segundos)]: a negative length is refused with a
    [ValueError]. *)
Definition sleep (segundos : Z) : M world unit :=
  if (segundos <? 0)%Z then raise OtherException else emit (Sleep segundos).

Section Downloader.

(** The network and the disk as seen by one call: the exception, if any,
    that the body of the [try] of attempt [attempt] runs into. *)
Variable falha : Z -> option exn.

(** One pass through the body of the loop, lines 459-497. *)
Definition tentativa (url_download caminho_destino : str)
    (max_retries delay_between_retries attempt : Z) : M world control :=
  try_except
    (log INFO (MsgTentando (attempt + 1) max_retries
                 (basename caminho_destino)) ;;
     emit (Get url_download) ;;
     of_outcome (match falha attempt with
                 | None => Ok tt
                 | Some e => Raise e
                 end) ;;
     emit (Saved caminho_destino) ;;
     log INFO (MsgBaixado (basename caminho_destino)) ;;
     ret (Return true))
    (fun e =>
       match e with
       | ConnectionError | Timeout =>
           log WARNING (MsgErroConexao (basename caminho_destino) (attempt + 1)
                          max_retries e) ;;
           (if (attempt <? max_retries - 1)%Z
            then log INFO (MsgAguardando delay_between_retries) ;;
                 sleep delay_between_retries
            else log ERROR (MsgFalhaApos (basename caminho_destino) max_retries) ;;
                 report (MsgFalhaApos (basename caminho_destino) max_retries)) ;;
           ret Continue
       | RequestException =>
           log ERROR (MsgErroRequisicao (basename caminho_destino) e) ;;
           report (MsgErroRequisicao (basename caminho_destino) e) ;;
           ret Break
       | _ =>
           log ERROR (MsgErroGenerico (basename caminho_destino) e) ;;
           report (MsgErroGenerico (basename caminho_destino) e) ;;
           ret Break
       end).

Fixpoint tentativas (url_download caminho_destino : str)
    (max_retries delay_between_retries : Z) (attempts : list Z) : M world bool :=
  match attempts with
  | [] => ret false
  | attempt :: rest =>
      let* c := tentativa url_download caminho_destino max_retries
             delay_between_retries attempt in
      match c with
      | Return b => ret b
      | Break => ret false
      | Continue =>
          tentativas url_download caminho_destino max_retries
            delay_between_retries rest
      end
  end.

Definition baixar_arquivo (url_download caminho_destino : str)
    (max_retries delay_between_retries : Z) : M world bool :=
  tentativas url_download caminho_destino max_retries delay_between_retries
    (range max_retries).

End Downloader.

(** The number of requests sent and the pauses taken, read off a trace. *)
Definition attempts_in (t : list event) : nat :=
  List.length (filter (fun e => match e with Get _ => true | _ => false end) t).

Definition sleeps_in (t : list event) : list Z :=
  flat_map (fun e => match e with Sleep d => [d] | _ => [] end) t.

Definition empty_world : world := {| REPORTS := []; TRACE := [] |}.

(** ** A static page as a driver *)

(** An element of the document with what the browser reports for it: tag
    name, class list, the [data-id] and [href] attributes, the rendered
    text ([element.text]) and the children; or a text node. *)
#[local] Unset Elimination Schemes.
Inductive node :=
  | Elem (tag : string) (classes : list string) (data_id href : option str)
         (rendered : str) (children : list node)
  | TextNode (data : str).
#[local] Set Elimination Schemes.

(** An element is designated by its position: the child indices on the
    way down from the root. *)
Definition path := list N.

Definition children_of (n : node) : list node :=
  match n with
  | Elem _ _ _ _ _ kids => kids
  | TextNode _ => []
  end.

Definition has_tag (t : string) (n : node) : bool :=
  match n with
  | Elem tag _ _ _ _ _ => String.eqb tag t
  | TextNode _ => false
  end.

Definition has_class (c : string) (n : node) : bool :=
  match n with
  | Elem _ classes _ _ _ _ => existsb (String.eqb c) classes
  | TextNode _ => false
  end.

Definition data_id_of (n : node) : option str :=
  match n with
  | Elem _ _ d _ _ _ => d
  | TextNode _ => None
  end.

Fixpoint node_at (n : node) (p : path) : option node :=
  match p with
  | [] => Some n
  | i :: p' =>
      match nth_error (children_of n) (N.to_nat i) with
      | Some k => node_at k p'
      | None => None
      end
  end.

(** The proper descendants of the node at [p], in document order. *)
Fixpoint descendants (p : path) (n : node) : list (path * node) :=
  match n with
  | TextNode _ => []
  | Elem _ _ _ _ _ kids =>
      (fix each (i : N) (ks : list node) : list (path * node) :=
         match ks with
         | [] => []
         | k :: ks' =>
             (p ++ [i], k) :: descendants (p ++ [i]) k ++ each (N.succ i) ks'
         end) 0 kids
  end.

(** The string-value of XPath: the text nodes below, concatenated. *)
Fixpoint string_value (n : node) : str :=
  match n with
  | TextNode data => data
  | Elem _ _ _ _ _ kids =>
      (fix each (ks : list node) : str :=
         match ks with
         | [] => []
         | k :: ks' => string_value k ++ each ks'
         end) kids
  end.

(** The ancestors of the node at [p], the nearest first. *)
Fixpoint ancestors_from (n : node) (p : path) (above : list node) : list node :=
  match p with
  | [] => above
  | i :: p' =>
      match nth_error (children_of n) (N.to_nat i) with
      | Some k => ancestors_from k p' (n :: above)
      | None => above
      end
  end.

Fixpoint after_first (P : node -> bool) (l : list node) : option (list node) :=
  match l with
  | [] => None
  | n :: l' => if P n then Some l' else after_first P l'
  end.

(** The numbered siblings that follow position [i] among [kids]. *)
Fixpoint siblings_after (parent : path) (i : N) (j : N) (kids : list node)
    : list (path * node) :=
  match kids with
  | [] => []
  | k :: kids' =>
      (if i <? j then [(parent ++ [j], k)] else [])
        ++ siblings_after parent i (N.succ j) kids'
  end.

(** [following-sibling::*] of the node at [p]. *)
Definition following_siblings (doc : node) (p : path) : list (path * node) :=
  match rev p with
  | [] => []
  | i :: rparent =>
      match node_at doc (rev rparent) with
      | Some parent => siblings_after (rev rparent) i 0 (children_of parent)
      | None => []
      end
  end.

(** [following-sibling::t//a] from the node at [p]. *)
Definition probe (doc : node) (t : string) (p : path) : list path :=
  flat_map (fun s => map fst (filter (fun d => has_tag "a" (snd d))
                                     (descendants (fst s) (snd s))))
           (filter (fun s => has_tag t (snd s)) (following_siblings doc p)).

(** [parent::*] of the node at [p]: none for the root element. *)
Definition parent_path (p : path) : option path :=
  match rev p with
  | [] => None
  | _ :: rparent => Some (rev rparent)
  end.

Definition probe_parent (doc : node) (t : string) (p : path) : list path :=
  match parent_path p with
  | Some q => probe doc t q
  | None => []
  end.

(** The four location paths of [xpath_combined_links], in the order of
    the source text. *)
Definition probes (doc : node) (p : path) : list (list path) :=
  [ probe doc "ul" p; probe doc "div" p;
    probe_parent doc "ul" p; probe_parent doc "div" p ].

(** The operator [|] of XPath: the union of node-sets, which the driver
    hands back in document order, each node once. *)
Fixpoint insert_uniq (x : path) (l : list path) : list path :=
  match l with
  | [] => [x]
  | y :: l' =>
      match lex_compare x y with
      | Lt => x :: l
      | Eq => l
      | Gt => y :: insert_uniq x l'
      end
  end.

Definition xpath_union (sets : list (list path)) : list path :=
  fold_right insert_uniq [] (List.concat sets).

(** Characters that end the quoted value in [[data-id='...']]. *)
Definition css_string_safe (s : str) : bool :=
  forallb (fun c => negb ((c =? 39) || (c =? 92) || (c =? 10) || (c =? 13) || (c =? 12))) s.

Definition option_str_eqb (x : option str) (s : str) : bool :=
  match x with
  | Some a => str_eqb a s
  | None => false
  end.

Section Page.

Variable doc : node.

(** Where a search looks: the whole document from the driver, the proper
    descendants from an element. *)
Definition scope (ctx : option path) : option (list (path * node)) :=
  match ctx with
  | None => Some (([], doc) :: descendants [] doc)
  | Some p =>
      match node_at doc p with
      | Some n => Some (descendants p n)
      | None => None
      end
  end.

(** [div.govbr-tabs .tabs .tab a[data-id]]. *)
Definition is_year_tab (d : path * node) : bool :=
  has_tag "a" (snd d)
  && match data_id_of (snd d) with Some _ => true | None => false end
  && match after_first (has_class "tab") (ancestors_from doc (fst d) []) with
     | None => false
     | Some above =>
         match after_first (has_class "tabs") above with
         | None => false
         | Some above' =>
             match after_first (fun n => has_tag "div" n && has_class "govbr-tabs" n)
                               above' with
             | None => false
             | Some _ => true
             end
         end
     end.

Definition page_find_elements (ctx : option path) (q : query)
    : outcome (list path) :=
  match scope ctx with
  | None => Raise WebDriverException
  | Some nodes =>
      match q with
      | CssYearTabs => Ok (map fst (filter is_year_tab nodes))
      | CssTabContent ano =>
          if css_string_safe ano
          then Ok (map fst (filter (fun d => has_tag "div" (snd d)
                                             && has_class "tab-content" (snd d)
                                             && option_str_eqb (data_id_of (snd d)) ano)
                                   nodes))
          else Raise WebDriverException
      | CssCallout =>
          Ok (map fst (filter (fun d => has_tag "p" (snd d)
                                        && has_class "callout" (snd d)) nodes))
      | XPathFollowingLinks =>
          match ctx with
          | Some p => Ok (xpath_union (probes doc p))
          | None => Ok []
          end
      | XPathTemaRedacao =>
          Ok (map fst (filter (fun d => has_tag "a" (snd d)
                                        && contains (ustr "Tema da Redação")
                                                    (string_value (snd d)))
                              match ctx with
                              | Some _ => nodes
                              | None => descendants [] doc
                              end))
      end
  end.

Definition page_text (p : path) : outcome str :=
  match node_at doc p with
  | Some (Elem _ _ _ _ rendered _) => Ok rendered
  | _ => Raise WebDriverException
  end.

Definition page_get_attribute (p : path) (a : attribute) : outcome (option str) :=
  match node_at doc p with
  | Some (Elem _ _ d h _ _) =>
      Ok match a with DataId => d | Href => h end
  | _ => Raise WebDriverException
  end.

End Page.

Definition page (doc : node) : WebDriver path :=
  {| find_elements := page_find_elements doc;
     text := page_text doc;
     get_attribute := page_get_attribute doc |}.

(** The harvest as the specification words it: the four probes one after
    the other. *)
Definition harvest_links_spec (doc : node) (callout : path) : list path :=
  List.concat (probes doc callout).

(** ** Properties used to state the results *)

(** The database leaves ASCII alone: no decomposition, class 0. *)
Definition ascii_stable (ucd : UnicodeData) : Prop :=
  forall c, c < 128 -> decomposition c = [c] /\ combining c = 0.

(** Words over [[a-z0-9]] separated by single spaces; [prev_space] tells
    that a space may not come next. *)
Fixpoint words_ok (prev_space : bool) (s : str) : bool :=
  match s with
  | [] => true
  | c :: s' =>
      if c =? 32 then negb prev_space && words_ok true s'
      else is_az09 c && words_ok false s'
  end.

(** The shape of a normalised text: such words, no space at either end. *)
Definition clean (s : str) : Prop :=
  words_ok true s = true /\ words_ok true (rev s) = true.

(** ** Sample pages *)

Definition a_link (label href : string) : node :=
  Elem "a" [] None (Some (ustr href)) (ustr label) [TextNode (ustr label)].

Definition callout (label : string) : node :=
  Elem "p" ["callout"] None None (ustr label) [TextNode (ustr label)].

Definition year_tab (id : string) : node :=
  Elem "div" ["tab"] None None (ustr id)
    [Elem "a" [] (Some (ustr id)) None (ustr id) [TextNode (ustr id)]].

(** A page with the tabs 2023, Sobre and 2024 and, for 2024, two
    callouts of the regular application, each followed by its list. *)
Definition pagina_regular : node :=
  Elem "html" [] None None [] [
    Elem "div" ["govbr-tabs"] None None [] [
      Elem "div" ["tabs"] None None []
        [year_tab "2023"; year_tab "Sobre"; year_tab "2024"] ];
    Elem "div" ["tab-content"] (Some (ustr "2024")) None [] [
      callout "2º Dia – Caderno 7 – Azul – Aplicação Regular";
      Elem "ul" [] None None [] [
        Elem "li" [] None None [] [a_link "Gabarito" "g7.pdf"];
        Elem "li" [] None None [] [a_link "Prova" "p7.pdf"] ];
      callout "1º Dia – Caderno 1 – Azul – Aplicação Regular";
      Elem "ul" [] None None [] [
        Elem "li" [] None None [] [a_link "Prova" "p1.pdf"];
        Elem "li" [] None None [] [a_link "Gabarito" "g1.pdf"] ];
      callout "1º Dia – Caderno 1 – Azul – Aplicação Regular (ampliada)" ] ].

(** The text the page shows for the element at [p]. *)
Definition shown (doc : node) (p : path) : str :=
  match page_text doc p with
  | Ok t => t
  | Raise _ => []
  end.

(** Whether the callout text [t] holds every keyword. *)
Definition qualifies {ucd : UnicodeData} (kws : list str) (t : str) : bool :=
  forallb (fun k => contains k (normalizar_texto_para_comparacao (Some t))) kws.

(** ** The link classifier, stated on the harvested anchors *)

(** An anchor as the classifier sees it: its text and its [href]. *)
Definition anchor := (str * option str)%type.

(** The normalised text of the anchor holds the keyword. *)
Definition mentions {ucd : UnicodeData} (kw : string) (a : anchor) : bool :=
  contains (ustr kw) (normalizar_texto_para_comparacao (Some (fst a))).

(** The anchor has an [href] that counts as true. *)
Definition usable (a : anchor) : bool := truthy (snd a).

Definition href_of (o : option anchor) : option str :=
  match o with
  | Some a => snd a
  | None => None
  end.

(** The anchor that gives the exam URL. *)
Definition exam_anchor {ucd : UnicodeData} (anchors : list anchor)
    : option anchor :=
  find (fun a => mentions "prova" a && usable a) anchors.

(** The anchors left to the answer-key test: an anchor that mentions
    the exam keyword while no exam URL is held is tested for the exam
    only.  [latched] tells that an exam URL is held. *)
Fixpoint unconsumed {ucd : UnicodeData} (latched : bool) (anchors : list anchor)
    : list anchor :=
  match anchors with
  | [] => []
  | a :: rest =>
      if negb latched && mentions "prova" a
      then unconsumed (usable a) rest
      else a :: unconsumed latched rest
  end.

(** The anchor that gives the answer-key URL. *)
Definition key_anchor {ucd : UnicodeData} (anchors : list anchor)
    : option anchor :=
  find (fun a => mentions "gabarito" a && usable a) (unconsumed false anchors).

(** The classifier as the specification words it: each kind takes the
    first anchor that mentions its keyword, the two kinds independently. *)
Definition classify_spec {ucd : UnicodeData} (anchors : list anchor)
    : option str * option str :=
  (href_of (find (mentions "prova") anchors),
   href_of (find (mentions "gabarito") anchors)).

(** The record appended for a kind, if a URL was found for it. *)
Definition record_for (ano base : str) (suffix : string) (u : option str)
    : list link :=
  match u with
  | Some _ => [ {| ano_of := ano; tipo := base ++ ustr suffix; url := u |} ]
  | None => []
  end.

(** The value a latch holds, if it counts as true. *)
Definition held (x : option str) : option str :=
  if truthy x then x else None.

(** The anchors of a page at the given positions. *)
Definition anchors_at (doc : node) (els : list path) : list anchor :=
  map (fun p => (shown doc p,
                 match page_get_attribute doc p Href with
                 | Ok h => h
                 | Raise _ => None
                 end)) els.

(** A callout followed by an anchor that names both kinds and by a
    second answer-key anchor. *)
Definition pagina_ambigua : node :=
  Elem "html" [] None None [] [
    Elem "div" ["tab-content"] (Some (ustr "2024")) None [] [
      callout "1º Dia – Caderno 1 – Azul – Aplicação Regular";
      Elem "ul" [] None None [] [
        Elem "li" [] None None [] [a_link "Prova e Gabarito" "a.pdf"];
        Elem "li" [] None None [] [a_link "Gabarito" "b.pdf"] ] ] ].

(** A callout followed by an exam anchor without [href] and by a second
    exam anchor. *)
Definition pagina_sem_href : node :=
  Elem "html" [] None None [] [
    Elem "div" ["tab-content"] (Some (ustr "2024")) None [] [
      callout "1º Dia – Caderno 1 – Azul – Aplicação Regular";
      Elem "ul" [] None None [] [
        Elem "li" [] None None []
          [Elem "a" [] None None (ustr "Prova") [TextNode (ustr "Prova")]];
        Elem "li" [] None None [] [a_link "Prova" "p.pdf"] ] ] ].

(** The driver reads the anchor [a] off the element [e]. *)
Definition reads {WebElement : Type} {driver : WebDriver WebElement}
    (e : WebElement) (a : anchor) : Prop :=
  text e = Ok (fst a) /\ get_attribute e Href = Ok (snd a).

(** Whether the last character of [s] is a space; [b] answers for the
    empty text. *)
Definition ends_with_space (b : bool) (s : str) : bool :=
  match rev s with
  | [] => b
  | c :: _ => c =? 32
  end.

(** The two reports a call may add for the kinds it did not find. *)
Definition missing (desc ano : str) (exam key : option str) : list message :=
  match exam with
  | None => [MsgProvaNaoEncontrada desc ano]
  | Some _ => []
  end
  ++ match key with
     | None => [MsgGabaritoNaoEncontrado desc ano]
     | Some _ => []
     end.

(** ** The downloader, stated on its trace *)

(** Connection errors and timeouts are the failures that are retried. *)
Definition transient (e : exn) : bool :=
  match e with
  | ConnectionError | Timeout => true
  | _ => false
  end.



(** The world after more reports and more events. *)
Definition extended (w : world) (rs : list message) (ts : list event) : world :=
  {| REPORTS := REPORTS w ++ rs; TRACE := TRACE w ++ ts |}.

(** ** Year discovery and the year loop, stated on lists and traces *)

(** The identifiers kept by the loop of lines 133-136. *)
Definition kept_ids (ids : list (option str)) : list str :=
  flat_map (fun i => if truthy i && py_ne i (ustr "Sobre") then [str_of i] else [])
           ids.

(** [a >= b] on strings. *)
Definition str_ge (a b : str) : Prop := lex_compare a b <> Lt.

(** The years whose processing a trace shows to have begun, in order. *)
Definition years_begun (t : list event) : list str :=
  flat_map (fun e => match e with
                     | Log INFO (MsgProcessando a) => [a]
                     | _ => []
                     end) t.

(** A computation that always returns. *)
Definition total {S A} (m : M S A) : Prop :=
  forall s, exists a s', m s = (Ok a, s').

(** A computation that only adds to the trace, and no year banner. *)
Definition quiet {S A} (getw : S -> world) (m : M S A) : Prop :=
  forall s, exists t,
    TRACE (getw (snd (m s))) = TRACE (getw s) ++ t /\ years_begun t = [].

(** The projection of a state that is a world already. *)
Definition same_world (w : world) : world := w.

(** ** The extraction pass, stated on its pieces *)

(** The records a call returned. *)
Definition links_of (r : outcome (list link) * world) : list link :=
  match fst r with
  | Ok l => l
  | Raise _ => []
  end.

(** The essay-theme lookup of lines 388-395: the anchor, then its [href]. *)
Definition tema_lookup {WebElement : Type} {driver : WebDriver WebElement}
    (container_ano : WebElement) : outcome (option str) :=
  match find_element (Some container_ano) XPathTemaRedacao with
  | Ok e => get_attribute e Href
  | Raise x => Raise x
  end.

(** An exception other than [NoSuchElementException]. *)
Definition unexpected {A} (o : outcome A) : bool :=
  match o with
  | Ok _ => false
  | Raise NoSuchElementException => false
  | Raise _ => true
  end.

Definition essay_records (ano : str) (o : outcome (option str))
    : list link :=
  match o with
  | Ok h => [ {| ano_of := ano; tipo := ustr "reaplicacao_redacao"; url := h |} ]
  | Raise _ => []
  end.

(** The category keys in the order the specification lists them, and in
    the order of the calls of lines 337-426. *)
Definition catalog_spec : list str :=
  [ ustr "regular_d1"; ustr "regular_d2"; ustr "digital_d1"; ustr "digital_d2";
    ustr "reaplicacao_d1"; ustr "reaplicacao_d2"; ustr "reaplicacao_redacao" ].

Definition catalog_code : list str :=
  [ ustr "regular_d1"; ustr "regular_d2"; ustr "digital_d1"; ustr "digital_d2";
    ustr "reaplicacao_redacao"; ustr "reaplicacao_d1"; ustr "reaplicacao_d2" ].

(** The place in [catalog] of the category a record belongs to. *)
Fixpoint rank_in (catalog : list str) (t : str) : nat :=
  match catalog with
  | [] => O
  | key :: rest => if startswith key t then O else S (rank_in rest t)
  end.

Fixpoint nondecreasing (l : list nat) : bool :=
  match l with
  | [] => true
  | x :: l' =>
      match l' with
      | [] => true
      | y :: _ => Nat.leb x y && nondecreasing l'
      end
  end.

(** The records come category by category in the order of [catalog]. *)
Definition in_catalog_order (catalog : list str) (links : list link) : bool :=
  nondecreasing (map (fun r => rank_in catalog (tipo r)) links).

(** A page whose only documents are those of the re-application: the
    callout of day 1 with its list, and the essay theme. *)
Definition pagina_reaplicacao : node :=
  Elem "html" [] None None [] [
    Elem "div" ["tab-content"] (Some (ustr "2024")) None [] [
      callout "1º Dia – Caderno 1 – Azul – Reaplicação/PPL";
      Elem "ul" [] None None [] [
        Elem "li" [] None None [] [a_link "Prova" "r1.pdf"];
        Elem "li" [] None None [] [a_link "Gabarito" "rg1.pdf"] ];
      Elem "p" [] None None (ustr "Tema da Redação") [a_link "Tema da Redação" "tema.pdf"] ] ].

(** A driver whose searches with the selectors [bad] raise a driver
    error, as a browser that lost the page does. *)
Definition failing_on {E : Type} (d : WebDriver E) (bad : query -> bool)
    : WebDriver E :=
  {| find_elements := fun ctx q =>
       if bad q then Raise WebDriverException else find_elements ctx q;
     text := text;
     get_attribute := get_attribute |}.

Definition is_tema_query (q : query) : bool :=
  match q with
  | XPathTemaRedacao => true
  | _ => false
  end.

(** The records of one category of the callout protocol, run in [w]. *)
Definition category_links {ucd : UnicodeData} {WebElement : Type}
    {driver : WebDriver WebElement} (container_ano : WebElement) (ano : str)
    (desc : string) (kws : list string) (key : string) (w : world)
    : list link :=
  links_of (_extrair_prova_gabarito_links container_ano (ustr desc)
              (map ustr kws) ano (ustr key) w).

(** ** The harvest, stated on positions *)

(** [a] comes before [b] in document order. *)
Definition doc_before (a b : path) : Prop := lex_compare a b = Lt.

(** The descendants contributed by the children [ks], the first of which
    has index [i]: the inner loop of [descendants]. *)
Definition descendants_of_children (p : path)
    : N -> list node -> list (path * node) :=
  fix each (i : N) (ks : list node) : list (path * node) :=
    match ks with
    | [] => []
    | k :: ks' =>
        (p ++ [i], k) :: descendants (p ++ [i]) k ++ each (N.succ i) ks'
    end.

(** A callout followed by a block with an answer-key anchor and then by
    the list of the two anchors. *)
Definition pagina_bloco_antes : node :=
  Elem "html" [] None None [] [
    Elem "div" ["tab-content"] (Some (ustr "2024")) None [] [
      callout "1º Dia – Caderno 1 – Azul – Aplicação Regular";
      Elem "div" [] None None [] [a_link "Gabarito (versão ampliada)" "x.pdf"];
      Elem "ul" [] None None [] [
        Elem "li" [] None None [] [a_link "Prova" "p1.pdf"];
        Elem "li" [] None None [] [a_link "Gabarito" "g1.pdf"] ] ] ].

(** Attempt [a] fails on a connection error or a timeout. *)
Definition retried (falha : Z -> option exn) (a : Z) : Prop :=
  exists e, falha a = Some e /\ transient e = true.

(** A computation that keeps the property [I] of the state, whether it
    returns or raises. *)
Definition preserves {S A} (I : S -> Prop) (m : M S A) : Prop :=
  forall s, I s -> I (snd (m s)).

(** The world [w] is [w0] with more reports and more events: nothing
    was taken away. *)
Definition grown (w0 w : world) : Prop :=
  exists rs t, w = extended w0 rs t.

(** A record of the year [ano] with a URL that counts as true and the
    type of one of the two kinds of the category [base]. *)
Definition category_record (ano base : str) (r : link) : Prop :=
  ano_of r = ano /\ truthy (url r) = true
  /\ (tipo r = base ++ ustr "_prova_azul"
      \/ tipo r = base ++ ustr "_gabarito_azul").

(** A triple for code that may raise: from a state in [P], the code ends
    in a state in [Q a] when it returns [a] and in [E e] when it raises
    [e]. *)
Definition hoare {S A} (P : S -> Prop) (m : M S A)
    (Q : A -> S -> Prop) (E : exn -> S -> Prop) : Prop :=
  forall s, P s ->
    match m s with
    | (Ok a, s') => Q a s'
    | (Raise e, s') => E e s'
    end.

(** The records of the six categories of the callout protocol and the
    record of the essay theme, as one pass for the year [ano] builds them. *)
Definition pass_record (ano : str) (r : link) : Prop :=
  ano_of r = ano
  /\ (tipo r = ustr "reaplicacao_redacao"
      \/ truthy (url r) = true
         /\ exists base, In base [ ustr "regular_d1"; ustr "regular_d2";
                                   ustr "digital_d1"; ustr "digital_d2";
                                   ustr "reaplicacao_d1"; ustr "reaplicacao_d2" ]
                         /\ (tipo r = base ++ ustr "_prova_azul"
                             \/ tipo r = base ++ ustr "_gabarito_azul")).

(** The state of a pass that started with the reports [r0]: the records
    collected so far are records of the year and at most [n]; the reports
    only grew; records and new reports together are at least [k]. *)
Definition pass_inv (r0 : list message) (ano : str) (n k : nat)
    (s : frame (list link)) : Prop :=
  Forall (pass_record ano) (fst s)
  /\ (List.length (fst s) <= n)%nat
  /\ exists rs, REPORTS (snd s) = r0 ++ rs
                /\ (k <= List.length (fst s) + List.length rs)%nat.

(** A scope whose essay-theme anchor has no [href]. *)
Definition pagina_tema_sem_href : node :=
  Elem "html" [] None None [] [
    Elem "div" ["tab-content"] (Some (ustr "2024")) None [] [
      Elem "p" [] None None (ustr "Tema da Redação")
        [Elem "a" [] None None (ustr "Tema da Redação")
           [TextNode (ustr "Tema da Redação")]] ] ].

(** A driver that can no longer read the text of the elements [bad], as
    after they went stale. *)
Definition unreadable_on {E : Type} (d : WebDriver E) (bad : E -> bool)
    : WebDriver E :=
  {| find_elements := find_elements;
     text := fun e => if bad e then Raise WebDriverException else text e;
     get_attribute := get_attribute |}.

Definition path_eqb (a b : path) : bool :=
  match lex_compare a b with
  | Eq => true
  | _ => false
  end.

Definition is_year_tabs_query (q : query) : bool :=
  match q with
  | CssYearTabs => true
  | _ => false
  end.


(** ** The name of a downloaded file, lines 552-563 *)

(** [s.split(sep)] for a separator of one character; [cur] is the piece
    being read. *)
Fixpoint split_from (sep : codepoint) (cur s : str) : list str :=
  match s with
  | [] => [cur]
  | c :: rest =>
      if c =? sep then cur :: split_from sep [] rest
      else split_from sep (cur ++ [c]) rest
  end.

Definition split (sep : codepoint) (s : str) : list str := split_from sep [] s.

(** [s.rfind(c)] for one character: the last index where it stands, or
    -1. *)
Fixpoint rfind_from (c : codepoint) (s : str) (i found : Z) : Z :=
  match s with
  | [] => found
  | x :: rest => rfind_from c rest (i + 1) (if x =? c then i else found)
  end.

Definition rfind (c : codepoint) (s : str) : Z := rfind_from c s 0 (-1).

(** The loop of [os.path.splitext] over the characters between the last
    separator and the last dot: it runs to the end when all are dots. *)
Fixpoint only_dots (between : str) : bool :=
  match between with
  | [] => true
  | c :: rest => if c =? 46 then only_dots rest else false
  end.

(** [os.path.splitext(p)] on POSIX: the extension starts at the last dot
    of the last component, unless only dots come before it there. *)
Definition splitext (p : str) : str * str :=
  let sepIndex := rfind 47 p in
  let dotIndex := rfind 46 p in
  if (sepIndex <? dotIndex)%Z
     && negb (only_dots (firstn (Z.to_nat (dotIndex - (sepIndex + 1)))
                                (skipn (Z.to_nat (sepIndex + 1)) p)))
  then (firstn (Z.to_nat dotIndex) p, skipn (Z.to_nat dotIndex) p)
  else (p, []).

(** [os.path.join(a, b)] on POSIX. *)
Definition path_join (a b : str) : str :=
  if startswith [47] b then b
  else if match rev a with
          | [] => true
          | c :: _ => c =? 47
          end
       then a ++ b
       else a ++ [47] ++ b.

Definition OUTPUT_DIR : str := ustr "data".

(** Lines 556-558: the extension of the last segment of the URL, or
    [.pdf] when it has none. *)
Definition file_extension (url_download : str) : str :=
  match snd (splitext (last (split 47 url_download) [])) with
  | [] => ustr ".pdf"
  | c :: ext => c :: ext
  end.

(** Line 560. *)
Definition nome_arquivo (ano tipo_prova url_download : str) : str :=
  ustr "ENEM_" ++ ano ++ ustr "_" ++ tipo_prova ++ file_extension url_download.

(** Line 561, with [caminho_base_ano] from [criar_diretorio_ano]. *)
Definition caminho_destino (ano tipo_prova url_download : str) : str :=
  path_join (path_join OUTPUT_DIR ano) (nome_arquivo ano tipo_prova url_download).

(** ** The download phase of a year, lines 550-569 *)

(** What the phase logs on its own, at level INFO. *)
Inductive aviso :=
  | DiretorioCriado (path : str)          (* l. 445 *)
  | DiretorioJaExiste (path : str)        (* l. 447 *)
  | ArquivoJaExiste (nome : str).         (* l. 565 *)

(** The effects of the phase, in order: those of the downloader and of
    the pause, the directory made, and the lines logged. *)
Inductive efeito :=
  | Do (e : event)
  | Makedirs (path : str)
  | Info (a : aviso).

(** The global list [REPORTS] and the effects of the phase. *)
Record fase_world := { RELATOS : list message; EFEITOS : list efeito }.

(** A computation of the downloader run inside the phase: it sees the
    reports, and its trace is appended to the effects. *)
Definition lift {A} (m : M world A) : M fase_world A :=
  fun s =>
    let '(r, w) := m {| REPORTS := RELATOS s; TRACE := [] |} in
    (r, {| RELATOS := REPORTS w; EFEITOS := EFEITOS s ++ map Do (TRACE w) |}).

Definition efeito_de (e : efeito) : M fase_world unit :=
  fun s => (Ok tt, {| RELATOS := RELATOS s; EFEITOS := EFEITOS s ++ [e] |}).

Section FaseDownload.

(** The disk and the network as the phase meets them: whether the
    directory exists; the error, if any, of [os.makedirs]; whether the
    destination of the record at index [i] exists when the loop asks; the
    error, if any, of attempt [a] for that record. *)
Variable dir_existe : str -> bool.
Variable makedirs_falha : str -> option exn.
Variable arquivo_existe : nat -> str -> bool.
Variable rede : nat -> Z -> option exn.

(** [criar_diretorio_ano], lines 440-448. *)
Definition criar_diretorio_ano (ano : str) : M fase_world str :=
  let path := path_join OUTPUT_DIR ano in
  (if negb (dir_existe path)
   then efeito_de (Makedirs path) ;;
        of_outcome (match makedirs_falha path with
                    | None => Ok tt
                    | Some e => Raise e
                    end) ;;
        efeito_de (Info (DiretorioCriado path))
   else efeito_de (Info (DiretorioJaExiste path))) ;;
  ret path.

(** The body of the loop, lines 553-569, for the record at index [i]:
    [url_download.split] raises an [AttributeError] when the record
    holds no URL. *)
Definition baixar_link (ano caminho_base_ano : str) (i : nat)
    (link_info : link) : M fase_world unit :=
  let* url_download := of_outcome (match url link_info with
                                   | Some u => Ok u
                                   | None => Raise OtherException
                                   end) in
  let tipo_prova := tipo link_info in
  let caminho_destino :=
    path_join caminho_base_ano (nome_arquivo ano tipo_prova url_download) in
  if arquivo_existe i caminho_destino
  then efeito_de (Info (ArquivoJaExiste (basename caminho_destino)))
  else lift (baixar_arquivo (rede i) url_download caminho_destino 3 5) ;;
       efeito_de (Do (AtrasoAleatorio 1 4)).

Fixpoint baixar_links_de (ano caminho_base_ano : str) (i : nat)
    (links_para_baixar : list link) : M fase_world unit :=
  match links_para_baixar with
  | [] => ret tt
  | link_info :: rest =>
      baixar_link ano caminho_base_ano i link_info ;;
      baixar_links_de ano caminho_base_ano (S i) rest
  end.

(** Lines 550-569. *)
Definition fase_download (ano : str) (links_para_baixar : list link)
    : M fase_world unit :=
  let* caminho_base_ano := criar_diretorio_ano ano in
  baixar_links_de ano caminho_base_ano 0 links_para_baixar.

End FaseDownload.

(** The requests among the effects. *)
Definition pedidos (t : list efeito) : nat :=
  List.length (filter (fun e => match e with Do (Get _) => true | _ => false end) t).

(** The phase state after more reports and more effects. *)
Definition fase_extended (s : fase_world) (rs : list message) (t : list efeito)
    : fase_world :=
  {| RELATOS := RELATOS s ++ rs; EFEITOS := EFEITOS s ++ t |}.

(** The directory of the year is there or can be made. *)
Definition dir_ok (dir_existe : str -> bool) (makedirs_falha : str -> option exn)
    (ano : str) : Prop :=
  dir_existe (path_join OUTPUT_DIR ano) = true
  \/ makedirs_falha (path_join OUTPUT_DIR ano) = None.

(* ================================================================== *)
(** * Part II. Properties                                               *)
(* ================================================================== *)

(** ** Literals *)

Lemma lit_space : ustr " " = [32].
Proof. reflexivity. Qed.

Lemma lit_empty : ustr "" = [].
Proof. reflexivity. Qed.

(** ** Strings *)

Lemma decode_utf8_ascii (s : bytes) :
  Forall (fun c => c < 128) s -> decode_utf8 s = s.
Proof.
  unfold decode_utf8.
  induction 1 as [|c s Hc _ IH]; simpl; [reflexivity|].
  apply N.ltb_lt in Hc. rewrite Hc, IH. reflexivity.
Qed.

Lemma encode_ascii_ignore_ascii (s : str) :
  Forall (fun c => c < 128) (encode_ascii_ignore s).
Proof.
  unfold encode_ascii_ignore. apply Forall_forall. intros c Hc.
  apply filter_In in Hc. destruct Hc as [_ Hc]. now apply N.ltb_lt.
Qed.

Lemma encode_ascii_ignore_id (s : str) :
  Forall (fun c => c < 128) s -> encode_ascii_ignore s = s.
Proof.
  unfold encode_ascii_ignore.
  induction 1 as [|c s Hc _ IH]; simpl; [reflexivity|].
  apply N.ltb_lt in Hc. rewrite Hc, IH. reflexivity.
Qed.

(** A pattern whose first character does not occur is never found. *)
Lemma replace_absent (a : codepoint) (old new s : str) :
  ~ In a s -> replace (a :: old) new s = s.
Proof.
  unfold replace.
  induction s as [|c s IH]; intros Hn; simpl; [reflexivity|].
  assert ((a =? c) = false) as ->.
  { apply N.eqb_neq. intros ->. apply Hn. now left. }
  simpl. rewrite IH; [reflexivity|]. intros H. apply Hn. now right.
Qed.

Lemma is_az09_range (c : codepoint) :
  is_az09 c = true <-> (97 <= c <= 122) \/ (48 <= c <= 57).
Proof.
  unfold is_az09. rewrite orb_true_iff, !andb_true_iff, !N.leb_le. tauto.
Qed.

Lemma is_az09_not_space (c : codepoint) : is_az09 c = true -> isspace c = false.
Proof.
  intros H. apply is_az09_range in H. unfold isspace.
  repeat match goal with
         | |- context [?a <=? ?b] => destruct (N.leb_spec a b)
         | |- context [?a =? ?b] => destruct (N.eqb_spec a b)
         end; simpl; try reflexivity; lia.
Qed.

Lemma is_az09_lower (c : codepoint) : is_az09 c = true -> lower_char c = c.
Proof.
  intros H. apply is_az09_range in H. unfold lower_char.
  destruct (N.leb_spec 65 c), (N.leb_spec c 90); simpl; try reflexivity; lia.
Qed.

(** The characters of a text that passes [words_ok]. *)
Lemma words_ok_chars (b : bool) (s : str) :
  words_ok b s = true -> Forall (fun c => c = 32 \/ is_az09 c = true) s.
Proof.
  revert b. induction s as [|c s IH]; intros b H; constructor.
  - simpl in H. destruct (N.eqb_spec c 32); [now left|].
    apply andb_true_iff in H. now right.
  - simpl in H. destruct (c =? 32); apply andb_true_iff in H; destruct H; eauto.
Qed.

Lemma words_ok_weaken (s : str) : words_ok true s = true -> words_ok false s = true.
Proof.
  destruct s as [|c s]; simpl; [reflexivity|].
  destruct (c =? 32); simpl; [discriminate|trivial].
Qed.

Lemma words_ok_app (b : bool) (s t : str) :
  words_ok b (s ++ t) = words_ok b s && words_ok (ends_with_space b s) t.
Proof.
  revert b. induction s as [|c s IH]; intros b; simpl.
  - reflexivity.
  - assert (E : forall b' : bool, ends_with_space b (c :: s)
                         = ends_with_space (c =? 32) s).
    { intros _. unfold ends_with_space. simpl.
      destruct (rev s) as [|x r] eqn:Hr; simpl; reflexivity. }
    rewrite (E true).
    destruct (c =? 32) eqn:Hc.
    + rewrite IH, andb_assoc. reflexivity.
    + rewrite IH, andb_assoc. reflexivity.
Qed.

Lemma words_ok_rev (s : str) :
  words_ok false s = true -> words_ok false (rev s) = true.
Proof.
  induction s as [|c s IH]; intros H; [reflexivity|].
  simpl rev. rewrite words_ok_app. simpl in H.
  destruct (N.eqb_spec c 32) as [->|Hc].
  - simpl in H. rewrite IH by now apply words_ok_weaken.
    unfold ends_with_space. rewrite rev_involutive. simpl.
    destruct s as [|d s]; [reflexivity|].
    simpl in H. destruct (d =? 32); [discriminate|reflexivity].
  - apply andb_true_iff in H. destruct H as [Hc' H].
    rewrite IH by assumption. simpl.
    apply N.eqb_neq in Hc. rewrite Hc, Hc'. reflexivity.
Qed.

Lemma lstrip_fixed (s : str) : words_ok true s = true -> lstrip s = s.
Proof.
  destruct s as [|c s]; simpl; [reflexivity|].
  destruct (c =? 32); simpl; [discriminate|].
  intros H. apply andb_true_iff in H. destruct H as [H _].
  now rewrite (is_az09_not_space _ H).
Qed.

Lemma lstrip_words_ok (b : bool) (s : str) :
  words_ok b s = true -> words_ok true (lstrip s) = true.
Proof.
  destruct s as [|c s]; simpl; [reflexivity|].
  destruct (N.eqb_spec c 32) as [->|Hc]; intros H.
  - apply andb_true_iff in H. destruct H as [_ H].
    change (isspace 32) with true. cbv iota.
    now rewrite lstrip_fixed.
  - pose proof H as H'. apply andb_true_iff in H'. destruct H' as [Hc' Hs].
    rewrite (is_az09_not_space _ Hc'). simpl.
    apply N.eqb_neq in Hc. now rewrite Hc, Hc', Hs.
Qed.

Lemma lstrip_suffix (s : str) : exists d, s = d ++ lstrip s.
Proof.
  induction s as [|c s [d IH]]; simpl.
  - now exists [].
  - destruct (isspace c).
    + exists (c :: d). simpl. now f_equal.
    + now exists [].
Qed.

(** What [strip] returns on words separated by single spaces is clean. *)
Lemma strip_clean (s : str) : words_ok false s = true -> clean (strip s).
Proof.
  intros H. unfold strip, rstrip, clean.
  pose proof (lstrip_words_ok _ _ H) as H1.
  set (v := lstrip s) in *.
  pose proof (words_ok_rev _ (words_ok_weaken _ H1)) as H2.
  pose proof (lstrip_words_ok _ _ H2) as H3.
  rewrite rev_involutive. split; [|assumption].
  destruct (lstrip_suffix (rev v)) as [d Hd].
  assert (Hv : v = rev (lstrip (rev v)) ++ rev d).
  { rewrite <- rev_app_distr, <- Hd, rev_involutive. reflexivity. }
  rewrite Hv, words_ok_app in H1.
  apply andb_true_iff in H1. now destruct H1.
Qed.

Lemma strip_fixed (s : str) : clean s -> strip s = s.
Proof.
  intros [H1 H2]. unfold strip, rstrip.
  rewrite (lstrip_fixed _ H1), (lstrip_fixed _ H2). apply rev_involutive.
Qed.

(** A run replacement by one space leaves words separated by single
    spaces, when the class holds the space and no character of
    [[a-z0-9]]... *)
Lemma re_sub_not_az09_words_ok (b : bool) (s : str) :
  words_ok b (re_sub_runs_from not_az09 [32] b s) = true.
Proof.
  revert b. induction s as [|c s IH]; intros b; simpl; [reflexivity|].
  unfold not_az09 at 1. destruct (is_az09 c) eqn:Hc; simpl.
  - assert ((c =? 32) = false) as ->.
    { apply N.eqb_neq. intros ->. discriminate. }
    now rewrite Hc, IH.
  - destruct b; simpl; now rewrite IH.
Qed.

(** ... and changes nothing in such a text. *)
Lemma re_sub_runs_fixed (cls : codepoint -> bool) (b : bool) (s : str) :
  cls 32 = true -> (forall c, is_az09 c = true -> cls c = false) ->
  words_ok b s = true -> re_sub_runs_from cls [32] b s = s.
Proof.
  intros Hsp Haz. revert b.
  induction s as [|c s IH]; intros b H; simpl; [reflexivity|].
  simpl in H. destruct (N.eqb_spec c 32) as [->|Hc].
  - apply andb_true_iff in H. destruct H as [Hb H].
    rewrite Hsp. destruct b; [discriminate|]. simpl. now rewrite IH.
  - apply andb_true_iff in H. destruct H as [Hc' H].
    rewrite (Haz _ Hc'). now rewrite IH.
Qed.

Lemma lower_fixed (s : str) :
  Forall (fun c => c = 32 \/ is_az09 c = true) s -> lower s = s.
Proof.
  unfold lower. induction 1 as [|c s Hc _ IH]; simpl; [reflexivity|].
  rewrite IH. f_equal. destruct Hc as [->|Hc]; [reflexivity|].
  now apply is_az09_lower.
Qed.

Lemma words_ok_ascii (b : bool) (s : str) :
  words_ok b s = true -> Forall (fun c => c < 128) s.
Proof.
  intros H. apply words_ok_chars in H.
  eapply Forall_impl; [|exact H]. intros c [->|Hc]; [lia|].
  apply is_az09_range in Hc. lia.
Qed.

Lemma words_ok_not_in (b : bool) (s : str) (a : codepoint) :
  words_ok b s = true -> is_az09 a = false -> a <> 32 -> ~ In a s.
Proof.
  intros H Ha Hsp Hin. apply words_ok_chars in H.
  rewrite Forall_forall in H. destruct (H _ Hin) as [->|Hc]; congruence.
Qed.

(** ** Unicode normalisation *)

Section NormalizerFacts.

Context {ucd : UnicodeData}.

Lemma canonical_order_starter (x : codepoint) (s : str) :
  combining x = 0 -> canonical_order (x :: s) = x :: canonical_order s.
Proof.
  intros Hx. unfold canonical_order. simpl.
  destruct (fold_right reorder_insert [] s) as [|y l]; simpl; [reflexivity|].
  rewrite Hx. destruct (combining y); simpl; reflexivity.
Qed.

Lemma canonical_order_before_starter (x y : codepoint) (s : str) :
  combining y = 0 ->
  canonical_order (x :: y :: s) = x :: canonical_order (y :: s).
Proof.
  intros Hy.
  change (canonical_order (x :: y :: s))
    with (reorder_insert x (canonical_order (y :: s))).
  rewrite (canonical_order_starter y s Hy). simpl. rewrite Hy. reflexivity.
Qed.

Lemma normalize_NFD_ascii (s : str) :
  ascii_stable ucd -> Forall (fun c => c < 128) s -> normalize_NFD s = s.
Proof.
  intros Hucd. unfold normalize_NFD.
  induction 1 as [|c s Hc _ IH]; [reflexivity|].
  destruct (Hucd c Hc) as [Hd Hk].
  change (flat_map decomposition (c :: s))
    with (decomposition c ++ flat_map decomposition s).
  rewrite Hd.
  change ([c] ++ flat_map decomposition s)
    with (c :: flat_map decomposition s).
  rewrite canonical_order_starter by assumption. now rewrite IH.
Qed.

(** The normalised text is clean, whatever the input. *)
Lemma normalizar_clean (texto : option str) :
  clean (normalizar_texto_para_comparacao texto).
Proof.
  destruct texto as [t|]; [|split; reflexivity].
  unfold normalizar_texto_para_comparacao. rewrite lit_space.
  apply strip_clean.
  unfold re_sub_runs.
  set (u := re_sub_runs_from not_az09 [32] false _).
  assert (Hu : words_ok false u = true) by apply re_sub_not_az09_words_ok.
  rewrite re_sub_runs_fixed; auto.
  intros c Hc. now apply is_az09_not_space.
Qed.

(** On a clean text every step of the normaliser is the identity. *)
Lemma normalizar_fixed (s : str) :
  ascii_stable ucd -> clean s -> normalizar_texto_para_comparacao (Some s) = s.
Proof.
  intros Hucd Hs. pose proof Hs as [H1 _].
  pose proof (words_ok_weaken _ H1) as H0.
  unfold normalizar_texto_para_comparacao.
  change (ustr "&nbsp;") with [38; 110; 98; 115; 112; 59].
  change (ustr "–") with [8211]. change (ustr "º") with [186].
  change (ustr "ª") with [170]. change (ustr "-") with [45].
  rewrite lit_space, lit_empty.
  assert (Habs : forall a old new, is_az09 a = false -> a <> 32 ->
                 replace (a :: old) new s = s).
  { intros a old new Ha Hsp. apply replace_absent.
    now apply (words_ok_not_in true). }
  rewrite (Habs 38), (Habs 8211), (Habs 186), (Habs 170)
    by (reflexivity || discriminate).
  rewrite normalize_NFD_ascii by (eauto using words_ok_ascii).
  rewrite encode_ascii_ignore_id by (eauto using words_ok_ascii).
  rewrite decode_utf8_ascii by (eauto using words_ok_ascii).
  rewrite lower_fixed by (eauto using words_ok_chars).
  unfold re_sub_runs.
  rewrite (re_sub_runs_fixed not_az09); auto.
  2:{ intros c Hc. unfold not_az09. now rewrite Hc. }
  rewrite (re_sub_runs_fixed isspace); auto.
  2:{ intros c Hc. now apply is_az09_not_space. }
  now apply strip_fixed.
Qed.

(** C7. Normalisation is idempotent: normalising a normalised text gives
    the same text back, for every input, absent or not.  The Unicode
    database enters only through the fact that it leaves ASCII alone. *)
Theorem normalization_idempotent (texto : option str) :
  ascii_stable ucd ->
  normalizar_texto_para_comparacao
    (Some (normalizar_texto_para_comparacao texto))
  = normalizar_texto_para_comparacao texto.
Proof.
  intros Hucd. apply normalizar_fixed; [assumption|]. apply normalizar_clean.
Qed.

End NormalizerFacts.

Lemma latin1_ascii_stable : ascii_stable latin1.
Proof.
  intros c Hc. simpl. unfold latin1_decomposition, latin1_combining.
  destruct (N.ltb_spec c 192); [|lia].
  destruct (N.ltb_spec c 768); [|lia]. split; reflexivity.
Qed.

Lemma normalization_idempotent_witness :
  ascii_stable latin1 /\
  normalizar_texto_para_comparacao
    (Some (normalizar_texto_para_comparacao (Some (ustr "2ª Aplicação – PPL"))))
  = normalizar_texto_para_comparacao (Some (ustr "2ª Aplicação – PPL")).
Proof.
  split; [exact latin1_ascii_stable|].
  apply (normalization_idempotent (Some (ustr "2ª Aplicação – PPL"))).
  exact latin1_ascii_stable.
Defined.

Section NormalizerContract.

Context {ucd : UnicodeData}.

Hypothesis ascii : ascii_stable ucd.

Lemma decompose_ascii (c : codepoint) (s : str) :
  c < 128 -> flat_map decomposition (c :: s) = c :: flat_map decomposition s.
Proof.
  intros Hc. change (flat_map decomposition (c :: s))
    with (decomposition c ++ flat_map decomposition s).
  now rewrite (proj1 (ascii c Hc)).
Qed.

Lemma decompose_pair (c b m : codepoint) (s : str) :
  decomposition c = [b; m] ->
  flat_map decomposition (c :: s) = b :: m :: flat_map decomposition s.
Proof.
  intros Hc. change (flat_map decomposition (c :: s))
    with (decomposition c ++ flat_map decomposition s).
  now rewrite Hc.
Qed.

Lemma order_ascii (c : codepoint) (s : str) :
  c < 128 -> canonical_order (c :: s) = c :: canonical_order s.
Proof. intros Hc. apply canonical_order_starter, (ascii c Hc). Qed.

Lemma order_mark_ascii (m c : codepoint) (s : str) :
  c < 128 -> canonical_order (m :: c :: s) = m :: canonical_order (c :: s).
Proof. intros Hc. apply canonical_order_before_starter, (ascii c Hc). Qed.

(** C8. The absent input gives the empty string; "1º Dia – Caderno 1"
    gives "1 dia caderno 1"; "Aplicação", "aplicacao" and "APLICAÇÃO" all
    give "aplicacao".  The database is any one that leaves ASCII alone
    and has the rows of c and a with cedilla and tilde. *)
Theorem normalization_contract :
  decomposition 231 = [99; 807] -> decomposition 227 = [97; 771] ->
  decomposition 199 = [67; 807] -> decomposition 195 = [65; 771] ->
  normalizar_texto_para_comparacao None = ustr ""
  /\ normalizar_texto_para_comparacao (Some (ustr "1º Dia – Caderno 1"))
     = ustr "1 dia caderno 1"
  /\ normalizar_texto_para_comparacao (Some (ustr "Aplicação"))
     = ustr "aplicacao"
  /\ normalizar_texto_para_comparacao (Some (ustr "aplicacao"))
     = ustr "aplicacao"
  /\ normalizar_texto_para_comparacao (Some (ustr "APLICAÇÃO"))
     = ustr "aplicacao".
Proof.
  intros Hc Ha HC HA.
  split; [reflexivity|].
  split; [|split; [|split]];
    unfold normalizar_texto_para_comparacao;
    match goal with
    | |- context [normalize_NFD ?x] =>
        let v := eval vm_compute in x in change x with v
    end;
    unfold normalize_NFD;
    repeat first
      [ rewrite decompose_ascii by reflexivity
      | rewrite (decompose_pair _ _ _ _ Hc)
      | rewrite (decompose_pair _ _ _ _ Ha)
      | rewrite (decompose_pair _ _ _ _ HC)
      | rewrite (decompose_pair _ _ _ _ HA) ];
    change (flat_map decomposition []) with (@nil codepoint);
    repeat first
      [ rewrite order_ascii by reflexivity
      | rewrite order_mark_ascii by reflexivity ];
    vm_compute; reflexivity.
Qed.

End NormalizerContract.

Lemma normalization_contract_witness :
  normalizar_texto_para_comparacao (ucd := latin1) None = ustr ""
  /\ normalizar_texto_para_comparacao (ucd := latin1) (Some (ustr "1º Dia – Caderno 1"))
     = ustr "1 dia caderno 1"
  /\ normalizar_texto_para_comparacao (ucd := latin1) (Some (ustr "Aplicação"))
     = ustr "aplicacao"
  /\ normalizar_texto_para_comparacao (ucd := latin1) (Some (ustr "aplicacao"))
     = ustr "aplicacao"
  /\ normalizar_texto_para_comparacao (ucd := latin1) (Some (ustr "APLICAÇÃO"))
     = ustr "aplicacao".
Proof.
  apply (normalization_contract (ucd := latin1) latin1_ascii_stable);
    reflexivity.
Defined.

(** ** The extractor *)

Ltac run :=
  unfold with_local, try_except, extend, bind, up, of_outcome, ret, raise,
    get_local, set_local, log, emit, report; simpl.

Section CrawlerFacts.

Context {ucd : UnicodeData} {WebElement : Type} {driver : WebDriver WebElement}.

Lemma localizar_callout_cons (kws : list str) (e : WebElement)
    (els : list WebElement) (w : world) :
  localizar_callout kws (e :: els) w
  = match text e with
    | Ok t =>
        if qualifies kws t then (Ok (Some e), w)
        else localizar_callout kws els w
    | Raise x => (Raise x, w)
    end.
Proof.
  cbn [localizar_callout]. unfold bind, of_outcome, qualifies.
  destruct (text e) as [t|x]; [|reflexivity].
  destruct (forallb _ kws); reflexivity.
Qed.

Lemma localizar_callout_world (kws : list str) (els : list WebElement)
    (w : world) :
  snd (localizar_callout kws els w) = w.
Proof.
  induction els as [|e els IH]; [reflexivity|].
  rewrite localizar_callout_cons. destruct (text e) as [t|x]; [|reflexivity].
  destruct (qualifies kws t); [reflexivity|apply IH].
Qed.

Lemma localizar_callout_first (kws : list str) (txt : WebElement -> str)
    (pre : list WebElement) (e : WebElement) (post : list WebElement)
    (w : world) :
  (forall x, In x (pre ++ [e]) -> text x = Ok (txt x)) ->
  (forall x, In x pre -> qualifies kws (txt x) = false) ->
  qualifies kws (txt e) = true ->
  localizar_callout kws (pre ++ e :: post) w = (Ok (Some e), w).
Proof.
  induction pre as [|p pre IH]; intros Hread Hpre He;
    cbn [app]; rewrite localizar_callout_cons.
  - rewrite (Hread e) by (simpl; auto). now rewrite He.
  - rewrite (Hread p) by (simpl; auto).
    rewrite (Hpre p (or_introl eq_refl)). apply IH; auto.
    + intros x Hx. apply Hread. simpl. auto.
    + intros x Hx. apply Hpre. simpl. auto.
Qed.

Lemma localizar_callout_none (kws : list str) (txt : WebElement -> str)
    (els : list WebElement) (w : world) :
  (forall x, In x els -> text x = Ok (txt x) /\ qualifies kws (txt x) = false) ->
  localizar_callout kws els w = (Ok None, w).
Proof.
  induction els as [|p els IH]; intros H; [reflexivity|].
  rewrite localizar_callout_cons.
  destruct (H p (or_introl eq_refl)) as [Hr Hq]. rewrite Hr, Hq.
  apply IH. intros x Hx. apply H. simpl. auto.
Qed.

(** C1. The callouts of the scope are scanned in the order the driver
    lists them.  The first one whose normalised text holds every keyword
    is returned, and nothing after it is read; when none qualifies the
    search ends without a callout and the enclosing call returns
    normally, with no link and one report. *)
Theorem callout_locator_first_match (container : WebElement)
    (desc : str) (kws : list str) (ano base : str)
    (els : list WebElement) (txt : WebElement -> str) (w : world) :
  find_elements (Some container) CssCallout = Ok els ->
  (forall pre e post,
      els = pre ++ e :: post ->
      (forall x, In x (pre ++ [e]) -> text x = Ok (txt x)) ->
      (forall x, In x pre -> qualifies kws (txt x) = false) ->
      qualifies kws (txt e) = true ->
      localizar_callout kws els w = (Ok (Some e), w))
  /\ ((forall x, In x els ->
         text x = Ok (txt x) /\ qualifies kws (txt x) = false) ->
      localizar_callout kws els w = (Ok None, w)
      /\ _extrair_prova_gabarito_links container desc kws ano base w
         = (Ok [],
            {| REPORTS := REPORTS w
                 ++ [MsgPadraoNaoEncontrado desc kws ano NoSuchElementException];
               TRACE := TRACE w
                 ++ [Log WARNING (MsgPadraoNaoEncontrado desc kws ano
                                    NoSuchElementException)] |})).
Proof.
  intros Hfind. split.
  - intros pre e post -> Hread Hpre He.
    now apply (localizar_callout_first kws txt).
  - intros Hnone.
    pose proof (localizar_callout_none kws txt els w Hnone) as Hloc.
    split; [assumption|].
    unfold _extrair_prova_gabarito_links. run.
    rewrite Hfind. simpl. rewrite Hloc. reflexivity.
Qed.

End CrawlerFacts.

Lemma callout_locator_first_match_witness :
  let d := page pagina_regular in
  let kws := [ustr "1 dia"; ustr "caderno 1"; ustr "azul"; ustr "aplicacao regular"] in
  localizar_callout kws [[1; 0]; [1; 2]; [1; 4]] empty_world
  = (Ok (Some [1; 2]), empty_world).
Proof.
  intros d kws.
  refine (proj1 (callout_locator_first_match (driver := d) [1] (ustr "1º Dia")
                   kws (ustr "2024") (ustr "regular_d1")
                   [[1; 0]; [1; 2]; [1; 4]] (shown pagina_regular)
                   empty_world _)
                [[1; 0]] [1; 2] [[1; 4]] _ _ _ _).
  - vm_compute. reflexivity.
  - reflexivity.
  - intros x [<-|[<-|[]]]; vm_compute; reflexivity.
  - intros x [<-|[]]. vm_compute. reflexivity.
  - vm_compute. reflexivity.
Defined.

(** ** The link classifier *)

Section ClassifierFacts.

Context {ucd : UnicodeData} {WebElement : Type} {driver : WebDriver WebElement}.

Lemma classificar_links_cons (e : WebElement) (a : anchor)
    (els : list WebElement) (p g : option str) (w : world) :
  reads e a ->
  classificar_links (e :: els) p g w
  = let '(p1, g1) :=
      if mentions "prova" a && negb (truthy p) then (snd a, g)
      else if mentions "gabarito" a && negb (truthy g) then (p, snd a)
      else (p, g) in
    if truthy p1 && truthy g1 then (Ok (p1, g1), w)
    else classificar_links els p1 g1 w.
Proof.
  intros [Ht Hh]. cbn [classificar_links]. unfold bind, of_outcome, mentions.
  rewrite Ht.
  destruct (contains (ustr "prova") _ && negb (truthy p)).
  - rewrite Hh. unfold ret. destruct (truthy (snd a) && truthy g); reflexivity.
  - destruct (contains (ustr "gabarito") _ && negb (truthy g)).
    + rewrite Hh. unfold ret. destruct (truthy p && truthy (snd a)); reflexivity.
    + unfold ret. destruct (truthy p && truthy g); reflexivity.
Qed.

Lemma held_truthy (x : option str) : truthy x = true -> held x = x.
Proof. unfold held. now intros ->. Qed.

Lemma held_falsy (x : option str) : truthy x = false -> held x = None.
Proof. unfold held. now intros ->. Qed.

(** What the loop leaves in the two latches. *)
Lemma classificar_links_latches (els : list WebElement) (anchors : list anchor)
    (p g : option str) (w : world) :
  Forall2 reads els anchors ->
  exists p' g',
    classificar_links els p g w = (Ok (p', g'), w)
    /\ held p' = (if truthy p then p else href_of (exam_anchor anchors))
    /\ held g' = (if truthy g then g
                  else href_of (find (fun a => mentions "gabarito" a && usable a)
                                     (unconsumed (truthy p) anchors))).
Proof.
  intros H. revert p g. induction H as [|e a els anchors Hr _ IH]; intros p g.
  - exists p, g. split; [reflexivity|]. unfold held, exam_anchor. simpl.
    destruct (truthy p), (truthy g); auto.
  - rewrite (classificar_links_cons e a els p g w Hr).
    unfold exam_anchor in *. cbn [find unconsumed]. unfold usable.
    destruct (mentions "prova" a) eqn:Mp, (truthy p) eqn:Tp,
             (mentions "gabarito" a) eqn:Mg, (truthy g) eqn:Tg,
             (truthy (snd a)) eqn:Th;
      cbn [negb andb find]; rewrite ?Mp, ?Mg, ?Tp, ?Tg, ?Th; cbn [negb andb];
      match goal with
      | |- exists p' g', classificar_links _ ?x ?y _ = _ /\ _ =>
          destruct (IH x y) as (p' & g' & E & Hp & Hg);
          exists p', g'; rewrite ?Tp, ?Tg, ?Th in *; auto
      | |- exists p' g', (Ok (?x, ?y), _) = _ /\ _ =>
          exists x, y; unfold held; rewrite ?Tp, ?Tg, ?Th; auto
      end.
Qed.

(** C2 (amended). Once the callout is located and its anchors are
    harvested, one scan in order fills the two latches, each at most
    once: the exam URL is the [href] of the first anchor that mentions
    "prova" and has a usable [href]; the answer-key URL is the [href] of
    the first anchor that mentions "gabarito" and has a usable [href]
    among the anchors the exam test did not take.  A kind that is not
    found adds one report and leaves the other kind as it is. *)
Theorem link_classifier_latches (container c : WebElement)
    (desc : str) (kws : list str) (ano base : str)
    (callouts els : list WebElement) (anchors : list anchor) (w : world) :
  find_elements (Some container) CssCallout = Ok callouts ->
  fst (localizar_callout kws callouts w) = Ok (Some c) ->
  find_elements (Some c) XPathFollowingLinks = Ok els ->
  Forall2 reads els anchors ->
  let exam := href_of (exam_anchor anchors) in
  let key := href_of (key_anchor anchors) in
  let r := _extrair_prova_gabarito_links container desc kws ano base w in
  fst r = Ok (record_for ano base "_prova_azul" exam
              ++ record_for ano base "_gabarito_azul" key)
  /\ REPORTS (snd r) = REPORTS w ++ missing desc ano exam key.
Proof.
  intros Hc Hloc Hl Hr exam key r.
  assert (Hloc' : localizar_callout kws callouts w = (Ok (Some c), w)).
  { rewrite (surjective_pairing (localizar_callout kws callouts w)).
    now rewrite Hloc, localizar_callout_world. }
  subst r. unfold _extrair_prova_gabarito_links, with_local, try_except,
    bind, up, of_outcome, ret, raise, get_local, set_local, log, emit, report.
  cbn [fst snd]. rewrite Hc, Hloc'. cbn [fst snd TRACE REPORTS]. rewrite Hl.
  match goal with
  | |- context [classificar_links els None None ?W] =>
      destruct (classificar_links_latches els anchors None None W Hr)
        as (p' & g' & E & Hp & Hg); rewrite E
  end.
  cbn [truthy unconsumed] in Hp, Hg. fold (key_anchor anchors) in Hg.
  fold exam in Hp. fold key in Hg. clearbody exam key.
  unfold missing, held in *.
  destruct (truthy p') eqn:Tp, (truthy g') eqn:Tg; subst exam key;
    try (destruct p' as [[|? ?]|]; try discriminate Tp);
    try (destruct g' as [[|? ?]|]; try discriminate Tg);
    cbn [fst snd REPORTS record_for app];
    rewrite <- ?app_assoc, ?app_nil_r; cbn [app];
    split; reflexivity.
Qed.

(** C9. Whatever the driver answers and in whatever order the anchors
    come, the records of one call are the exam record, if any, followed
    by the answer-key record, if any: when both kinds are found the exam
    record comes first. *)
Theorem exam_record_before_key_record (container : WebElement)
    (desc : str) (kws : list str) (ano base : str) (w : world) :
  exists exam key,
    fst (_extrair_prova_gabarito_links container desc kws ano base w)
    = Ok (record_for ano base "_prova_azul" exam
          ++ record_for ano base "_gabarito_azul" key).
Proof.
  unfold _extrair_prova_gabarito_links, with_local, try_except,
    bind, up, of_outcome, ret, raise, get_local, set_local, log, emit, report.
  cbn [fst snd].
  destruct (find_elements (Some container) CssCallout) as [callouts|x];
    [|exists None, None; destruct x; reflexivity].
  destruct (localizar_callout kws callouts w) as [[[c|]|x] w1];
    [| exists None, None; reflexivity
     | exists None, None; destruct x; reflexivity].
  cbn [fst snd].
  destruct (find_elements (Some c) XPathFollowingLinks) as [els|x];
    [|exists None, None; destruct x; reflexivity].
  match goal with
  | |- context [classificar_links els None None ?W] =>
      destruct (classificar_links els None None W) as [[[p g]|x] w2]
  end; [|exists None, None; destruct x; reflexivity].
  exists (held p), (held g). unfold held.
  destruct (truthy p) eqn:Tp, (truthy g) eqn:Tg;
    try (destruct p as [[|? ?]|]; try discriminate Tp);
    try (destruct g as [[|? ?]|]; try discriminate Tg);
    reflexivity.
Qed.

End ClassifierFacts.

Lemma link_classifier_latches_witness :
  let d := page pagina_regular in
  let r := _extrair_prova_gabarito_links [1]
             (ustr "1º Dia - Caderno 1 - Azul - Aplicação Regular")
             [ustr "1 dia"; ustr "caderno 1"; ustr "azul"; ustr "aplicacao regular"]
             (ustr "2024") (ustr "regular_d1") empty_world in
  fst r = Ok [ {| ano_of := ustr "2024"; tipo := ustr "regular_d1_prova_azul";
                  url := Some (ustr "p1.pdf") |};
               {| ano_of := ustr "2024"; tipo := ustr "regular_d1_gabarito_azul";
                  url := Some (ustr "g1.pdf") |} ]
  /\ REPORTS (snd r) = [].
Proof.
  intros d r.
  assert (Hr : Forall2 (reads (driver := d)) [[1; 3; 0; 0]; [1; 3; 1; 0]]
                 [(ustr "Prova", Some (ustr "p1.pdf"));
                  (ustr "Gabarito", Some (ustr "g1.pdf"))]).
  { repeat constructor. }
  pose proof (link_classifier_latches (driver := d) [1] [1; 2]
                (ustr "1º Dia - Caderno 1 - Azul - Aplicação Regular")
                [ustr "1 dia"; ustr "caderno 1"; ustr "azul";
                 ustr "aplicacao regular"]
                (ustr "2024") (ustr "regular_d1")
                [[1; 0]; [1; 2]; [1; 4]] [[1; 3; 0; 0]; [1; 3; 1; 0]] _
                empty_world eq_refl eq_refl eq_refl Hr) as P.
  exact P.
Defined.

(** The sentence of the specification fails on two harvests: an anchor
    that names both kinds gives the exam URL only, so the answer key
    comes from the next anchor; and an exam anchor without [href] does not
    close the exam latch, which the next exam anchor then fills. *)
Lemma link_classifier_counterexample :
  (let d := page pagina_ambigua in
   let els := [[0; 1; 0; 0]; [0; 1; 1; 0]] in
   find_elements (Some [0; 0]) XPathFollowingLinks = Ok els
   /\ fst (classificar_links els None None empty_world)
      = Ok (Some (ustr "a.pdf"), Some (ustr "b.pdf"))
   /\ classify_spec (anchors_at pagina_ambigua els)
      = (Some (ustr "a.pdf"), Some (ustr "a.pdf"))
   /\ fst (classificar_links els None None empty_world)
      <> Ok (classify_spec (anchors_at pagina_ambigua els)))
  /\
  (let d := page pagina_sem_href in
   let els := [[0; 1; 0; 0]; [0; 1; 1; 0]] in
   find_elements (Some [0; 0]) XPathFollowingLinks = Ok els
   /\ fst (classificar_links els None None empty_world)
      = Ok (Some (ustr "p.pdf"), None)
   /\ classify_spec (anchors_at pagina_sem_href els) = (None, None)
   /\ fst (classificar_links els None None empty_world)
      <> Ok (classify_spec (anchors_at pagina_sem_href els))).
Proof.
  split; intros d els; (split; [reflexivity|]);
    (split; [vm_compute; reflexivity|]);
    (split; [vm_compute; reflexivity|]);
    vm_compute; discriminate.
Qed.

(** The second list of [pagina_regular] shows the answer key first; the
    exam record still comes first. *)
Example exam_first_on_reversed_list :
  let d := page pagina_regular in
  fst (_extrair_prova_gabarito_links [1]
         (ustr "2º Dia - Caderno 7 - Azul - Aplicação Regular")
         [ustr "2 dia"; ustr "caderno 7"; ustr "azul"; ustr "aplicacao regular"]
         (ustr "2024") (ustr "regular_d2") empty_world)
  = Ok [ {| ano_of := ustr "2024"; tipo := ustr "regular_d2_prova_azul";
            url := Some (ustr "p7.pdf") |};
         {| ano_of := ustr "2024"; tipo := ustr "regular_d2_gabarito_azul";
            url := Some (ustr "g7.pdf") |} ].
Proof. vm_compute. reflexivity. Qed.

(** ** The downloader *)

Lemma extended_extended (w : world) (rs rs' : list message)
    (ts ts' : list event) :
  extended (extended w rs ts) rs' ts' = extended w (rs ++ rs') (ts ++ ts').
Proof. unfold extended. simpl. now rewrite <- !app_assoc. Qed.


Lemma attempts_in_app (t u : list event) :
  attempts_in (t ++ u) = (attempts_in t + attempts_in u)%nat.
Proof. unfold attempts_in. now rewrite filter_app, length_app. Qed.

Lemma sleeps_in_app (t u : list event) :
  sleeps_in (t ++ u) = sleeps_in t ++ sleeps_in u.
Proof. apply flat_map_app. Qed.

Section DownloaderFacts.

Variable falha : Z -> option exn.
Variables url dest : str.
Variables max_retries delay : Z.

Lemma tentativa_success (a : Z) (w : world) :
  falha a = None ->
  tentativa falha url dest max_retries delay a w
  = (Ok (Return true),
     extended w []
       [Log INFO (MsgTentando (a + 1) max_retries (basename dest)); Get url;
        Saved dest; Log INFO (MsgBaixado (basename dest))]).
Proof.
  intros H. unfold tentativa. run. rewrite H. unfold extended. simpl.
  now rewrite <- !app_assoc, app_nil_r.
Qed.

Lemma tentativa_transient_retry (a : Z) (e : exn) (w : world) :
  falha a = Some e -> transient e = true -> (a < max_retries - 1)%Z ->
  (0 <= delay)%Z ->
  tentativa falha url dest max_retries delay a w
  = (Ok Continue,
     extended w []
       [Log INFO (MsgTentando (a + 1) max_retries (basename dest)); Get url;
        Log WARNING (MsgErroConexao (basename dest) (a + 1) max_retries e);
        Log INFO (MsgAguardando delay); Sleep delay]).
Proof.
  intros H He Ha Hd. unfold tentativa, sleep.
  apply Z.ltb_lt in Ha. apply Z.ltb_ge in Hd. rewrite Hd. run. rewrite H.
  destruct e; try discriminate He; simpl; rewrite Ha; unfold extended; simpl;
    now rewrite <- !app_assoc, app_nil_r.
Qed.

(** A negative delay: the pause raises from inside the handler, and the
    attempt with it. *)
Lemma tentativa_transient_negative (a : Z) (e : exn) (w : world) :
  falha a = Some e -> transient e = true -> (a < max_retries - 1)%Z ->
  (delay < 0)%Z ->
  tentativa falha url dest max_retries delay a w
  = (Raise OtherException,
     extended w []
       [Log INFO (MsgTentando (a + 1) max_retries (basename dest)); Get url;
        Log WARNING (MsgErroConexao (basename dest) (a + 1) max_retries e);
        Log INFO (MsgAguardando delay)]).
Proof.
  intros H He Ha Hd. unfold tentativa, sleep.
  apply Z.ltb_lt in Ha. apply Z.ltb_lt in Hd. rewrite Hd. run. rewrite H.
  destruct e; try discriminate He; simpl; rewrite Ha; unfold extended; simpl;
    now rewrite <- !app_assoc, app_nil_r.
Qed.

Lemma tentativa_transient_last (a : Z) (e : exn) (w : world) :
  falha a = Some e -> transient e = true -> (max_retries - 1 <= a)%Z ->
  tentativa falha url dest max_retries delay a w
  = (Ok Continue,
     extended w [MsgFalhaApos (basename dest) max_retries]
       [Log INFO (MsgTentando (a + 1) max_retries (basename dest)); Get url;
        Log WARNING (MsgErroConexao (basename dest) (a + 1) max_retries e);
        Log ERROR (MsgFalhaApos (basename dest) max_retries)]).
Proof.
  intros H He Ha. unfold tentativa, sleep. run. rewrite H.
  apply Z.ltb_ge in Ha.
  destruct e; try discriminate He; simpl; rewrite Ha; unfold extended; simpl;
    now rewrite <- !app_assoc.
Qed.

Lemma tentativa_permanent (a : Z) (e : exn) (w : world) :
  falha a = Some e -> transient e = false ->
  exists m lvl_msg,
    tentativa falha url dest max_retries delay a w
    = (Ok Break,
       extended w [m]
         [Log INFO (MsgTentando (a + 1) max_retries (basename dest)); Get url;
          Log ERROR lvl_msg]).
Proof.
  intros H He. unfold tentativa. run. rewrite H.
  destruct e; try discriminate He; simpl; eexists _, _; unfold extended; simpl;
    rewrite <- !app_assoc; reflexivity.
Qed.

Lemma tentativas_cons (a : Z) (rest : list Z) (w : world) :
  tentativas falha url dest max_retries delay (a :: rest) w
  = match tentativa falha url dest max_retries delay a w with
    | (Ok (Return b), w') => (Ok b, w')
    | (Ok Break, w') => (Ok false, w')
    | (Ok Continue, w') => tentativas falha url dest max_retries delay rest w'
    | (Raise e, w') => (Raise e, w')
    end.
Proof.
  cbn [tentativas]. unfold bind.
  destruct (tentativa falha url dest max_retries delay a w) as [[[b| |]|e] w'];
    reflexivity.
Qed.



End DownloaderFacts.


(** ** The order on strings and positions *)

Lemma lex_compare_refl (a : list N) : lex_compare a a = Eq.
Proof. induction a as [|x a IH]; simpl; [reflexivity|]. now rewrite N.compare_refl. Qed.

Lemma lex_compare_eq (a b : list N) : lex_compare a b = Eq -> a = b.
Proof.
  revert b. induction a as [|x a IH]; intros [|y b]; simpl; try discriminate;
    [reflexivity|].
  destruct (N.compare_spec x y) as [Hxy|Hxy|Hxy]; try discriminate.
  intros H. subst. f_equal. now apply IH.
Qed.

Lemma lex_compare_antisym (a b : list N) :
  lex_compare b a = CompOpp (lex_compare a b).
Proof.
  revert b. induction a as [|x a IH]; intros [|y b]; simpl; try reflexivity.
  rewrite (N.compare_antisym x y).
  destruct (x ?= y); simpl; auto.
Qed.

Lemma lex_compare_lt_trans (a b c : list N) :
  lex_compare a b = Lt -> lex_compare b c = Lt -> lex_compare a c = Lt.
Proof.
  revert b c. induction a as [|x a IH]; intros [|y b] [|z c]; simpl;
    try discriminate; try reflexivity.
  destruct (N.compare_spec x y) as [Hxy|Hxy|Hxy],
           (N.compare_spec y z) as [Hyz|Hyz|Hyz]; try discriminate;
    intros H1 H2; subst.
  - rewrite N.compare_refl. eauto.
  - now apply N.compare_lt_iff in Hyz as ->.
  - now apply N.compare_lt_iff in Hxy as ->.
  - assert (Hxz : x < z) by lia.
    now apply N.compare_lt_iff in Hxz as ->.
Qed.

Lemma str_eqb_eq (a b : str) : str_eqb a b = true <-> a = b.
Proof.
  unfold str_eqb. split.
  - destruct (lex_compare a b) eqn:E; try discriminate.
    intros _. now apply lex_compare_eq.
  - intros ->. now rewrite lex_compare_refl.
Qed.

Lemma str_ge_trans (a b c : str) : str_ge a b -> str_ge b c -> str_ge a c.
Proof.
  unfold str_ge. intros H1 H2 H3.
  destruct (lex_compare a b) eqn:E1; [| congruence |].
  - apply lex_compare_eq in E1. subst. congruence.
  - destruct (lex_compare b c) eqn:E2; [| congruence |].
    + apply lex_compare_eq in E2. subst. congruence.
    + rewrite lex_compare_antisym in E1, E2.
      destruct (lex_compare b a) eqn:F1; try discriminate.
      destruct (lex_compare c b) eqn:F2; try discriminate.
      pose proof (lex_compare_lt_trans _ _ _ F2 F1) as F.
      rewrite lex_compare_antisym, H3 in F. discriminate.
Qed.

(** ** [sorted(anos, reverse=True)] *)

Lemma insert_desc_perm (x : str) (l : list str) :
  Permutation (insert_desc x l) (x :: l).
Proof.
  induction l as [|y l IH]; simpl; [reflexivity|].
  destruct (lex_compare x y); try reflexivity.
  rewrite IH. apply perm_swap.
Qed.

Lemma sorted_reverse_perm (l : list str) : Permutation (sorted_reverse l) l.
Proof.
  induction l as [|x l IH]; simpl; [reflexivity|].
  rewrite insert_desc_perm. now constructor.
Qed.

Lemma insert_desc_sorted (x : str) (l : list str) :
  Sorted str_ge l -> Sorted str_ge (insert_desc x l).
Proof.
  induction 1 as [|y l Hs IH Hd]; simpl; [repeat constructor|].
  destruct (lex_compare x y) eqn:E.
  - repeat constructor; auto. unfold str_ge. congruence.
  - constructor; [assumption|].
    assert (Hyx : str_ge y x).
    { unfold str_ge. rewrite lex_compare_antisym, E. discriminate. }
    destruct l as [|z l]; simpl; [now constructor|].
    destruct (lex_compare x z); constructor; auto.
    now inversion Hd.
  - repeat constructor; auto. unfold str_ge. congruence.
Qed.

Lemma sorted_reverse_sorted (l : list str) :
  StronglySorted str_ge (sorted_reverse l).
Proof.
  apply Sorted_StronglySorted.
  - intros a b c. apply str_ge_trans.
  - induction l as [|x l IH]; simpl; [constructor|].
    now apply insert_desc_sorted.
Qed.

Lemma kept_ids_spec (ids : list (option str)) (a : str) :
  In a (kept_ids ids) <-> In (Some a) ids /\ a <> [] /\ a <> ustr "Sobre".
Proof.
  unfold kept_ids. rewrite in_flat_map. split.
  - intros (i & Hi & Ha).
    destruct i as [[|c s]|]; simpl in Ha; try contradiction.
    destruct (str_eqb (c :: s) (ustr "Sobre")) eqn:E; simpl in Ha;
      [contradiction|].
    destruct Ha as [<-|[]]. repeat split; auto; [discriminate|].
    intros H. apply str_eqb_eq in H. congruence.
  - intros (Hi & Hne & Hs). exists (Some a). split; [assumption|].
    destruct a as [|c s]; [congruence|]. simpl.
    destruct (str_eqb (c :: s) (ustr "Sobre")) eqn:E; simpl; [|now left].
    apply str_eqb_eq in E. congruence.
Qed.

(** ** Computations that return, computations that stay quiet *)

Lemma years_begun_app (t u : list event) :
  years_begun (t ++ u) = years_begun t ++ years_begun u.
Proof. apply flat_map_app. Qed.

Section MonadFacts.

Context {S : Type}.

Lemma total_ret {A} (a : A) : total (ret (S := S) a).
Proof. intros s. now exists a, s. Qed.

Lemma total_bind {A B} (m : M S A) (k : A -> M S B) :
  total m -> (forall a, total (k a)) -> total (bind m k).
Proof.
  intros Hm Hk s. unfold bind. destruct (Hm s) as (a & s' & ->). apply Hk.
Qed.

Lemma total_try_except {A} (m : M S A) (h : exn -> M S A) :
  (forall e, total (h e)) -> total (try_except m h).
Proof.
  intros Hh s. unfold try_except. destruct (m s) as [[a|e] s'].
  - now exists a, s'.
  - apply Hh.
Qed.

Variable getw : S -> world.

Lemma quiet_unchanged {A} (m : M S A) :
  (forall s, snd (m s) = s) -> quiet getw m.
Proof. intros H s. exists []. rewrite H, app_nil_r. now split. Qed.

Lemma quiet_ret {A} (a : A) : quiet getw (ret a).
Proof. now apply quiet_unchanged. Qed.

Lemma quiet_raise {A} (e : exn) : quiet getw (raise (A := A) e).
Proof. now apply quiet_unchanged. Qed.

Lemma quiet_of_outcome {A} (o : outcome A) : quiet getw (of_outcome o).
Proof. now apply quiet_unchanged. Qed.

Lemma quiet_bind {A B} (m : M S A) (k : A -> M S B) :
  quiet getw m -> (forall a, quiet getw (k a)) -> quiet getw (bind m k).
Proof.
  intros Hm Hk s. unfold bind. destruct (Hm s) as (t & Ht & Hy).
  destruct (m s) as [[a|e] s']; simpl in Ht.
  - destruct (Hk a s') as (u & Hu & Hy').
    exists (t ++ u). rewrite Hu, Ht, app_assoc, years_begun_app, Hy, Hy'.
    now split.
  - exists t. now split.
Qed.

Lemma quiet_try_except {A} (m : M S A) (h : exn -> M S A) :
  quiet getw m -> (forall e, quiet getw (h e)) -> quiet getw (try_except m h).
Proof.
  intros Hm Hh s. unfold try_except. destruct (Hm s) as (t & Ht & Hy).
  destruct (m s) as [[a|e] s']; simpl in Ht.
  - exists t. now split.
  - destruct (Hh e s') as (u & Hu & Hy').
    exists (t ++ u). rewrite Hu, Ht, app_assoc, years_begun_app, Hy, Hy'.
    now split.
Qed.

End MonadFacts.

Lemma total_report (m : message) : total (report m).
Proof. intros w. now eexists _, _. Qed.

Lemma total_emit (e : event) : total (emit e).
Proof. intros w. now eexists _, _. Qed.

Lemma total_up {L A} (m : M world A) : total m -> total (up (L := L) m).
Proof.
  intros H [l w]. unfold up. simpl. destruct (H w) as (a & w' & ->).
  now eexists _, _.
Qed.

Lemma total_get_local {L} : total (get_local (L := L)).
Proof. intros s. now eexists _, _. Qed.

Lemma total_with_local {L A} (init : L) (m : M (frame L) A) :
  total m -> total (with_local init m).
Proof.
  intros H w. unfold with_local. destruct (H (init, w)) as (a & s' & ->).
  now eexists _, _.
Qed.

Lemma quiet_report (m : message) : quiet same_world (report m).
Proof. intros w. exists []. simpl. rewrite app_nil_r. now split. Qed.

Lemma quiet_emit (e : event) :
  years_begun [e] = [] -> quiet same_world (emit e).
Proof. intros H w. exists [e]. now split. Qed.

Lemma quiet_up {L A} (m : M world A) :
  quiet same_world m -> quiet (S := frame L) snd (up m).
Proof.
  intros H [l w]. unfold up. simpl. destruct (H w) as (t & Ht & Hy).
  exists t. destruct (m w) as [r w']. now split.
Qed.

Lemma quiet_get_local {L} : quiet (S := frame L) snd get_local.
Proof. now apply quiet_unchanged. Qed.

Lemma quiet_set_local {L} (l : L) : quiet (S := frame L) snd (set_local l).
Proof. intros s. exists []. simpl. rewrite app_nil_r. now split. Qed.

Lemma quiet_with_local {L A} (init : L) (m : M (frame L) A) :
  quiet snd m -> quiet same_world (with_local init m).
Proof.
  intros H w. unfold with_local. destruct (H (init, w)) as (t & Ht & Hy).
  exists t. destruct (m (init, w)) as [r s']. now split.
Qed.

Lemma quiet_external {A} (r : outcome A * list message) :
  quiet same_world (external r).
Proof. intros w. exists []. simpl. rewrite app_nil_r. now split. Qed.

(** Solves [total] and [quiet] goals on straight-line code. *)
Ltac calm :=
  repeat first
    [ apply total_ret | apply total_report | apply total_emit
    | apply total_get_local
    | apply total_up | apply total_with_local | apply total_try_except
    | apply total_bind
    | apply quiet_ret | apply quiet_raise | apply quiet_of_outcome
    | apply quiet_report | apply quiet_get_local | apply quiet_set_local
    | apply quiet_external
    | apply quiet_emit; reflexivity
    | apply quiet_up | apply quiet_with_local
    | apply quiet_try_except | apply quiet_bind
    | progress intros
    | match goal with
      | |- total (match ?x with _ => _ end) => destruct x
      | |- quiet _ (match ?x with _ => _ end) => destruct x
      | |- total (if ?x then _ else _) => destruct x
      | |- quiet _ (if ?x then _ else _) => destruct x
      | |- total (log _ _) => unfold log
      | |- quiet _ (log _ _) => unfold log
      | |- total (set_local _) => intros ?; eexists _, _; reflexivity
      end ].

Section ExtractorTotalQuiet.

Context {ucd : UnicodeData} {WebElement : Type} {driver : WebDriver WebElement}.

Lemma quiet_localizar_callout (kws : list str) (els : list WebElement) :
  quiet same_world (localizar_callout kws els).
Proof. apply quiet_unchanged. intros w. apply localizar_callout_world. Qed.

Lemma quiet_classificar_links (els : list WebElement) (p g : option str) :
  quiet same_world (classificar_links els p g).
Proof.
  revert p g. induction els as [|e els IH]; intros p g;
    cbn [classificar_links]; calm; apply IH.
Qed.

Lemma quiet_extrair_prova_gabarito_links (container : WebElement)
    (desc : str) (kws : list str) (ano base : str) :
  quiet same_world (_extrair_prova_gabarito_links container desc kws ano base).
Proof.
  unfold _extrair_prova_gabarito_links. calm;
    first [ apply quiet_localizar_callout | apply quiet_classificar_links ].
Qed.

Lemma total_extrair_prova_gabarito_links (container : WebElement)
    (desc : str) (kws : list str) (ano base : str) :
  total (_extrair_prova_gabarito_links container desc kws ano base).
Proof. unfold _extrair_prova_gabarito_links. calm. Qed.

(** The extraction pass never raises. *)
Lemma total_extrair_links_provas_e_gabaritos (ano : str) :
  total (extrair_links_provas_e_gabaritos ano).
Proof. unfold extrair_links_provas_e_gabaritos. calm. Qed.

Lemma quiet_extrair_links_provas_e_gabaritos (ano : str) :
  quiet same_world (extrair_links_provas_e_gabaritos ano).
Proof.
  unfold extrair_links_provas_e_gabaritos, extend, tema_da_redacao. calm;
    first [ apply quiet_localizar_callout | apply quiet_classificar_links ].
Qed.

End ExtractorTotalQuiet.

(** ** Year discovery and the year loop *)

Section YearFacts.

Context {ucd : UnicodeData} {WebElement : Type} {driver : WebDriver WebElement}.

Variable clicar_aba_ano : str -> outcome bool * list message.
Variable baixar_links : str -> list link -> outcome unit * list message.

Lemma coletar_anos_kept (tabs : list WebElement) (ids : list (option str))
    (anos : list str) (w : world) :
  Forall2 (fun t i => get_attribute t DataId = Ok i) tabs ids ->
  coletar_anos tabs anos w = (Ok (anos ++ kept_ids ids), w).
Proof.
  intros H. revert anos.
  induction H as [|t i tabs ids Ht _ IH]; intros anos.
  - simpl. unfold ret, kept_ids. simpl. now rewrite app_nil_r.
  - cbn [coletar_anos]. unfold bind, of_outcome. rewrite Ht.
    unfold kept_ids. cbn [flat_map]. fold (kept_ids ids).
    destruct (truthy i && py_ne i (ustr "Sobre")).
    + rewrite IH, <- app_assoc. reflexivity.
    + apply IH.
Qed.

Lemma obter_anos_disponiveis_sorted (tabs : list WebElement)
    (ids : list (option str)) (w : world) :
  find_elements None CssYearTabs = Ok tabs ->
  Forall2 (fun t i => get_attribute t DataId = Ok i) tabs ids ->
  obter_anos_disponiveis w
  = (Ok (sorted_reverse (kept_ids ids)),
     extended w [] [Log INFO (MsgAnosIdentificados (kept_ids ids))]).
Proof.
  intros Hf Hids. unfold obter_anos_disponiveis, try_except, bind, of_outcome.
  rewrite Hf, (coletar_anos_kept tabs ids [] w Hids).
  unfold extended. simpl. now rewrite app_nil_r.
Qed.

(** The loop begins the years in list order, and all of them unless a
    collaborator raises. *)
Lemma processar_anos_order (anos : list str) (w : world) :
  exists t,
    TRACE (snd (processar_anos clicar_aba_ano baixar_links anos w))
    = TRACE w ++ t
    /\ (exists rest, anos = years_begun t ++ rest)
    /\ ((forall a, exists b, fst (clicar_aba_ano a) = Ok b) ->
        (forall a l, fst (baixar_links a l) = Ok tt) ->
        years_begun t = anos).
Proof.
  revert w. induction anos as [|ano anos IH]; intros w.
  - exists []. simpl. rewrite app_nil_r. split; [reflexivity|].
    split; [now exists []|]. intros _ _. reflexivity.
  - cbn [processar_anos]. unfold bind, log, emit, external, report.
    cbn [fst snd REPORTS TRACE].
    destruct (clicar_aba_ano ano) as [[[|]|e] reps] eqn:Hclick;
      cbn [fst snd negb REPORTS TRACE].
    + (* the tab opened *)
      match goal with
      | |- context [extrair_links_provas_e_gabaritos ano ?W] =>
          destruct (quiet_extrair_links_provas_e_gabaritos ano W)
            as (t1 & Ht1 & Hy1);
          destruct (total_extrair_links_provas_e_gabaritos ano W)
            as (links & w3 & E)
      end.
      rewrite E in Ht1 |- *. unfold same_world in Ht1.
      cbn [snd TRACE] in Ht1.
      destruct links as [|l links]; cbn [fst snd REPORTS TRACE].
      * match goal with
        | |- context [processar_anos _ _ anos ?W] =>
            destruct (IH W) as (t & Ht & (rest & Hrest) & Hall)
        end.
        cbn [TRACE] in Ht. rewrite Ht1 in Ht |- *.
        eexists. split.
        { rewrite Ht, <- !app_assoc. reflexivity. }
        rewrite !years_begun_app, Hy1. cbn.
        split; [exists rest; now f_equal|].
        intros Hc Hb. now rewrite (Hall Hc Hb).
      * destruct (baixar_links ano (l :: links)) as [[[]|e] reps'] eqn:Hb';
          cbn [fst snd REPORTS TRACE].
        -- match goal with
           | |- context [processar_anos _ _ anos ?W] =>
               destruct (IH W) as (t & Ht & (rest & Hrest) & Hall)
           end.
           cbn [TRACE] in Ht. rewrite Ht1 in Ht |- *.
           eexists. split.
           { rewrite Ht, <- !app_assoc. reflexivity. }
           rewrite !years_begun_app, Hy1. cbn.
           split; [exists rest; now f_equal|].
           intros Hc Hb. now rewrite (Hall Hc Hb).
        -- eexists. split.
           { rewrite Ht1, <- !app_assoc. reflexivity. }
           rewrite !years_begun_app, Hy1. cbn.
           split; [now exists anos|].
           intros _ Hb. specialize (Hb ano (l :: links)).
           rewrite Hb' in Hb. discriminate.
    + (* the tab did not open: the year is skipped *)
      match goal with
      | |- context [processar_anos _ _ anos ?W] =>
          destruct (IH W) as (t & Ht & (rest & Hrest) & Hall)
      end.
      cbn [TRACE] in Ht.
      eexists. split.
      { rewrite Ht, <- !app_assoc. reflexivity. }
      rewrite !years_begun_app. cbn.
      split; [exists rest; now f_equal|].
      intros Hc Hb. now rewrite (Hall Hc Hb).
    + eexists. rewrite <- app_assoc. split; [reflexivity|].
      split; [now exists anos|].
      intros Hc _. destruct (Hc ano) as [b Hb]. rewrite Hclick in Hb.
      discriminate.
Qed.

(** C10. Year discovery keeps the tab identifiers that are non-empty and
    differ from "Sobre" and returns them in descending order; the main
    loop begins the years in exactly that order: what it has begun is a
    prefix of the list, and the whole list when no collaborator raises. *)
Theorem years_kept_and_processed_descending (tabs : list WebElement)
    (ids : list (option str)) (w : world) :
  find_elements None CssYearTabs = Ok tabs ->
  Forall2 (fun t i => get_attribute t DataId = Ok i) tabs ids ->
  exists anos,
    fst (obter_anos_disponiveis w) = Ok anos
    /\ (forall a, In a anos <->
                  In (Some a) ids /\ a <> [] /\ a <> ustr "Sobre")
    /\ Permutation anos (kept_ids ids)
    /\ StronglySorted str_ge anos
    /\ exists t,
         TRACE (snd (main_anos clicar_aba_ano baixar_links w)) = TRACE w ++ t
         /\ (exists rest, anos = years_begun t ++ rest)
         /\ ((forall a, exists b, fst (clicar_aba_ano a) = Ok b) ->
             (forall a l, fst (baixar_links a l) = Ok tt) ->
             years_begun t = anos).
Proof.
  intros Hf Hids.
  pose proof (obter_anos_disponiveis_sorted tabs ids w Hf Hids) as E.
  exists (sorted_reverse (kept_ids ids)).
  split; [now rewrite E|].
  split.
  { intros a. rewrite <- kept_ids_spec. split; intros H.
    - eapply Permutation_in; [apply sorted_reverse_perm|exact H].
    - eapply Permutation_in; [symmetry; apply sorted_reverse_perm|exact H]. }
  split; [apply sorted_reverse_perm|].
  split; [apply sorted_reverse_sorted|].
  unfold main_anos, try_except. unfold bind at 1. rewrite E.
  destruct (sorted_reverse (kept_ids ids)) as [|a anos] eqn:Hs.
  - unfold bind, log, emit, report, extended. cbn [fst snd REPORTS TRACE].
    eexists. split; [rewrite <- !app_assoc; reflexivity|].
    split; [now exists []|]. intros _ _. reflexivity.
  - match goal with
    | |- context [processar_anos _ _ (a :: anos) ?W] =>
        destruct (processar_anos_order (a :: anos) W)
          as (t & Ht & (rest & Hrest) & Hall)
    end.
    unfold extended in Ht. cbn [TRACE] in Ht.
    destruct (processar_anos _ _ (a :: anos) _) as [[[]|e] w'] eqn:Ep;
      cbn [snd] in Ht.
    + eexists. split.
      { cbn [snd]. rewrite Ht, <- !app_assoc. reflexivity. }
      rewrite !years_begun_app. cbn.
      split; [now exists rest|].
      intros Hc Hb. exact (Hall Hc Hb).
    + unfold bind, log, emit, report. cbn [fst snd REPORTS TRACE].
      eexists. split.
      { rewrite Ht, <- !app_assoc. reflexivity. }
      rewrite !years_begun_app. cbn. rewrite app_nil_r.
      split; [now exists rest|].
      intros Hc Hb. exact (Hall Hc Hb).
Qed.

End YearFacts.

Lemma years_kept_and_processed_descending_witness :
  let d := page pagina_regular in
  let clicar := fun _ : str => (Ok true, @nil message) in
  let baixar := fun (_ : str) (_ : list link) => (Ok tt, @nil message) in
  let ids := [Some (ustr "2023"); Some (ustr "Sobre"); Some (ustr "2024")] in
  exists anos,
    fst (obter_anos_disponiveis empty_world) = Ok anos
    /\ (forall a, In a anos <->
                  In (Some a) ids /\ a <> [] /\ a <> ustr "Sobre")
    /\ Permutation anos (kept_ids ids)
    /\ StronglySorted str_ge anos
    /\ exists t,
         TRACE (snd (main_anos clicar baixar empty_world))
         = TRACE empty_world ++ t
         /\ (exists rest, anos = years_begun t ++ rest)
         /\ ((forall a, exists b, fst (clicar a) = Ok b) ->
             (forall a l, fst (baixar a l) = Ok tt) ->
             years_begun t = anos).
Proof.
  intros d clicar baixar ids.
  apply (years_kept_and_processed_descending (driver := d) clicar baixar
           [[0; 0; 0; 0]; [0; 0; 1; 0]; [0; 0; 2; 0]] ids empty_world).
  - vm_compute. reflexivity.
  - repeat constructor.
Defined.

Example anos_de_pagina_regular :
  let d := page pagina_regular in
  fst (obter_anos_disponiveis empty_world) = Ok [ustr "2024"; ustr "2023"].
Proof. vm_compute. reflexivity. Qed.

(** ** The extraction pass *)

Section ExtractionPassFacts.

Context {ucd : UnicodeData} {WebElement : Type} {driver : WebDriver WebElement}.

(** One call of the callout protocol inside the pass. *)
Lemma extend_eq (m : M world (list link)) (acc : list link) (w : world) :
  total m ->
  extend m (acc, w) = (Ok tt, (acc ++ links_of (m w), snd (m w))).
Proof.
  intros Hm. destruct (Hm w) as (l & w' & E).
  unfold extend, bind, up, get_local, set_local, links_of.
  cbn [fst snd]. rewrite E. reflexivity.
Qed.

Lemma bind_extend_eq {B} (m : M world (list link))
    (f : unit -> M (frame (list link)) B) (acc : list link) (w : world) :
  total m ->
  bind (extend m) f (acc, w) = f tt (acc ++ links_of (m w), snd (m w)).
Proof. intros Hm. unfold bind. now rewrite (extend_eq m acc w Hm). Qed.

Lemma bind_up_log {L B} (lvl : level) (msg : message)
    (f : unit -> M (frame L) B) (acc : L) (w : world) :
  bind (up (log lvl msg)) f (acc, w)
  = f tt (acc, {| REPORTS := REPORTS w; TRACE := TRACE w ++ [Log lvl msg] |}).
Proof. reflexivity. Qed.

(** The essay-theme block: a record when the anchor and its [href] are
    read, a report when the anchor is not there, and any other error
    let through. *)
Lemma tema_da_redacao_eq (container : WebElement) (ano : str)
    (acc : list link) (w : world) :
  tema_da_redacao container ano (acc, w)
  = match tema_lookup container with
    | Ok h =>
        (Ok tt,
         (acc ++ essay_records ano (Ok h),
          {| REPORTS := REPORTS w;
             TRACE := TRACE w ++ [Log INFO (MsgTemaEncontrado ano)] |}))
    | Raise NoSuchElementException =>
        (Ok tt,
         (acc,
          {| REPORTS := REPORTS w ++ [MsgTemaNaoEncontrado ano];
             TRACE := TRACE w ++ [Log INFO (MsgTemaNaoEncontrado ano)] |}))
    | Raise x => (Raise x, (acc, w))
    end.
Proof.
  unfold tema_da_redacao, tema_lookup, try_except, bind, up, of_outcome,
    get_local, set_local, raise, log, emit, report.
  cbn [fst snd].
  destruct (find_element (Some container) XPathTemaRedacao) as [e|x];
    cbn [fst snd].
  - destruct (get_attribute e Href) as [h|x]; cbn [fst snd];
      [reflexivity|]. destruct x, w; reflexivity.
  - destruct x, w; reflexivity.
Qed.

(** C4 (amended). With the scope of the year found and an essay-theme
    lookup that returns or finds nothing, the pass runs the seven
    categories in the order regular-d1, regular-d2, digital-d1,
    digital-d2, essay-theme, re-application-d1, re-application-d2, and
    the records come out in that order.  The six others go through the
    callout protocol; the essay theme alone is looked up directly in the
    scope. *)
Theorem extraction_category_order (ano : str) (container : WebElement)
    (w : world) :
  find_element None (CssTabContent ano) = Ok container ->
  unexpected (tema_lookup container) = false ->
  exists w1 w2 w3 w4 w5 w6,
    fst (extrair_links_provas_e_gabaritos ano w)
    = Ok (category_links container ano
            "1º Dia - Caderno 1 - Azul - Aplicação Regular"
            ["1 dia"; "caderno 1"; "azul"; "aplicacao regular"] "regular_d1" w1
          ++ category_links container ano
               "2º Dia - Caderno 7 - Azul - Aplicação Regular"
               ["2 dia"; "caderno 7"; "azul"; "aplicacao regular"] "regular_d2" w2
          ++ category_links container ano
               "1º Dia - Caderno Azul - Aplicação Digital"
               ["1 dia"; "caderno"; "azul"; "aplicacao digital"] "digital_d1" w3
          ++ category_links container ano
               "2º Dia - Caderno Azul - Aplicação Digital"
               ["2 dia"; "caderno"; "azul"; "aplicacao digital"] "digital_d2" w4
          ++ essay_records ano (tema_lookup container)
          ++ category_links container ano
               "1º Dia - Caderno 1 - Azul - Reaplicação/PPL"
               ["1 dia"; "caderno 1"; "azul"; "reaplicacao ppl"] "reaplicacao_d1" w5
          ++ category_links container ano
               "2º Dia - Caderno 7 - Azul - Reaplicação/PPL"
               ["2 dia"; "caderno 7"; "azul"; "reaplicacao ppl"] "reaplicacao_d2" w6).
Proof.
  intros Hcont Htema.
  destruct (tema_lookup container) as [h|x] eqn:Hl;
    [|destruct x; try discriminate Htema];
    do 6 eexists;
    unfold extrair_links_provas_e_gabaritos, with_local;
    unfold bind at 1; unfold try_except at 1;
    unfold bind at 1; unfold up at 1, of_outcome at 1;
    cbn [fst snd]; rewrite Hcont; cbv beta iota;
    rewrite bind_up_log;
    rewrite !bind_extend_eq by apply total_extrair_prova_gabarito_links;
    rewrite bind_up_log;
    rewrite !bind_extend_eq by apply total_extrair_prova_gabarito_links;
    rewrite bind_up_log;
    unfold bind at 1; rewrite tema_da_redacao_eq, Hl;
    rewrite bind_extend_eq by apply total_extrair_prova_gabarito_links;
    rewrite extend_eq by apply total_extrair_prova_gabarito_links;
    unfold get_local; cbn [fst snd essay_records];
    unfold category_links; cbn [map];
    rewrite <- ?app_assoc, ?app_nil_r; cbn [app];
    reflexivity.
Qed.

End ExtractionPassFacts.

Lemma extraction_category_order_witness :
  let d := page pagina_reaplicacao in
  exists w1 w2 w3 w4 w5 w6,
    fst (extrair_links_provas_e_gabaritos (ustr "2024") empty_world)
    = Ok (category_links [0] (ustr "2024")
            "1º Dia - Caderno 1 - Azul - Aplicação Regular"
            ["1 dia"; "caderno 1"; "azul"; "aplicacao regular"] "regular_d1" w1
          ++ category_links [0] (ustr "2024")
               "2º Dia - Caderno 7 - Azul - Aplicação Regular"
               ["2 dia"; "caderno 7"; "azul"; "aplicacao regular"] "regular_d2" w2
          ++ category_links [0] (ustr "2024")
               "1º Dia - Caderno Azul - Aplicação Digital"
               ["1 dia"; "caderno"; "azul"; "aplicacao digital"] "digital_d1" w3
          ++ category_links [0] (ustr "2024")
               "2º Dia - Caderno Azul - Aplicação Digital"
               ["2 dia"; "caderno"; "azul"; "aplicacao digital"] "digital_d2" w4
          ++ essay_records (ustr "2024") (tema_lookup [0])
          ++ category_links [0] (ustr "2024")
               "1º Dia - Caderno 1 - Azul - Reaplicação/PPL"
               ["1 dia"; "caderno 1"; "azul"; "reaplicacao ppl"] "reaplicacao_d1" w5
          ++ category_links [0] (ustr "2024")
               "2º Dia - Caderno 7 - Azul - Reaplicação/PPL"
               ["2 dia"; "caderno 7"; "azul"; "reaplicacao ppl"] "reaplicacao_d2" w6).
Proof.
  intros d.
  apply (extraction_category_order (driver := d) (ustr "2024") [0] empty_world).
  - vm_compute. reflexivity.
  - vm_compute. reflexivity.
Defined.

(** On a page with the essay theme and the first day of the
    re-application, the essay record comes before the re-application
    records: the order of the calls, not the order in which the
    specification lists the categories. *)
Lemma extraction_category_order_counterexample :
  let d := page pagina_reaplicacao in
  exists links,
    fst (extrair_links_provas_e_gabaritos (ustr "2024") empty_world) = Ok links
    /\ map tipo links
       = [ustr "reaplicacao_redacao"; ustr "reaplicacao_d1_prova_azul";
          ustr "reaplicacao_d1_gabarito_azul"]
    /\ in_catalog_order catalog_spec links = false
    /\ in_catalog_order catalog_code links = true.
Proof.
  intros d. eexists. split; [vm_compute; reflexivity|].
  split; [|split]; vm_compute; reflexivity.
Qed.

(** C6, the failing case.  On the same page, when the essay-theme search
    raises a driver error, the pass returns normally but stops there: the
    re-application records that the healthy page yields are not looked
    for, and the last report is the error of the whole pass, with no
    report for either re-application category. *)
Theorem essay_theme_error_aborts_pass :
  let healthy := page pagina_reaplicacao in
  let broken := failing_on (page pagina_reaplicacao) is_tema_query in
  let good := extrair_links_provas_e_gabaritos (driver := healthy)
                (ustr "2024") empty_world in
  let bad := extrair_links_provas_e_gabaritos (driver := broken)
               (ustr "2024") empty_world in
  map tipo (links_of good)
  = [ustr "reaplicacao_redacao"; ustr "reaplicacao_d1_prova_azul";
     ustr "reaplicacao_d1_gabarito_azul"]
  /\ fst bad = Ok []
  /\ List.length (REPORTS (snd bad)) = 5%nat
  /\ nth_error (REPORTS (snd bad)) 4
     = Some (MsgErroExtrair (ustr "2024") WebDriverException).
Proof.
  intros healthy broken good bad.
  split; [|split; [|split]]; vm_compute; reflexivity.
Qed.

Section ExtractionRobustness.

Context {ucd : UnicodeData} {WebElement : Type} {driver : WebDriver WebElement}.

(** With no callout in the scope one call reports once and returns no
    record. *)
Lemma extrair_without_callouts (container : WebElement) (desc : str)
    (kws : list str) (ano key : str) (w : world) :
  find_elements (Some container) CssCallout = Ok [] ->
  _extrair_prova_gabarito_links container desc kws ano key w
  = (Ok [],
     extended w [MsgPadraoNaoEncontrado desc kws ano NoSuchElementException]
       [Log WARNING (MsgPadraoNaoEncontrado desc kws ano NoSuchElementException)]).
Proof.
  intros H. unfold _extrair_prova_gabarito_links. run. rewrite H. reflexivity.
Qed.

(** A scope without callouts and without the essay-theme anchor gives no
    record and exactly one report per category, seven in all, in the
    order of the calls. *)
Lemma pass_without_callouts (ano : str) (container : WebElement) (w : world) :
  find_element None (CssTabContent ano) = Ok container ->
  find_elements (Some container) CssCallout = Ok [] ->
  find_elements (Some container) XPathTemaRedacao = Ok [] ->
  let r := extrair_links_provas_e_gabaritos ano w in
  fst r = Ok []
  /\ exists m1 m2 m3 m4 m5 m6,
       REPORTS (snd r)
       = REPORTS w ++ [m1; m2; m3; m4; MsgTemaNaoEncontrado ano; m5; m6].
Proof.
  intros Hcont Hcall Htema r.
  assert (Hl : tema_lookup container = Raise NoSuchElementException).
  { unfold tema_lookup, find_element. now rewrite Htema. }
  eassert (E : extrair_links_provas_e_gabaritos ano w = (Ok [], _)).
  { unfold extrair_links_provas_e_gabaritos, with_local.
    unfold bind at 1. unfold try_except at 1.
    unfold bind at 1. unfold up at 1, of_outcome at 1.
    cbn [fst snd]. rewrite Hcont. cbv beta iota.
    rewrite bind_up_log.
    rewrite !bind_extend_eq by apply total_extrair_prova_gabarito_links.
    rewrite bind_up_log.
    rewrite !bind_extend_eq by apply total_extrair_prova_gabarito_links.
    rewrite bind_up_log.
    unfold bind at 1. rewrite tema_da_redacao_eq, Hl.
    rewrite bind_extend_eq by apply total_extrair_prova_gabarito_links.
    rewrite extend_eq by apply total_extrair_prova_gabarito_links.
    unfold get_local, links_of.
    rewrite !(extrair_without_callouts container) by assumption.
    cbn [fst snd REPORTS TRACE extended app]. reflexivity. }
  subst r. rewrite E. unfold extended. cbn [fst snd REPORTS].
  split; [reflexivity|].
  do 6 eexists. rewrite <- ?app_assoc. cbn [app]. reflexivity.
Qed.

End ExtractionRobustness.

(** ** The harvest *)

Lemma lex_compare_app (g a b : list N) :
  lex_compare (g ++ a) (g ++ b) = lex_compare a b.
Proof.
  induction g as [|x g IH]; simpl; [reflexivity|].
  now rewrite N.compare_refl.
Qed.

Lemma insert_uniq_in (x y : path) (l : list path) :
  In x (insert_uniq y l) <-> x = y \/ In x l.
Proof.
  induction l as [|z l IH]; simpl; [intuition congruence|].
  destruct (lex_compare y z) eqn:E; simpl.
  - apply lex_compare_eq in E. subst. intuition congruence.
  - intuition congruence.
  - rewrite IH. intuition congruence.
Qed.

Lemma xpath_union_in (sets : list (list path)) (x : path) :
  In x (xpath_union sets) <-> In x (List.concat sets).
Proof.
  unfold xpath_union. induction (List.concat sets) as [|y l IH]; simpl;
    [tauto|].
  rewrite insert_uniq_in, IH. intuition congruence.
Qed.

Lemma insert_uniq_sorted (x : path) (l : list path) :
  Sorted doc_before l -> Sorted doc_before (insert_uniq x l).
Proof.
  induction 1 as [|y l Hs IH Hd]; simpl; [repeat constructor|].
  destruct (lex_compare x y) eqn:E.
  - now constructor.
  - constructor; [now constructor|]. constructor. exact E.
  - constructor; [assumption|].
    assert (Hyx : doc_before y x).
    { unfold doc_before. rewrite lex_compare_antisym, E. reflexivity. }
    destruct l as [|z l]; simpl; [now constructor|].
    inversion Hd; subst.
    destruct (lex_compare x z); constructor; assumption.
Qed.

Lemma xpath_union_sorted (sets : list (list path)) :
  StronglySorted doc_before (xpath_union sets).
Proof.
  apply Sorted_StronglySorted.
  - intros a b c. apply lex_compare_lt_trans.
  - unfold xpath_union. induction (List.concat sets) as [|y l IH]; simpl;
      [constructor|]. now apply insert_uniq_sorted.
Qed.

Lemma node_nested_ind (P : node -> Prop) :
  (forall data, P (TextNode data)) ->
  (forall tag cls d h r kids, Forall P kids -> P (Elem tag cls d h r kids)) ->
  forall n, P n.
Proof.
  intros Ht He. fix IH 1. intros [tag cls d h r kids|data]; [|apply Ht].
  apply He. induction kids as [|k kids IHk]; constructor; [apply IH|exact IHk].
Qed.

(** The position of a descendant extends the position of its ancestor. *)
Lemma descendants_prefix (n : node) :
  forall q d, In d (descendants q n) -> exists r, fst d = q ++ r.
Proof.
  induction n as [data|tag cls dd h rr kids IHk] using node_nested_ind;
    intros q d Hd; [contradiction|].
  change (descendants q (Elem tag cls dd h rr kids))
    with (descendants_of_children q 0 kids) in Hd.
  revert Hd. generalize 0 as i.
  induction IHk as [|k kids Hk _ IH]; intros i Hd; [contradiction|].
  cbn [descendants_of_children] in Hd.
  fold (descendants_of_children q) in Hd.
  destruct Hd as [<-|Hd]; [now exists [i]|].
  apply in_app_or in Hd. destruct Hd as [Hd|Hd].
  - destruct (Hk _ _ Hd) as [r Hr]. exists (i :: r).
    rewrite Hr, <- app_assoc. reflexivity.
  - exact (IH _ Hd).
Qed.

Lemma siblings_after_path (parent : path) (i j : N) (kids : list node)
    (s : path * node) :
  In s (siblings_after parent i j kids) ->
  exists k, fst s = parent ++ [k] /\ i < k.
Proof.
  revert j. induction kids as [|c kids IH]; intros j Hs; [contradiction|].
  cbn [siblings_after] in Hs. apply in_app_or in Hs. destruct Hs as [Hs|Hs].
  - destruct (N.ltb_spec i j); [|contradiction].
    destruct Hs as [<-|[]]. now exists j.
  - exact (IH _ Hs).
Qed.

(** An anchor found by a probe from [p] lies below a later sibling. *)
Lemma probe_path (doc : node) (t : string) (p x : path) :
  In x (probe doc t p) ->
  exists parent i k r, p = parent ++ [i] /\ x = parent ++ k :: r /\ i < k.
Proof.
  unfold probe, following_siblings. intros Hx.
  apply in_flat_map in Hx. destruct Hx as (s & Hs & Hx).
  apply filter_In in Hs. destruct Hs as [Hs _].
  apply in_map_iff in Hx. destruct Hx as (d & <- & Hd).
  apply filter_In in Hd. destruct Hd as [Hd _].
  destruct (rev p) as [|i rparent] eqn:Hp; [contradiction|].
  destruct (node_at doc (rev rparent)) as [pn|]; [|contradiction].
  destruct (siblings_after_path _ _ _ _ _ Hs) as (k & Hk & Hik).
  destruct (descendants_prefix _ _ _ Hd) as (r & Hr).
  exists (rev rparent), i, k, r. split; [|split; [|assumption]].
  - rewrite <- (rev_involutive p), Hp. reflexivity.
  - rewrite Hr, Hk, <- app_assoc. reflexivity.
Qed.

(** Anchors below the siblings of the callout come before anchors below
    the siblings of its parent. *)
Lemma probe_before_probe_parent (doc : node) (t u : string) (p x y : path) :
  In x (probe doc t p) -> In y (probe_parent doc u p) -> doc_before x y.
Proof.
  intros Hx Hy. unfold probe_parent, parent_path in Hy.
  destruct (probe_path _ _ _ _ Hx) as (parent & i & k & r & Hp & -> & Hik).
  subst p. rewrite rev_app_distr in Hy. cbn [rev app] in Hy.
  rewrite rev_involutive in Hy.
  destruct (probe_path _ _ _ _ Hy) as (gp & pi & k' & r' & -> & -> & Hpk).
  unfold doc_before. rewrite <- app_assoc, lex_compare_app. simpl.
  now apply N.compare_lt_iff in Hpk as ->.
Qed.

(** C3 (amended). From a callout of the page the harvest evaluates the
    four probes and returns their union: every anchor some probe selects,
    each once, in document order.  Anchors below the siblings of the
    callout therefore precede anchors below the siblings of its parent,
    while list and block containers are not set apart; with no anchor in
    any probe the result is the empty sequence, not an error. *)
Theorem harvest_document_order (doc : node) (p : path) (n : node) :
  node_at doc p = Some n ->
  exists r,
    find_elements (WebDriver := page doc) (Some p) XPathFollowingLinks = Ok r
    /\ (forall x, In x r <->
                  In x (probe doc "ul" p) \/ In x (probe doc "div" p)
                  \/ In x (probe_parent doc "ul" p)
                  \/ In x (probe_parent doc "div" p))
    /\ StronglySorted doc_before r
    /\ (forall x y,
          In x (probe doc "ul" p) \/ In x (probe doc "div" p) ->
          In y (probe_parent doc "ul" p) \/ In y (probe_parent doc "div" p) ->
          doc_before x y)
    /\ (harvest_links_spec doc p = [] -> r = []).
Proof.
  intros Hn. exists (xpath_union (probes doc p)).
  split.
  { cbn [find_elements page]. unfold page_find_elements, scope.
    now rewrite Hn. }
  split.
  { intros x. rewrite xpath_union_in. unfold probes. cbn [List.concat].
    rewrite !in_app_iff. simpl. tauto. }
  split; [apply xpath_union_sorted|].
  split.
  { intros x y [Hx|Hx] [Hy|Hy]; eapply probe_before_probe_parent; eauto. }
  unfold harvest_links_spec, xpath_union. now intros ->.
Qed.

Lemma harvest_document_order_witness :
  exists r,
    find_elements (WebDriver := page pagina_bloco_antes) (Some [0; 0])
      XPathFollowingLinks = Ok r
    /\ (forall x, In x r <->
                  In x (probe pagina_bloco_antes "ul" [0; 0])
                  \/ In x (probe pagina_bloco_antes "div" [0; 0])
                  \/ In x (probe_parent pagina_bloco_antes "ul" [0; 0])
                  \/ In x (probe_parent pagina_bloco_antes "div" [0; 0]))
    /\ StronglySorted doc_before r
    /\ (forall x y,
          In x (probe pagina_bloco_antes "ul" [0; 0])
          \/ In x (probe pagina_bloco_antes "div" [0; 0]) ->
          In y (probe_parent pagina_bloco_antes "ul" [0; 0])
          \/ In y (probe_parent pagina_bloco_antes "div" [0; 0]) ->
          doc_before x y)
    /\ (harvest_links_spec pagina_bloco_antes [0; 0] = [] -> r = []).
Proof.
  apply (harvest_document_order pagina_bloco_antes [0; 0]
           (callout "1º Dia – Caderno 1 – Azul – Aplicação Regular")).
  reflexivity.
Defined.

(** When a block with an anchor stands before the list, the driver
    returns the anchor of the block first, where the concatenation of the
    probes puts it last; the answer key that the classifier then keeps is
    the one of the block. *)
Lemma harvest_order_counterexample :
  let d := page pagina_bloco_antes in
  find_elements (Some [0; 0]) XPathFollowingLinks
  = Ok [[0; 1; 0]; [0; 2; 0; 0]; [0; 2; 1; 0]]
  /\ harvest_links_spec pagina_bloco_antes [0; 0]
     = [[0; 2; 0; 0]; [0; 2; 1; 0]; [0; 1; 0]]
  /\ find_elements (Some [0; 0]) XPathFollowingLinks
     <> Ok (harvest_links_spec pagina_bloco_antes [0; 0])
  /\ map url (links_of (_extrair_prova_gabarito_links [0]
                          (ustr "1º Dia - Caderno 1 - Azul - Aplicação Regular")
                          [ustr "1 dia"; ustr "caderno 1"; ustr "azul";
                           ustr "aplicacao regular"]
                          (ustr "2024") (ustr "regular_d1") empty_world))
     = [Some (ustr "p1.pdf"); Some (ustr "x.pdf")].
Proof.
  intros d. split; [vm_compute; reflexivity|].
  split; [vm_compute; reflexivity|].
  split; [vm_compute; discriminate|].
  vm_compute. reflexivity.
Qed.

(* ================================================================== *)
(** * Part III. Further properties of the code                          *)
(* ================================================================== *)

(** ** The downloader, for every behaviour of the network *)

Section DownloaderGeneral.

Variable falha : Z -> option exn.
Variables url dest : str.
Variables max_retries delay : Z.

(** [time.sleep] accepts the delay. *)
Hypothesis delay_nonneg : (0 <= delay)%Z.

Lemma tentativa_cases (a : Z) (w : world) :
  exists c rs t,
    tentativa falha url dest max_retries delay a w = (Ok c, extended w rs t)
    /\ attempts_in t = 1%nat
    /\ (In (Saved dest) t <-> c = Return true)
    /\ match falha a with
       | None => c = Return true /\ rs = [] /\ sleeps_in t = []
       | Some e =>
           if transient e
           then c = Continue
                /\ (if (a <? max_retries - 1)%Z
                    then rs = [] /\ sleeps_in t = [delay]
                    else List.length rs = 1%nat /\ sleeps_in t = [])
           else c = Break /\ List.length rs = 1%nat /\ sleeps_in t = []
       end.
Proof.
  destruct (falha a) as [e|] eqn:Hf.
  - destruct (transient e) eqn:He.
    + destruct (Z.ltb_spec a (max_retries - 1)).
      * rewrite (tentativa_transient_retry falha url dest max_retries delay a e)
          by assumption.
        eexists _, _, _. split; [reflexivity|].
        split; [reflexivity|]. split; [|auto].
        split; [|discriminate]. cbn. intuition discriminate.
      * rewrite (tentativa_transient_last falha url dest max_retries delay a e)
          by assumption.
        eexists _, _, _. split; [reflexivity|].
        split; [reflexivity|]. split; [|auto].
        split; [|discriminate]. cbn. intuition discriminate.
    + destruct (tentativa_permanent falha url dest max_retries delay a e w Hf He)
        as (m & lm & E).
      rewrite E. eexists _, _, _. split; [reflexivity|].
      split; [reflexivity|]. split; [|auto].
      split; [|discriminate]. cbn. intuition discriminate.
  - rewrite (tentativa_success falha url dest max_retries delay a w Hf).
    eexists _, _, _. split; [reflexivity|].
    split; [reflexivity|]. split; [|auto].
    split; [reflexivity|]. cbn. auto.
Qed.

(** The attempts [k], ..., [k+m-1], the last one allowed being
    [k+m-1]. *)
Lemma tentativas_general (m k : nat) (w : world) :
  max_retries = Z.of_nat (k + m) ->
  exists b rs t,
    tentativas falha url dest max_retries delay (map Z.of_nat (seq k m)) w
    = (Ok b, extended w rs t)
    /\ (b = true <->
        exists j, (k <= j < k + m)%nat /\ falha (Z.of_nat j) = None
                  /\ forall i, (k <= i < j)%nat -> retried falha (Z.of_nat i))
    /\ List.length rs = (if b then 0 else if Nat.eqb m 0 then 0 else 1)%nat
    /\ (attempts_in t <= m)%nat
    /\ (m <> 0%nat -> attempts_in t <> 0%nat)
    /\ sleeps_in t = repeat delay (attempts_in t - 1)
    /\ (In (Saved dest) t <-> b = true).
Proof.
  revert k w. induction m as [|m IH]; intros k w Hmax.
  - exists false, [], []. cbn [seq map tentativas]. unfold ret, extended.
    rewrite !app_nil_r. destruct w. split; [reflexivity|].
    split.
    { split; [discriminate|]. intros (j & Hj & _). lia. }
    split; [reflexivity|]. split; [cbn; lia|]. split; [congruence|].
    split; [reflexivity|]. split; [contradiction|discriminate].
  - cbn [seq map]. rewrite tentativas_cons.
    destruct (tentativa_cases (Z.of_nat k) w)
      as (c & rs & t & E & Ha & Hsv & Hc).
    rewrite E.
    destruct (falha (Z.of_nat k)) as [e|] eqn:Hf.
    + destruct (transient e) eqn:He.
      * (* retried *)
        destruct Hc as [-> Hc].
        destruct (IH (S k) (extended w rs t)) as
          (b & rs' & t' & E' & Hb & Hr & Hle & Hne & Hs & Hsv'); [lia|].
        rewrite E', extended_extended.
        exists b, (rs ++ rs'), (t ++ t'). split; [reflexivity|].
        split.
        { rewrite Hb. split; intros (j & Hj & Hn & Hall).
          - exists j. split; [lia|]. split; [assumption|].
            intros i Hi. destruct (Nat.eq_dec i k) as [->|Hik].
            + now exists e.
            + apply Hall. lia.
          - exists j. assert (j <> k) by (intros ->; congruence).
            split; [lia|]. split; [assumption|].
            intros i Hi. apply Hall. lia. }
        assert (Hsaved : In (Saved dest) (t ++ t') <-> b = true).
        { rewrite in_app_iff, Hsv, Hsv'. intuition discriminate. }
        rewrite length_app, attempts_in_app, sleeps_in_app, Hr, Ha, Hs.
        destruct (Z.ltb_spec (Z.of_nat k) (max_retries - 1)) as [Hlt|Hge].
        -- destruct Hc as [-> ->]. destruct m as [|m]; [lia|].
           specialize (Hne ltac:(discriminate)).
           split; [reflexivity|]. split; [lia|]. split; [lia|].
           split; [|assumption].
           destruct (attempts_in t') as [|n]; [contradiction|].
           cbn. now rewrite Nat.sub_0_r.
        -- destruct Hc as [Hlen ->]. destruct m as [|m]; [|lia].
           cbn [seq map tentativas] in E'. unfold ret in E'.
           injection E' as <- Hw.
           assert (attempts_in t' = 0%nat) as -> by lia.
           rewrite Hlen. cbn.
           split; [reflexivity|]. split; [lia|]. split; [lia|].
           split; [reflexivity|assumption].
      * (* a failure that is not retried *)
        destruct Hc as (-> & Hlen & Hs).
        exists false, rs, t. split; [reflexivity|].
        split.
        { split; [discriminate|]. intros (j & Hj & Hn & Hall).
          destruct (Nat.eq_dec j k) as [->|Hjk]; [congruence|].
          destruct (Hall k) as (e' & He' & Ht'); [lia|]. congruence. }
        rewrite Ha, Hs, Hlen.
        split; [reflexivity|]. split; [lia|]. split; [lia|].
        split; [reflexivity|].
        rewrite Hsv. intuition discriminate.
    + (* the response arrives *)
      destruct Hc as (-> & -> & Hs).
      exists true, [], t. split; [reflexivity|].
      split.
      { split; [|reflexivity]. intros _. exists k. split; [lia|].
        split; [assumption|]. intros i Hi. lia. }
      rewrite Ha, Hs.
      split; [reflexivity|]. split; [lia|]. split; [lia|].
      split; [reflexivity|]. rewrite Hsv. tauto.
Qed.

End DownloaderGeneral.

Section DownloaderTheorems.

Variable falha : Z -> option exn.
Variables url dest : str.
Variables max_retries delay : Z.

Lemma baixar_arquivo_general (w : world) :
  (0 <= delay)%Z ->
  exists b rs t,
    baixar_arquivo falha url dest max_retries delay w
    = (Ok b, extended w rs t)
    /\ (b = true <->
        exists j, (0 <= j < max_retries)%Z /\ falha j = None
                  /\ forall i, (0 <= i < j)%Z -> retried falha i)
    /\ List.length rs
       = (if b then 0 else if (max_retries <=? 0)%Z then 0 else 1)%nat
    /\ (attempts_in t <= Z.to_nat max_retries)%nat
    /\ sleeps_in t = repeat delay (attempts_in t - 1)
    /\ (In (Saved dest) t <-> b = true).
Proof.
  intros Hd. unfold baixar_arquivo, range.
  destruct (Z.leb_spec max_retries 0) as [Hneg|Hpos].
  - replace (Z.to_nat max_retries) with 0%nat by lia.
    exists false, [], []. cbn [seq map tentativas]. unfold ret, extended.
    rewrite !app_nil_r. destruct w. split; [reflexivity|].
    split.
    { split; [discriminate|]. intros (j & Hj & _). lia. }
    split; [reflexivity|]. split; [cbn; lia|]. split; [reflexivity|].
    split; [contradiction|discriminate].
  - destruct (tentativas_general falha url dest max_retries delay Hd
                (Z.to_nat max_retries) 0 w)
      as (b & rs & t & E & Hb & Hr & Hle & _ & Hs & Hsv); [lia|].
    exists b, rs, t. split; [exact E|].
    split.
    { rewrite Hb. split.
      - intros (j & Hj & Hn & Hall). exists (Z.of_nat j).
        split; [lia|]. split; [assumption|].
        intros i Hi. replace i with (Z.of_nat (Z.to_nat i)) by lia.
        apply Hall. lia.
      - intros (j & Hj & Hn & Hall). exists (Z.to_nat j).
        split; [lia|]. rewrite Z2Nat.id by lia. split; [assumption|].
        intros i Hi. apply Hall. lia. }
    split.
    { rewrite Hr. destruct b; [reflexivity|].
      destruct (Z.to_nat max_retries) eqn:Hm; [lia|reflexivity]. }
    auto.
Qed.




(** X4. With a negative delay the download raises: when the first
    attempt ends in a connection error or a timeout and another attempt is
    allowed, the pause refuses the delay from inside the handler, and the
    call ends after that one request with nothing written and nothing
    reported. *)
Theorem negative_delay_raises (w : world) (e : exn) :
  (delay < 0)%Z -> (1 < max_retries)%Z ->
  falha 0 = Some e -> transient e = true ->
  exists t,
    baixar_arquivo falha url dest max_retries delay w
    = (Raise OtherException, extended w [] t)
    /\ attempts_in t = 1%nat /\ sleeps_in t = []
    /\ ~ In (Saved dest) t.
Proof.
  intros Hd Hmax Hf He. unfold baixar_arquivo, range.
  destruct (Z.to_nat max_retries) as [|m] eqn:Hm; [lia|].
  cbn [seq map]. rewrite tentativas_cons.
  change (Z.of_nat 0) with 0%Z.
  rewrite (tentativa_transient_negative falha url dest max_retries delay 0 e)
    by (auto; lia).
  eexists. split; [reflexivity|]. split; [reflexivity|].
  split; [reflexivity|]. cbn. intuition discriminate.
Qed.

End DownloaderTheorems.




Lemma negative_delay_raises_witness :
  let dest := ustr "data/2024/ENEM_2024_regular_d1_prova_azul.pdf" in
  exists t,
    baixar_arquivo (fun _ => Some Timeout)
      (ustr "https://download.inep.gov.br/p1.pdf") dest 3 (-1) empty_world
    = (Raise OtherException, extended empty_world [] t)
    /\ attempts_in t = 1%nat /\ sleeps_in t = []
    /\ ~ In (Saved dest) t.
Proof.
  intros dest.
  apply (negative_delay_raises (fun _ => Some Timeout) _ dest 3 (-1)
           empty_world Timeout); [lia|lia|reflexivity|reflexivity].
Defined.

(** ** Invariants of monadic code *)

Section PreservesFacts.

Context {S : Type} (I : S -> Prop).

Lemma preserves_unchanged {A} (m : M S A) :
  (forall s, snd (m s) = s) -> preserves I m.
Proof. intros H s Hs. now rewrite H. Qed.

Lemma preserves_bind {A B} (m : M S A) (k : A -> M S B) :
  preserves I m -> (forall a, preserves I (k a)) -> preserves I (bind m k).
Proof.
  intros Hm Hk s Hs. unfold bind. specialize (Hm s Hs).
  destruct (m s) as [[a|e] s']; simpl in *; [now apply Hk|assumption].
Qed.

Lemma preserves_try_except {A} (m : M S A) (h : exn -> M S A) :
  preserves I m -> (forall e, preserves I (h e)) ->
  preserves I (try_except m h).
Proof.
  intros Hm Hh s Hs. unfold try_except. specialize (Hm s Hs).
  destruct (m s) as [[a|e] s']; simpl in *; [assumption|now apply Hh].
Qed.

End PreservesFacts.

Lemma grown_refl (w : world) : grown w w.
Proof.
  exists [], []. unfold extended. rewrite !app_nil_r. now destruct w.
Qed.

Lemma grown_trans (w0 w1 w2 : world) : grown w0 w1 -> grown w1 w2 -> grown w0 w2.
Proof.
  intros (rs & t & ->) (rs' & t' & ->). rewrite extended_extended.
  now exists (rs ++ rs'), (t ++ t').
Qed.

Lemma preserves_grown {A} (m : M world A) :
  (forall w, grown w (snd (m w))) -> forall w0, preserves (grown w0) m.
Proof. intros H w0 w Hw. eapply grown_trans; [exact Hw|apply H]. Qed.

Lemma grown_report (w0 : world) (m : message) : preserves (grown w0) (report m).
Proof.
  apply preserves_grown. intros w. exists [m], []. unfold extended. cbn.
  now rewrite app_nil_r.
Qed.

Lemma grown_emit (w0 : world) (e : event) : preserves (grown w0) (emit e).
Proof.
  apply preserves_grown. intros w. exists [], [e]. unfold extended. cbn.
  now rewrite app_nil_r.
Qed.

Section ExtractorCases.

Context {ucd : UnicodeData} {WebElement : Type} {driver : WebDriver WebElement}.

Lemma extended_from (w w' : world) (rs : list message) (t : list event) :
  REPORTS w' = REPORTS w ++ rs -> TRACE w' = TRACE w ++ t ->
  w' = extended w rs t.
Proof. destruct w'. unfold extended. simpl. now intros -> ->. Qed.

Lemma classificar_links_world (els : list WebElement) (p g : option str)
    (w : world) :
  snd (classificar_links els p g w) = w.
Proof.
  revert p g. induction els as [|e els IH]; intros p g; [reflexivity|].
  cbn [classificar_links]. unfold bind, of_outcome, ret.
  destruct (text e) as [t|x]; [|reflexivity]. cbn [fst snd].
  destruct (contains (ustr "prova") _ && negb (truthy p)).
  - destruct (get_attribute e Href) as [h|x]; [|reflexivity].
    destruct (truthy h && truthy g); [reflexivity|apply IH].
  - destruct (contains (ustr "gabarito") _ && negb (truthy g)).
    + destruct (get_attribute e Href) as [h|x]; [|reflexivity].
      destruct (truthy p && truthy h); [reflexivity|apply IH].
    + destruct (truthy p && truthy g); [reflexivity|apply IH].
Qed.

(** Every way one call of the callout protocol can end. *)
Lemma extrair_prova_gabarito_links_cases (container : WebElement)
    (desc : str) (kws : list str) (ano base : str) (w : world) :
  exists exam key rs t,
    _extrair_prova_gabarito_links container desc kws ano base w
    = (Ok (record_for ano base "_prova_azul" exam
           ++ record_for ano base "_gabarito_azul" key),
       extended w rs t)
    /\ held exam = exam /\ held key = key
    /\ (rs = missing desc ano exam key
        \/ exam = None /\ key = None /\ List.length rs = 1%nat).
Proof.
  assert (Hnone : forall m t,
    exists exam key rs t',
      (Ok (@nil link), extended w [m] t)
      = (Ok (record_for ano base "_prova_azul" exam
             ++ record_for ano base "_gabarito_azul" key),
         extended w rs t')
      /\ held exam = exam /\ held key = key
      /\ (rs = missing desc ano exam key
          \/ exam = None /\ key = None /\ List.length rs = 1%nat)).
  { intros m t. exists None, None, [m], t.
    split; [reflexivity|]. split; [reflexivity|]. split; [reflexivity|].
    right. split; [reflexivity|]. split; reflexivity. }
  unfold _extrair_prova_gabarito_links, with_local, try_except,
    bind, up, of_outcome, ret, raise, get_local, set_local, log, emit, report.
  cbn [fst snd].
  destruct (find_elements (Some container) CssCallout) as [callouts|x].
  2:{ destruct x; cbn [fst snd REPORTS TRACE]; apply Hnone. }
  pose proof (localizar_callout_world kws callouts w) as Hw1.
  destruct (localizar_callout kws callouts w) as [[[c|]|x] w1];
    cbn [snd] in Hw1; subst w1; cbn [fst snd REPORTS TRACE].
  2:{ apply Hnone. }
  2:{ destruct x; cbn [fst snd REPORTS TRACE]; apply Hnone. }
  destruct (find_elements (Some c) XPathFollowingLinks) as [els|x].
  2:{ destruct x; cbn [fst snd REPORTS TRACE];
        unfold extended in Hnone; cbn [REPORTS TRACE] in Hnone;
        rewrite <- ?app_assoc; apply Hnone. }
  match goal with
  | |- context [classificar_links els None None ?W] =>
      pose proof (classificar_links_world els None None W) as Hw2;
      destruct (classificar_links els None None W) as [[[p g]|x] w2]
  end; cbn [snd] in Hw2; subst w2; cbn [fst snd REPORTS TRACE].
  2:{ destruct x; cbn [fst snd REPORTS TRACE];
        unfold extended in Hnone; cbn [REPORTS TRACE] in Hnone;
        rewrite <- ?app_assoc; apply Hnone. }
  clear Hnone.
  exists (held p), (held g). unfold held, missing.
  destruct (truthy p) eqn:Tp, (truthy g) eqn:Tg;
    try (destruct p as [[|? ?]|]; try discriminate Tp);
    try (destruct g as [[|? ?]|]; try discriminate Tg);
    cbn [fst snd REPORTS TRACE record_for app truthy];
    (eexists; eexists; split; [|split; [reflexivity|split;
       [reflexivity|left; reflexivity]]]);
    (f_equal; apply extended_from;
       [cbn [REPORTS app]; rewrite <- ?app_assoc, ?app_nil_r; reflexivity
       |cbn [TRACE]; rewrite <- ?app_assoc; cbn [app]; reflexivity]).
Qed.

(** X5. One call of the callout protocol never raises and only adds to
    the reports; a kind for which it returns no record leaves a report:
    records and new reports are two together, or, when the category is not
    found or the search fails, there is no record and exactly one report. *)
Theorem category_call_accounts (container : WebElement) (desc : str)
    (kws : list str) (ano base : str) (w : world) :
  exists links rs t,
    _extrair_prova_gabarito_links container desc kws ano base w
    = (Ok links, extended w rs t)
    /\ ((List.length links + List.length rs = 2)%nat
        \/ links = [] /\ List.length rs = 1%nat).
Proof.
  destruct (extrair_prova_gabarito_links_cases container desc kws ano base w)
    as (exam & key & rs & t & E & _ & _ & Hrs).
  eexists _, rs, t. split; [exact E|].
  destruct Hrs as [-> | (-> & -> & Hl)].
  - left. destruct exam, key; reflexivity.
  - right. split; [reflexivity|exact Hl].
Qed.

Lemma record_for_shape (ano base : str) (exam key : option str) :
  held exam = exam -> held key = key ->
  let links := record_for ano base "_prova_azul" exam
               ++ record_for ano base "_gabarito_azul" key in
  Forall (category_record ano base) links
  /\ NoDup (map tipo links)
  /\ (List.length links <= 2)%nat.
Proof.
  intros He Hk.
  assert (Te : forall u, exam = Some u -> truthy (Some u) = true).
  { intros u ->. unfold held in He. now destruct (truthy (Some u)). }
  assert (Tk : forall u, key = Some u -> truthy (Some u) = true).
  { intros u ->. unfold held in Hk. now destruct (truthy (Some u)). }
  assert (Hne : base ++ ustr "_prova_azul" <> base ++ ustr "_gabarito_azul").
  { intros H. apply app_inv_head in H. discriminate H. }
  destruct exam as [u|], key as [v|]; cbn [record_for app map List.length].
  - split; [|split; [|lia]].
    + constructor; [|constructor; [|constructor]];
        (split; [reflexivity|split; [cbn [url]; auto|cbn [tipo]; auto]]).
    + constructor; [|constructor; [intros []|constructor]].
      intros [H|[]]. apply Hne. now symmetry.
  - split; [|split; [|lia]].
    + constructor; [|constructor].
      split; [reflexivity|split; [cbn [url]; auto|cbn [tipo]; auto]].
    + constructor; [intros []|constructor].
  - split; [|split; [|lia]].
    + constructor; [|constructor].
      split; [reflexivity|split; [cbn [url]; auto|cbn [tipo]; auto]].
    + constructor; [intros []|constructor].
  - split; [constructor|split; [constructor|lia]].
Qed.

(** X6. The records of one call are at most two, of different types; each
    carries the year it was called for, a URL that counts as true, and the
    type of the exam or of the answer key of its category. *)
Theorem category_records_well_formed (container : WebElement) (desc : str)
    (kws : list str) (ano base : str) (w : world) :
  let links :=
    links_of (_extrair_prova_gabarito_links container desc kws ano base w) in
  Forall (category_record ano base) links
  /\ NoDup (map tipo links)
  /\ (List.length links <= 2)%nat.
Proof.
  destruct (extrair_prova_gabarito_links_cases container desc kws ano base w)
    as (exam & key & rs & t & E & He & Hk & _).
  unfold links_of. rewrite E. cbn [fst].
  now apply record_for_shape.
Qed.

End ExtractorCases.

(** ** Triples *)

Section HoareFacts.

Context {S : Type}.

Lemma hoare_ret {A} (P : S -> Prop) (a : A) (Q : A -> S -> Prop)
    (E : exn -> S -> Prop) :
  (forall s, P s -> Q a s) -> hoare P (ret a) Q E.
Proof. intros H s Hs. now apply H. Qed.

Lemma hoare_raise {A} (P : S -> Prop) (e : exn) (Q : A -> S -> Prop)
    (E : exn -> S -> Prop) :
  (forall s, P s -> E e s) -> hoare P (raise e) Q E.
Proof. intros H s Hs. now apply H. Qed.

Lemma hoare_bind {A B} (P : S -> Prop) (m : M S A) (k : A -> M S B)
    (R : A -> S -> Prop) (Q : B -> S -> Prop) (E : exn -> S -> Prop) :
  hoare P m R E -> (forall a, hoare (R a) (k a) Q E) ->
  hoare P (bind m k) Q E.
Proof.
  intros Hm Hk s Hs. unfold bind. specialize (Hm s Hs).
  destruct (m s) as [[a|e] s']; [now apply Hk|assumption].
Qed.

Lemma hoare_try_except {A} (P : S -> Prop) (m : M S A) (h : exn -> M S A)
    (Q : A -> S -> Prop) (E' E : exn -> S -> Prop) :
  hoare P m Q E' -> (forall e, hoare (E' e) (h e) Q E) ->
  hoare P (try_except m h) Q E.
Proof.
  intros Hm Hh s Hs. unfold try_except. specialize (Hm s Hs).
  destruct (m s) as [[a|e] s']; [assumption|now apply Hh].
Qed.

Lemma hoare_conseq {A} (P P' : S -> Prop) (m : M S A)
    (Q Q' : A -> S -> Prop) (E E' : exn -> S -> Prop) :
  hoare P m Q E ->
  (forall s, P' s -> P s) -> (forall a s, Q a s -> Q' a s) ->
  (forall e s, E e s -> E' e s) ->
  hoare P' m Q' E'.
Proof.
  intros Hm HP HQ HE s Hs. specialize (Hm s (HP s Hs)).
  destruct (m s) as [[a|e] s']; auto.
Qed.

End HoareFacts.

Lemma hoare_with_local {L A} (init : L) (m : M (frame L) A)
    (P : world -> Prop) (Q : A -> world -> Prop) (E : exn -> world -> Prop) :
  hoare (fun s => fst s = init /\ P (snd s)) m
        (fun a s => Q a (snd s)) (fun e s => E e (snd s)) ->
  hoare P (with_local init m) Q E.
Proof.
  intros H w Hw. unfold with_local. specialize (H (init, w) (conj eq_refl Hw)).
  now destruct (m (init, w)) as [[a|e] s'].
Qed.

(** ** One call of the callout protocol, in every case *)

Section PassInvariant.

Context {ucd : UnicodeData} {WebElement : Type} {driver : WebDriver WebElement}.

Lemma pass_inv_weaken (r0 : list message) (ano : str) (n n' k k' : nat)
    (s : frame (list link)) :
  (n <= n')%nat -> (k' <= k)%nat -> pass_inv r0 ano n k s ->
  pass_inv r0 ano n' k' s.
Proof.
  intros Hn Hk (Hg & Hl & rs & Hr & Hc).
  split; [assumption|]. split; [lia|]. exists rs. split; [assumption|lia].
Qed.

Lemma pass_inv_log (r0 : list message) (ano : str) (n k : nat) (lvl : level)
    (m : message) (E : exn -> frame (list link) -> Prop) :
  hoare (pass_inv r0 ano n k) (up (log lvl m))
        (fun _ => pass_inv r0 ano n k) E.
Proof. intros [l w] H. exact H. Qed.

Lemma pass_inv_report (r0 : list message) (ano : str) (n k : nat)
    (m : message) (E : exn -> frame (list link) -> Prop) :
  hoare (pass_inv r0 ano n k) (up (report m))
        (fun _ => pass_inv r0 ano n (Datatypes.S k)) E.
Proof.
  intros [l w] (Hg & Hl & rs & Hr & Hc). cbn in *.
  split; [assumption|]. split; [assumption|]. exists (rs ++ [m]).
  rewrite Hr, <- app_assoc, length_app. cbn. split; [reflexivity|lia].
Qed.

Lemma pass_inv_extend (r0 : list message) (ano : str) (n k : nat)
    (c : WebElement) (desc : str) (kws : list str) (base : str)
    (E : exn -> frame (list link) -> Prop) :
  In base [ ustr "regular_d1"; ustr "regular_d2";
            ustr "digital_d1"; ustr "digital_d2";
            ustr "reaplicacao_d1"; ustr "reaplicacao_d2" ] ->
  hoare (pass_inv r0 ano n k)
        (extend (_extrair_prova_gabarito_links c desc kws ano base))
        (fun _ => pass_inv r0 ano (n + 2) (Datatypes.S k)) E.
Proof.
  intros Hb [l w] (Hg & Hl & rs & Hr & Hc). cbn [fst snd] in *.
  unfold extend, bind, up, get_local, set_local. cbn [fst snd].
  destruct (extrair_prova_gabarito_links_cases c desc kws ano base w)
    as (exam & key & rs' & t & Eq & He & Hk & Hrs).
  pose proof (record_for_shape ano base exam key He Hk) as Hwf.
  cbn zeta in Hwf. rewrite Eq. cbn [fst snd].
  destruct Hwf as (Hcat & _ & Hlen).
  split; [|split]; cbn [fst snd].
  - apply Forall_app. split; [assumption|].
    eapply Forall_impl; [|exact Hcat]. intros r (Ha & Hu & Ht).
    split; [assumption|]. right. split; [assumption|]. now exists base.
  - rewrite length_app. lia.
  - exists (rs ++ rs'). unfold extended. cbn [REPORTS].
    rewrite Hr, <- app_assoc. split; [reflexivity|].
    rewrite !length_app.
    destruct Hrs as [-> | (-> & -> & Hl1)].
    + destruct exam, key; cbn; lia.
    + cbn. lia.
Qed.

Lemma pass_inv_tema (r0 : list message) (ano : str) (n k : nat)
    (c : WebElement) :
  hoare (pass_inv r0 ano n k) (tema_da_redacao c ano)
        (fun _ => pass_inv r0 ano (Datatypes.S n) (Datatypes.S k))
        (fun _ => pass_inv r0 ano n k).
Proof.
  intros [l w] (Hg & Hl & rs & Hr & Hc). cbn [fst snd] in *.
  unfold tema_da_redacao, try_except, bind, up, of_outcome, get_local,
    set_local, log, emit, report, ret, raise. cbn [fst snd].
  assert (Hsame : pass_inv r0 ano n k (l, w)).
  { split; [assumption|]. split; [assumption|]. now exists rs. }
  assert (Hmiss : forall m t,
    pass_inv r0 ano (Datatypes.S n) (Datatypes.S k)
      (l, {| REPORTS := REPORTS w ++ [m]; TRACE := t |})).
  { intros m t. split; [assumption|]. split; [cbn; lia|].
    exists (rs ++ [m]). cbn [fst snd REPORTS].
    rewrite Hr, <- app_assoc, length_app. cbn. split; [reflexivity|lia]. }
  destruct (find_element (Some c) XPathTemaRedacao) as [e|x]; cbn [fst snd].
  - destruct (get_attribute e Href) as [h|x]; cbn [fst snd].
    + split; [|split].
      * apply Forall_app. split; [assumption|]. constructor; [|constructor].
        split; [reflexivity|]. left. reflexivity.
      * cbn [fst]. rewrite length_app. cbn. lia.
      * exists rs. cbn [fst snd REPORTS]. split; [assumption|].
        rewrite length_app. cbn. lia.
    + destruct x; cbn [fst snd REPORTS TRACE]; first [apply Hmiss|exact Hsame].
  - destruct x; cbn [fst snd REPORTS TRACE]; first [apply Hmiss|exact Hsame].
Qed.

(** The whole pass: it returns, and what it returns and reports satisfies
    the invariant. *)
Lemma pass_hoare (r0 : list message) (ano : str) :
  hoare (fun w => REPORTS w = r0) (extrair_links_provas_e_gabaritos ano)
        (fun links w => pass_inv r0 ano 13 1 (links, w))
        (fun _ _ => False).
Proof.
  unfold extrair_links_provas_e_gabaritos.
  apply hoare_with_local.
  eapply hoare_bind with (R := fun _ => pass_inv r0 ano 13 1).
  2:{ intros _ [l w] H. exact H. }
  eapply hoare_try_except with (E' := fun _ => pass_inv r0 ano 13 0).
  2:{ intros e.
      destruct e;
        (eapply hoare_bind; [apply pass_inv_log|intros ?; cbn beta; apply pass_inv_report]). }
  eapply hoare_bind with (R := fun _ => pass_inv r0 ano 0 0).
  { intros [l w] [Hl Hr]. cbn [fst snd] in *. subst l.
    assert (H0 : forall k, (k <= 13)%nat -> pass_inv r0 ano k 0 ([], w)).
    { intros k _. split; [constructor|]. split; [cbn; lia|].
      exists []. rewrite app_nil_r. split; [assumption|cbn; lia]. }
    unfold up, of_outcome. cbn [fst snd].
    destruct (find_element None (CssTabContent ano)); apply H0; lia. }
  intros c.
  eapply hoare_bind; [apply pass_inv_log|intros ?; cbn beta].
  eapply hoare_bind; [apply pass_inv_extend; cbn; tauto|intros ?; cbn beta].
  eapply hoare_bind; [apply pass_inv_extend; cbn; tauto|intros ?; cbn beta].
  eapply hoare_bind; [apply pass_inv_log|intros ?; cbn beta].
  eapply hoare_bind; [apply pass_inv_extend; cbn; tauto|intros ?; cbn beta].
  eapply hoare_bind; [apply pass_inv_extend; cbn; tauto|intros ?; cbn beta].
  eapply hoare_bind; [apply pass_inv_log|intros ?; cbn beta].
  eapply hoare_bind.
  { eapply hoare_conseq; [apply pass_inv_tema| | |].
    - intros s H; exact H.
    - intros ? s H; exact H.
    - intros e s H. cbn beta in H. eapply pass_inv_weaken; [| |exact H]; lia. }
  intros ?; cbn beta.
  eapply hoare_bind; [apply pass_inv_extend; cbn; tauto|intros ?; cbn beta].
  eapply hoare_conseq; [apply pass_inv_extend with (E := fun _ _ => False); cbn; tauto| | |].
  - intros s H; exact H.
  - intros ? s H. cbn beta in H. eapply pass_inv_weaken; [| |exact H]; lia.
  - intros e s [].
Qed.

(** X7. A pass over a year never raises and only adds to the reports; a
    pass that returns no record has added at least one report. *)
Theorem pass_returns_and_accounts (ano : str) (w : world) :
  exists links rs,
    fst (extrair_links_provas_e_gabaritos ano w) = Ok links
    /\ REPORTS (snd (extrair_links_provas_e_gabaritos ano w)) = REPORTS w ++ rs
    /\ (links = [] -> rs <> []).
Proof.
  pose proof (pass_hoare (REPORTS w) ano w eq_refl) as H.
  destruct (extrair_links_provas_e_gabaritos ano w) as [[links|e] w'];
    [|contradiction].
  destruct H as (_ & _ & rs & Hr & Hc). cbn [fst snd] in *.
  exists links, rs. split; [reflexivity|]. split; [assumption|].
  intros -> ->. cbn in Hc. lia.
Qed.

(** X8. The records of a pass are at most thirteen and each carries the
    year of the pass; each is the essay-theme record or a record of one of
    the six categories with a URL that counts as true. *)
Theorem pass_records_of_year (ano : str) (w : world) :
  let links := links_of (extrair_links_provas_e_gabaritos ano w) in
  (List.length links <= 13)%nat /\ Forall (pass_record ano) links.
Proof.
  pose proof (pass_hoare (REPORTS w) ano w eq_refl) as H.
  cbn zeta. unfold links_of.
  destruct (extrair_links_provas_e_gabaritos ano w) as [[links|e] w'];
    [|contradiction].
  destruct H as (Hg & Hl & _). cbn [fst snd] in *. split; assumption.
Qed.

End PassInvariant.

(** ** The pass around the essay theme *)

Section EssayTheme.

Context {ucd : UnicodeData} {WebElement : Type} {driver : WebDriver WebElement}.

(** Runs the pass up to the essay-theme block. *)
Ltac to_essay_theme Hcont :=
  unfold extrair_links_provas_e_gabaritos, with_local;
  unfold bind at 1; unfold try_except at 1;
  unfold bind at 1; unfold up at 1, of_outcome at 1;
  cbn [fst snd]; rewrite Hcont; cbv beta iota;
  rewrite bind_up_log;
  rewrite !bind_extend_eq by apply total_extrair_prova_gabarito_links;
  rewrite bind_up_log;
  rewrite !bind_extend_eq by apply total_extrair_prova_gabarito_links;
  rewrite bind_up_log;
  unfold bind at 1; rewrite tema_da_redacao_eq.

(** X9. When the essay-theme lookup raises anything but a missing
    element, the pass still returns: its records are those of the four
    categories before the essay theme, in the order of the calls, and the
    one report after those of the fourth category is the error of the whole
    pass; the re-application categories are not run. *)
Theorem essay_error_keeps_earlier_records (ano : str) (container : WebElement)
    (w : world) (x : exn) :
  find_element None (CssTabContent ano) = Ok container ->
  tema_lookup container = Raise x ->
  x <> NoSuchElementException ->
  exists w1 w2 w3 w4,
    let call4 :=
      _extrair_prova_gabarito_links container
        (ustr "2º Dia - Caderno Azul - Aplicação Digital")
        (map ustr ["2 dia"; "caderno"; "azul"; "aplicacao digital"])
        ano (ustr "digital_d2") w4 in
    fst (extrair_links_provas_e_gabaritos ano w)
    = Ok (category_links container ano
            "1º Dia - Caderno 1 - Azul - Aplicação Regular"
            ["1 dia"; "caderno 1"; "azul"; "aplicacao regular"] "regular_d1" w1
          ++ category_links container ano
               "2º Dia - Caderno 7 - Azul - Aplicação Regular"
               ["2 dia"; "caderno 7"; "azul"; "aplicacao regular"] "regular_d2" w2
          ++ category_links container ano
               "1º Dia - Caderno Azul - Aplicação Digital"
               ["1 dia"; "caderno"; "azul"; "aplicacao digital"] "digital_d1" w3
          ++ links_of call4)
    /\ REPORTS (snd (extrair_links_provas_e_gabaritos ano w))
       = REPORTS (snd call4) ++ [MsgErroExtrair ano x].
Proof.
  intros Hcont Hl Hx.
  destruct x; [contradiction| | | | |];
    (eassert (E : extrair_links_provas_e_gabaritos ano w = (Ok _, _));
     [ to_essay_theme Hcont; rewrite Hl;
       unfold bind, up, log, emit, report, get_local;
       cbn [fst snd REPORTS TRACE]; reflexivity
     | rewrite E; do 4 eexists; cbn zeta; cbn [fst snd REPORTS];
       unfold category_links; cbn [map];
       rewrite <- ?app_assoc, ?app_nil_r; cbn [app];
       split; reflexivity ]).
Qed.

(** X10. The essay-theme record is appended with whatever the anchor gives
    for [href], also nothing at all: unlike the records of the callout
    categories, its URL is not tested. *)
Theorem essay_record_takes_any_href (ano : str) (container : WebElement)
    (w : world) (h : option str) :
  find_element None (CssTabContent ano) = Ok container ->
  tema_lookup container = Ok h ->
  In {| ano_of := ano; tipo := ustr "reaplicacao_redacao"; url := h |}
     (links_of (extrair_links_provas_e_gabaritos ano w)).
Proof.
  intros Hcont Hl.
  eassert (E : extrair_links_provas_e_gabaritos ano w = (Ok _, _)).
  { to_essay_theme Hcont. rewrite Hl.
    rewrite bind_extend_eq by apply total_extrair_prova_gabarito_links.
    rewrite extend_eq by apply total_extrair_prova_gabarito_links.
    unfold get_local. cbn [fst snd essay_records]. reflexivity. }
  unfold links_of at 1. rewrite E. cbn [fst].
  rewrite !in_app_iff. cbn [In]. tauto.
Qed.

End EssayTheme.

Lemma essay_error_keeps_earlier_records_witness :
  let d := failing_on (page pagina_reaplicacao) is_tema_query in
  exists links rs,
    fst (extrair_links_provas_e_gabaritos (ustr "2024") empty_world) = Ok links
    /\ REPORTS (snd (extrair_links_provas_e_gabaritos (ustr "2024") empty_world))
       = rs ++ [MsgErroExtrair (ustr "2024") WebDriverException].
Proof.
  intros d.
  destruct (essay_error_keeps_earlier_records (driver := d) (ustr "2024") [0]
              empty_world WebDriverException)
    as (w1 & w2 & w3 & w4 & E & R).
  - vm_compute. reflexivity.
  - vm_compute. reflexivity.
  - discriminate.
  - eexists _, _. split; [exact E|exact R].
Defined.

Lemma essay_record_takes_any_href_witness :
  let d := page pagina_tema_sem_href in
  In {| ano_of := ustr "2024"; tipo := ustr "reaplicacao_redacao"; url := None |}
     (links_of (extrair_links_provas_e_gabaritos (ustr "2024") empty_world)).
Proof.
  intros d.
  apply (essay_record_takes_any_href (driver := d) (ustr "2024") [0]
           empty_world None).
  - vm_compute. reflexivity.
  - vm_compute. reflexivity.
Defined.

(** ** The classifier loop: where it stops, and what an error costs *)

Section ClassifierLoop.

Context {ucd : UnicodeData} {WebElement : Type} {driver : WebDriver WebElement}.

Lemma classificar_links_stops (els extra : list WebElement) :
  forall (p0 g0 p g : option str) (w w' : world),
    truthy p0 && truthy g0 = false ->
    classificar_links els p0 g0 w = (Ok (p, g), w') ->
    truthy p && truthy g = true ->
    classificar_links (els ++ extra) p0 g0 w = (Ok (p, g), w').
Proof.
  induction els as [|e els IH]; intros p0 g0 p g w w' H0 E HT.
  - cbn in E. unfold ret in E. injection E as <- <- <-. congruence.
  - cbn [app classificar_links] in *. unfold bind, of_outcome, ret in *.
    destruct (text e) as [t|x]; [|discriminate E]. cbn [fst snd] in *.
    destruct (contains (ustr "prova") _ && negb (truthy p0)).
    + destruct (get_attribute e Href) as [h|x]; [|discriminate E].
      destruct (truthy h && truthy g0) eqn:B; [exact E|].
      now apply IH.
    + destruct (contains (ustr "gabarito") _ && negb (truthy g0)).
      * destruct (get_attribute e Href) as [h|x]; [|discriminate E].
        destruct (truthy p0 && truthy h) eqn:B; [exact E|].
        now apply IH.
      * rewrite H0 in *. now apply IH.
Qed.

Lemma classificar_links_fst (els : list WebElement) (p g : option str)
    (w w' : world) :
  fst (classificar_links els p g w) = fst (classificar_links els p g w').
Proof.
  revert p g. induction els as [|e els IH]; intros p g; [reflexivity|].
  cbn [classificar_links]. unfold bind, of_outcome, ret.
  destruct (text e) as [t|x]; [|reflexivity]. cbn [fst snd].
  destruct (contains (ustr "prova") _ && negb (truthy p)).
  - destruct (get_attribute e Href) as [h|x]; [|reflexivity].
    destruct (truthy h && truthy g); [reflexivity|apply IH].
  - destruct (contains (ustr "gabarito") _ && negb (truthy g)).
    + destruct (get_attribute e Href) as [h|x]; [|reflexivity].
      destruct (truthy p && truthy h); [reflexivity|apply IH].
    + destruct (truthy p && truthy g); [reflexivity|apply IH].
Qed.

(** X11. Once both URLs are held the loop is over: whatever anchors
    follow in the harvest, readable or not, they are not looked at and the
    result and the world are the same. *)
Theorem classifier_stops_when_both_found (els extra : list WebElement)
    (p g : option str) (w : world) :
  fst (classificar_links els None None w) = Ok (p, g) ->
  truthy p = true -> truthy g = true ->
  classificar_links (els ++ extra) None None w
  = classificar_links els None None w.
Proof.
  intros E Tp Tg.
  destruct (classificar_links els None None w) as [r w'] eqn:Eq.
  cbn [fst] in E. subst r.
  apply classificar_links_stops; [reflexivity|assumption|].
  now rewrite Tp, Tg.
Qed.

(** X12. An error while an anchor is read costs the whole category: when
    the callout was located and its anchors harvested, and the loop over
    them raises, the call returns no record and one report, also when a
    URL had been found before the error. *)
Theorem classification_error_discards_category (container c : WebElement)
    (desc : str) (kws : list str) (ano base : str) (w : world)
    (callouts els : list WebElement) (x : exn) :
  find_elements (Some container) CssCallout = Ok callouts ->
  fst (localizar_callout kws callouts w) = Ok (Some c) ->
  find_elements (Some c) XPathFollowingLinks = Ok els ->
  fst (classificar_links els None None w) = Raise x ->
  exists m t,
    _extrair_prova_gabarito_links container desc kws ano base w
    = (Ok [], extended w [m] t)
    /\ (m = MsgErroInesperado desc kws ano x
        \/ m = MsgPadraoNaoEncontrado desc kws ano x).
Proof.
  intros Hc Hl Hh Hx.
  unfold _extrair_prova_gabarito_links, with_local, try_except,
    bind, up, of_outcome, ret, raise, get_local, set_local, log, emit, report.
  cbn [fst snd]. rewrite Hc.
  pose proof (localizar_callout_world kws callouts w) as Hw1.
  destruct (localizar_callout kws callouts w) as [r w1].
  cbn [fst snd] in *. subst r w1. cbn [fst snd REPORTS TRACE]. rewrite Hh.
  match goal with
  | |- context [classificar_links els None None ?W] =>
      pose proof (classificar_links_world els None None W) as Hw2;
      assert (Hx2 : fst (classificar_links els None None W) = Raise x);
      [|destruct (classificar_links els None None W) as [r w2]]
  end.
  { rewrite <- Hx. apply classificar_links_fst. }
  cbn [fst snd] in *. subst r w2. cbn [fst snd REPORTS TRACE].
  destruct x; cbn [fst snd REPORTS TRACE]; eexists _, _;
    (split; [f_equal; apply extended_from;
             [cbn [REPORTS]; reflexivity
             |cbn [TRACE]; rewrite <- ?app_assoc; cbn [app]; reflexivity]
            |auto]).
Qed.

End ClassifierLoop.

Lemma classifier_stops_when_both_found_witness :
  let d := page pagina_regular in
  classificar_links ([[1; 3; 0; 0]; [1; 3; 1; 0]] ++ [[9; 9]]) None None
    empty_world
  = classificar_links [[1; 3; 0; 0]; [1; 3; 1; 0]] None None empty_world.
Proof.
  intros d.
  apply (classifier_stops_when_both_found (driver := d)
           [[1; 3; 0; 0]; [1; 3; 1; 0]] [[9; 9]]
           (Some (ustr "p1.pdf")) (Some (ustr "g1.pdf")) empty_world);
    vm_compute; reflexivity.
Defined.

Lemma classification_error_discards_category_witness :
  let d := unreadable_on (page pagina_regular) (path_eqb [1; 3; 1; 0]) in
  fst (classificar_links [[1; 3; 0; 0]] None None empty_world)
  = Ok (Some (ustr "p1.pdf"), None)
  /\ exists m t,
       _extrair_prova_gabarito_links [1]
         (ustr "1º Dia - Caderno 1 - Azul - Aplicação Regular")
         (map ustr ["1 dia"; "caderno 1"; "azul"; "aplicacao regular"])
         (ustr "2024") (ustr "regular_d1") empty_world
       = (Ok [], extended empty_world [m] t)
       /\ (m = MsgErroInesperado
                 (ustr "1º Dia - Caderno 1 - Azul - Aplicação Regular")
                 (map ustr ["1 dia"; "caderno 1"; "azul"; "aplicacao regular"])
                 (ustr "2024") WebDriverException
           \/ m = MsgPadraoNaoEncontrado
                    (ustr "1º Dia - Caderno 1 - Azul - Aplicação Regular")
                    (map ustr ["1 dia"; "caderno 1"; "azul"; "aplicacao regular"])
                    (ustr "2024") WebDriverException).
Proof.
  intros d. split; [vm_compute; reflexivity|].
  apply (classification_error_discards_category (driver := d) [1] [1; 2]
           _ _ _ _ empty_world [[1; 0]; [1; 2]; [1; 4]]
           [[1; 3; 0; 0]; [1; 3; 1; 0]] WebDriverException);
    vm_compute; reflexivity.
Defined.

(** ** Year discovery and the year loop, whatever page and collaborators do *)

Section YearLoop.

Context {ucd : UnicodeData} {WebElement : Type} {driver : WebDriver WebElement}.

Variable clicar_aba_ano : str -> outcome bool * list message.
Variable baixar_links : str -> list link -> outcome unit * list message.

Lemma coletar_anos_world (tabs : list WebElement) (anos : list str)
    (w : world) :
  snd (coletar_anos tabs anos w) = w.
Proof.
  revert anos. induction tabs as [|tab tabs IH]; intros anos; [reflexivity|].
  cbn [coletar_anos]. unfold bind, of_outcome.
  destruct (get_attribute tab DataId) as [i|x]; [|reflexivity].
  destruct (truthy i && py_ne i (ustr "Sobre")); apply IH.
Qed.

(** X13. Year discovery never raises and is all or nothing: either it
    reports nothing, or, when the tabs or one of their identifiers cannot
    be read, it returns no year at all and exactly one report. *)
Theorem year_discovery_all_or_nothing (w : world) :
  exists anos rs t,
    obter_anos_disponiveis w = (Ok anos, extended w rs t)
    /\ (rs = [] \/ anos = [] /\ List.length rs = 1%nat).
Proof.
  unfold obter_anos_disponiveis, try_except, bind, of_outcome, log, emit,
    report, ret.
  destruct (find_elements None CssYearTabs) as [tabs|x].
  - pose proof (coletar_anos_world tabs [] w) as Hw.
    destruct (coletar_anos tabs [] w) as [[anos|x] w1]; cbn [snd] in Hw;
      subst w1.
    + eexists _, [], _. split; [|now left].
      f_equal. apply extended_from; cbn; [now rewrite app_nil_r|reflexivity].
    + destruct x; eexists [], [_], _; (split; [|right; split; reflexivity]);
        f_equal; apply extended_from; reflexivity.
  - destruct x; eexists [], [_], _; (split; [|right; split; reflexivity]);
      f_equal; apply extended_from; reflexivity.
Qed.

Lemma grown_extrair (ano : str) (w : world) :
  grown w (snd (extrair_links_provas_e_gabaritos ano w)).
Proof.
  pose proof (pass_hoare (REPORTS w) ano w eq_refl) as H.
  destruct (quiet_extrair_links_provas_e_gabaritos ano w) as (t & Ht & _).
  unfold same_world in Ht.
  destruct (extrair_links_provas_e_gabaritos ano w) as [[links|e] w'];
    [|contradiction].
  destruct H as (_ & _ & rs & Hr & _). cbn [fst snd] in *.
  exists rs, t. now apply extended_from.
Qed.

Lemma grown_external {A} (r : outcome A * list message) (w0 : world) :
  preserves (grown w0) (external r).
Proof.
  apply preserves_grown. intros w. exists (snd r), []. unfold external, extended.
  cbn. now rewrite app_nil_r.
Qed.

Lemma grown_obter_anos (w0 : world) :
  preserves (grown w0) obter_anos_disponiveis.
Proof.
  unfold obter_anos_disponiveis, log.
  apply preserves_try_except.
  - apply preserves_bind; [now apply preserves_unchanged|intros tabs].
    apply preserves_bind;
      [apply preserves_unchanged; intros w; apply coletar_anos_world|intros anos].
    apply preserves_bind; [apply grown_emit|intros _].
    now apply preserves_unchanged.
  - intros e. destruct e;
      (apply preserves_bind; [apply grown_emit|intros _];
       apply preserves_bind; [apply grown_report|intros _];
       now apply preserves_unchanged).
Qed.

Lemma grown_processar_anos (anos : list str) (w0 : world) :
  preserves (grown w0) (processar_anos clicar_aba_ano baixar_links anos).
Proof.
  induction anos as [|ano anos IH]; [now apply preserves_unchanged|].
  cbn [processar_anos]. unfold log.
  apply preserves_bind; [apply grown_emit|intros _].
  apply preserves_bind; [apply grown_emit|intros _].
  apply preserves_bind; [apply grown_external|intros clicked].
  apply preserves_bind; [|intros _; exact IH].
  destruct (negb clicked); [apply grown_emit|].
  apply preserves_bind; [apply grown_emit|intros _].
  apply preserves_bind;
    [apply preserves_grown; intros w; apply grown_extrair|intros links].
  destruct links as [|l links].
  - apply preserves_bind; [apply grown_emit|intros _; apply grown_report].
  - apply preserves_bind; [apply grown_external|intros _; apply grown_emit].
Qed.

(** X14. From year discovery on, the main flow never raises, whatever
    the page shows and whatever its collaborators return or raise, and it
    takes nothing away: the reports and the trace are only extended. *)
Theorem main_flow_never_raises (w : world) :
  exists rs t,
    main_anos clicar_aba_ano baixar_links w = (Ok tt, extended w rs t).
Proof.
  assert (G : grown w (snd (main_anos clicar_aba_ano baixar_links w))).
  { assert (P : preserves (grown w) (main_anos clicar_aba_ano baixar_links)).
    { unfold main_anos, log. apply preserves_try_except.
      - apply preserves_bind; [apply grown_obter_anos|intros anos].
        destruct anos as [|a anos].
        + apply preserves_bind; [apply grown_emit|intros _; apply grown_report].
        + apply grown_processar_anos.
      - intros e.
        apply preserves_bind; [apply grown_emit|intros _; apply grown_report]. }
    apply P, grown_refl. }
  destruct G as (rs & t & G). exists rs, t.
  assert (T : fst (main_anos clicar_aba_ano baixar_links w) = Ok tt).
  { unfold main_anos, try_except.
    match goal with
    | |- context [match ?m w with _ => _ end] => destruct (m w) as [[[]|e] w']
    end; reflexivity. }
  destruct (main_anos clicar_aba_ano baixar_links w) as [r w'].
  cbn [fst snd] in *. now subst.
Qed.

(** X15. When the search for the year tabs fails, the run ends without
    beginning any year: the failure is reported, then that no year is
    available. *)
Theorem unreadable_tabs_end_the_run (w : world) (x : exn) :
  find_elements None CssYearTabs = Raise x ->
  exists m t,
    main_anos clicar_aba_ano baixar_links w
    = (Ok tt, extended w [m; MsgNenhumAno] t)
    /\ years_begun t = []
    /\ m = match x with
           | NoSuchElementException => MsgAbasNaoEncontradas
           | _ => MsgErroObterAnos x
           end.
Proof.
  intros H.
  unfold main_anos, obter_anos_disponiveis, try_except, bind, of_outcome,
    log, emit, report, ret.
  rewrite H.
  destruct x; cbn [fst snd REPORTS TRACE]; eexists _, _;
    (split; [f_equal; apply extended_from; cbn [REPORTS TRACE];
             rewrite <- ?app_assoc; reflexivity
            |split; reflexivity]).
Qed.

End YearLoop.

Lemma unreadable_tabs_end_the_run_witness :
  let d := failing_on (page pagina_regular) is_year_tabs_query in
  exists m t,
    main_anos (fun _ => (Ok true, [])) (fun _ _ => (Ok tt, [])) empty_world
    = (Ok tt, extended empty_world [m; MsgNenhumAno] t)
    /\ years_begun t = []
    /\ m = MsgErroObterAnos WebDriverException.
Proof.
  intros d.
  apply (unreadable_tabs_end_the_run (driver := d) (fun _ => (Ok true, []))
           (fun _ _ => (Ok tt, [])) empty_world WebDriverException).
  reflexivity.
Defined.

(** ** The name and the place of a downloaded file *)

Lemma split_from_nonempty (sep : codepoint) (s cur : str) :
  split_from sep cur s <> [].
Proof.
  revert cur. induction s as [|c s IH]; intros cur; cbn; [discriminate|].
  destruct (c =? sep); [discriminate|apply IH].
Qed.

Lemma split_from_last (s : str) : forall cur : str,
  ~ In 47 cur ->
  exists pre, cur ++ s = pre ++ last (split_from 47 cur s) []
              /\ ~ In 47 (last (split_from 47 cur s) []).
Proof.
  induction s as [|c s IH]; intros cur Hc.
  - exists []. cbn. now rewrite app_nil_r.
  - cbn [split_from]. destruct (c =? 47) eqn:Ec;
      [apply N.eqb_eq in Ec; subst c|apply N.eqb_neq in Ec; rename Ec into Hne].
    + destruct (IH [] (fun H => H)) as (pre & E & Hn).
      assert (Hl : last (cur :: split_from 47 [] s) []
                   = last (split_from 47 [] s) []).
      { cbn [last]. destruct (split_from 47 [] s) eqn:Es; [|reflexivity].
        now apply split_from_nonempty in Es. }
      rewrite Hl. exists (cur ++ 47 :: pre). split; [|assumption].
      cbn [app] in E. rewrite <- app_assoc. cbn [app]. do 2 f_equal. exact E.
    + destruct (IH (cur ++ [c])) as (pre & E & Hn).
      { rewrite in_app_iff. cbn. intuition congruence. }
      exists pre. split; [|assumption]. rewrite <- E, <- app_assoc. reflexivity.
Qed.

Lemma rfind_from_spec (c : codepoint) (s : str) : forall i found,
  (~ In c s /\ rfind_from c s i found = found)
  \/ exists pre post, s = pre ++ c :: post /\ ~ In c post
                      /\ rfind_from c s i found = (i + Z.of_nat (List.length pre))%Z.
Proof.
  induction s as [|x s IH]; intros i found.
  - left. split; [intros []|reflexivity].
  - cbn [rfind_from].
    destruct (IH (i + 1)%Z (if x =? c then i else found))
      as [[Hn E]|(pre & post & -> & Hn & E)].
    + destruct (N.eqb_spec x c) as [->|Hne].
      * right. exists [], s. cbn. split; [reflexivity|].
        split; [assumption|]. rewrite E. lia.
      * left. split; [|assumption]. cbn. intuition congruence.
    + right. exists (x :: pre), post. split; [reflexivity|].
      split; [assumption|]. rewrite E. cbn [List.length]. lia.
Qed.

Lemma only_dots_false (l : str) :
  only_dots l = false -> l <> [].
Proof. now destruct l. Qed.

(** The extension [os.path.splitext] gives. *)
Lemma splitext_ext (p : str) :
  snd (splitext p) = []
  \/ exists pre post, p = pre ++ 46 :: post /\ pre <> [] /\ ~ In 46 post
                      /\ snd (splitext p) = 46 :: post.
Proof.
  unfold splitext, rfind.
  destruct (rfind_from_spec 46 p 0 (-1)) as [[Hn E]|(pre & post & Hp & Hn & E)];
    rewrite E.
  - left.
    destruct (rfind_from_spec 47 p 0 (-1)) as [[_ E']|(pre' & post' & _ & _ & E')];
      rewrite E'.
    + reflexivity.
    + replace (_ <? -1)%Z with false by (symmetry; apply Z.ltb_ge; lia).
      reflexivity.
  - match goal with
    | |- context [if ?b then _ else _] => destruct b eqn:B
    end; [|now left].
    right. exists pre, post. apply andb_prop in B. destruct B as [B1 B2].
    split; [assumption|]. split.
    + intros ->. cbn in B2, B1. apply Z.ltb_lt in B1.
      destruct (rfind_from_spec 47 p 0 (-1))
        as [[_ Es]|(? & ? & _ & _ & Es)]; rewrite Es in B1, B2; [|lia].
      discriminate B2.
    + split; [assumption|]. cbn [snd]. rewrite Z.add_0_l, Nat2Z.id, Hp.
      rewrite skipn_app, skipn_all, Nat.sub_diag. reflexivity.
Qed.

Lemma file_extension_cases (url : str) :
  exists rest,
    file_extension url = 46 :: rest /\ ~ In 46 rest /\ ~ In 47 rest
    /\ (file_extension url = ustr ".pdf"
        \/ exists pre, pre <> [] /\ url = pre ++ file_extension url).
Proof.
  unfold file_extension.
  destruct (split_from_last url [] (fun H => H)) as (pre0 & Eu & Hns).
  fold (split 47 url) in Eu, Hns. cbn [app] in Eu.
  destruct (splitext_ext (last (split 47 url) []))
    as [E|(pre & post & Hp & Hpre & Hn & E)]; rewrite E.
  - exists (ustr "pdf"). split; [reflexivity|].
    split; [|split; [|now left]]; vm_compute; intuition discriminate.
  - exists post. split; [reflexivity|]. split; [assumption|].
    split.
    + intros H. apply Hns. rewrite Hp, in_app_iff. right. now right.
    + right. exists (pre0 ++ pre). split.
      * destruct pre0; [assumption|discriminate].
      * rewrite Eu, Hp, <- app_assoc. reflexivity.
Qed.

Lemma basename_no_sep (p : str) : ~ In 47 p -> basename p = p.
Proof.
  destruct p as [|c r]; [reflexivity|]. intros H. cbn [basename].
  assert (existsb (N.eqb 47) r = false) as ->.
  { apply not_true_is_false. intros E. apply existsb_exists in E.
    destruct E as (x & Hx & Ex). apply N.eqb_eq in Ex. subst x.
    apply H. now right. }
  destruct (N.eqb_spec c 47) as [->|]; [|reflexivity].
  exfalso. apply H. now left.
Qed.

Lemma basename_after_sep (a b : str) :
  ~ In 47 b -> basename (a ++ 47 :: b) = b.
Proof.
  intros Hb. induction a as [|c a IH].
  - cbn [app basename].
    assert (existsb (N.eqb 47) b = false) as ->.
    { apply not_true_is_false. intros E. apply existsb_exists in E.
      destruct E as (x & Hx & Ex). apply N.eqb_eq in Ex. now subst x. }
    reflexivity.
  - cbn [app basename].
    assert (existsb (N.eqb 47) (a ++ 47 :: b) = true) as ->.
    { apply existsb_exists. exists 47. split; [|reflexivity].
      rewrite in_app_iff. right. now left. }
    exact IH.
Qed.

(** X16. The extension of a file name is never empty: it is a dot
    followed by characters among which there is no dot and no slash, and
    it is either [.pdf] or the end of the URL from the last dot of its
    last segment, whatever follows that dot. *)
Theorem file_extension_shape (url_download : str) :
  exists rest,
    file_extension url_download = 46 :: rest
    /\ ~ In 46 rest /\ ~ In 47 rest
    /\ (file_extension url_download = ustr ".pdf"
        \/ exists pre, pre <> []
                       /\ url_download = pre ++ file_extension url_download).
Proof. apply file_extension_cases. Qed.

(** X17. For a year that is not empty and a year and a type without
    slash, the file goes to [data/<year>/ENEM_<year>_<type><extension>],
    and the name the downloader shows in its messages, the base name of
    that path, is the file name. *)
Theorem destination_under_year_directory (ano tipo_prova url_download : str) :
  ano <> [] -> ~ In 47 ano -> ~ In 47 tipo_prova ->
  caminho_destino ano tipo_prova url_download
  = ustr "data/" ++ ano ++ ustr "/"
    ++ ustr "ENEM_" ++ ano ++ ustr "_" ++ tipo_prova
    ++ file_extension url_download
  /\ basename (caminho_destino ano tipo_prova url_download)
     = nome_arquivo ano tipo_prova url_download.
Proof.
  intros Hne Hano Htipo.
  assert (Hnome : ~ In 47 (nome_arquivo ano tipo_prova url_download)).
  { unfold nome_arquivo.
    destruct (file_extension_cases url_download) as (rest & -> & _ & Hr & _).
    change (ustr "ENEM_") with [69; 78; 69; 77; 95].
    change (ustr "_") with [95].
    rewrite !in_app_iff. cbn [In]. intuition discriminate. }
  assert (Hlast : forall a : str, match rev (a ++ [47] ++ ano) with
                            | [] => true
                            | c :: _ => c =? 47
                            end = false).
  { intros a. unfold str, codepoint in *. rewrite !rev_app_distr.
    destruct (rev ano) as [|c r] eqn:Er.
    - apply (f_equal (@rev _)) in Er. rewrite rev_involutive in Er.
      now subst ano.
    - rewrite ?Er. cbn [app]. apply N.eqb_neq. intros ->. apply Hano.
      apply in_rev. rewrite Er. now left. }
  assert (Hdir : path_join OUTPUT_DIR ano = ustr "data" ++ [47] ++ ano).
  { unfold path_join, OUTPUT_DIR. destruct ano as [|c r]; [contradiction|].
    cbn [startswith]. destruct (N.eqb_spec 47 c) as [<-|_].
    - exfalso. apply Hano. now left.
    - reflexivity. }
  assert (Hdest : caminho_destino ano tipo_prova url_download
                  = (ustr "data" ++ [47] ++ ano) ++ [47]
                    ++ nome_arquivo ano tipo_prova url_download).
  { unfold caminho_destino. rewrite Hdir. unfold path_join at 1.
    rewrite Hlast. reflexivity. }
  split.
  - rewrite Hdest. unfold nome_arquivo.
    change (ustr "data/") with (ustr "data" ++ [47]).
    change (ustr "/") with [47].
    now rewrite <- !app_assoc.
  - rewrite Hdest. apply (basename_after_sep _ _ Hnome).
Qed.

Lemma destination_under_year_directory_witness :
  let ano := ustr "2024" in
  let tipo := ustr "regular_d1_prova_azul" in
  let url := ustr "https://download.inep.gov.br/enem/2024/p1.pdf" in
  caminho_destino ano tipo url
  = ustr "data/" ++ ano ++ ustr "/"
    ++ ustr "ENEM_" ++ ano ++ ustr "_" ++ tipo ++ file_extension url
  /\ basename (caminho_destino ano tipo url) = nome_arquivo ano tipo url.
Proof.
  intros ano tipo url.
  apply (destination_under_year_directory ano tipo url).
  - discriminate.
  - vm_compute. intuition discriminate.
  - vm_compute. intuition discriminate.
Defined.

(** ** The download phase of a year *)

Lemma pedidos_app (t u : list efeito) :
  pedidos (t ++ u) = (pedidos t + pedidos u)%nat.
Proof. unfold pedidos. now rewrite filter_app, length_app. Qed.

Lemma pedidos_do (t : list event) : pedidos (map Do t) = attempts_in t.
Proof.
  unfold pedidos, attempts_in. induction t as [|e t IH]; [reflexivity|].
  cbn [map filter]. destruct e; cbn [List.length]; now rewrite ?IH.
Qed.

Lemma fase_extended_nil (s : fase_world) : fase_extended s [] [] = s.
Proof. unfold fase_extended. rewrite !app_nil_r. now destruct s. Qed.

Lemma fase_extended_extended (s : fase_world) (rs rs' : list message)
    (t t' : list efeito) :
  fase_extended (fase_extended s rs t) rs' t'
  = fase_extended s (rs ++ rs') (t ++ t').
Proof. unfold fase_extended. cbn. now rewrite <- !app_assoc. Qed.

Section FaseDownloadFacts.

Variable dir_existe : str -> bool.
Variable makedirs_falha : str -> option exn.
Variable arquivo_existe : nat -> str -> bool.
Variable rede : nat -> Z -> option exn.

Lemma lift_baixar_arquivo (falha : Z -> option exn) (url_download dest : str)
    (s : fase_world) :
  exists b rs t,
    lift (baixar_arquivo falha url_download dest 3 5) s
    = (Ok b, fase_extended s rs t)
    /\ (List.length rs <= 1)%nat /\ (pedidos t <= 3)%nat.
Proof.
  unfold lift.
  destruct (baixar_arquivo_general falha url_download dest 3 5
              {| REPORTS := RELATOS s; TRACE := [] |})
    as (b & rs & t & E & _ & Hr & Ha & _); [lia|].
  rewrite E. exists b, rs, (map Do t). unfold extended, fase_extended.
  cbn [REPORTS TRACE app]. split; [reflexivity|].
  rewrite pedidos_do. split; [|exact Ha].
  rewrite Hr. destruct b; cbn; lia.
Qed.

Lemma baixar_link_none (ano base : str) (i : nat) (l : link) (s : fase_world) :
  url l = None ->
  baixar_link arquivo_existe rede ano base i l s = (Raise OtherException, s).
Proof. intros H. unfold baixar_link, bind, of_outcome. now rewrite H. Qed.

Lemma baixar_link_some (ano base : str) (i : nat) (l : link) (u : str)
    (s : fase_world) :
  url l = Some u ->
  exists rs t,
    baixar_link arquivo_existe rede ano base i l s
    = (Ok tt, fase_extended s rs t)
    /\ (List.length rs <= 1)%nat /\ (pedidos t <= 3)%nat
    /\ (arquivo_existe i (path_join base (nome_arquivo ano (tipo l) u)) = true ->
        rs = [] /\ pedidos t = 0%nat).
Proof.
  intros H. unfold baixar_link, bind, of_outcome. rewrite H.
  destruct (arquivo_existe i _) eqn:Ex.
  - eexists [], [_]. unfold efeito_de, fase_extended. rewrite app_nil_r.
    split; [reflexivity|]. cbn. split; [lia|]. split; [lia|]. auto.
  - destruct (lift_baixar_arquivo (rede i) u
                (path_join base (nome_arquivo ano (tipo l) u)) s)
      as (b & rs & t & E & Hr & Hp).
    rewrite E. exists rs, (t ++ [Do (AtrasoAleatorio 1 4)]).
    unfold efeito_de, fase_extended. cbn [RELATOS EFEITOS].
    rewrite <- app_assoc. split; [reflexivity|].
    rewrite pedidos_app. cbn. split; [assumption|]. split; [lia|].
    discriminate.
Qed.

Lemma baixar_links_de_general (ano base : str) (links : list link) :
  forall (i : nat) (s : fase_world),
  exists rs t,
    snd (baixar_links_de arquivo_existe rede ano base i links s)
    = fase_extended s rs t
    /\ (List.length rs <= List.length links)%nat
    /\ (pedidos t <= 3 * List.length links)%nat
    /\ (fst (baixar_links_de arquivo_existe rede ano base i links s) = Ok tt
        <-> Forall (fun l => url l <> None) links)
    /\ ((forall j p, arquivo_existe j p = true) -> rs = [] /\ pedidos t = 0%nat).
Proof.
  induction links as [|l links IH]; intros i s.
  - exists [], []. cbn. rewrite fase_extended_nil.
    split; [reflexivity|]. split; [lia|]. split; [lia|].
    split; [split; [constructor|reflexivity]|auto].
  - cbn [baixar_links_de]. unfold bind at 1 2.
    destruct (url l) as [u|] eqn:Hu.
    + destruct (baixar_link_some ano base i l u s Hu)
        as (rs & t & E & Hr & Hp & Hex).
      rewrite E.
      destruct (IH (S i) (fase_extended s rs t))
        as (rs' & t' & E' & Hr' & Hp' & Hok & Hex').
      exists (rs ++ rs'), (t ++ t'). rewrite E', fase_extended_extended.
      split; [reflexivity|]. rewrite !length_app, pedidos_app. cbn [List.length].
      split; [lia|]. split; [lia|]. split.
      * rewrite Hok. split; intros HF.
        -- constructor; [congruence|assumption].
        -- now inversion HF.
      * intros Hall. destruct (Hex (Hall _ _)) as [-> ->].
        destruct (Hex' Hall) as [-> ->]. auto.
    + rewrite (baixar_link_none ano base i l s Hu). cbn [fst snd].
      exists [], []. rewrite fase_extended_nil.
      split; [reflexivity|]. cbn. split; [lia|]. split; [lia|].
      split; [|auto]. split; [discriminate|].
      intros HF. inversion HF. congruence.
Qed.

Lemma criar_diretorio_ano_cases (ano : str) (s : fase_world) :
  exists t,
    snd (criar_diretorio_ano dir_existe makedirs_falha ano s)
    = fase_extended s [] t
    /\ pedidos t = 0%nat
    /\ (dir_ok dir_existe makedirs_falha ano ->
        fst (criar_diretorio_ano dir_existe makedirs_falha ano s)
        = Ok (path_join OUTPUT_DIR ano))
    /\ (~ dir_ok dir_existe makedirs_falha ano ->
        exists e, fst (criar_diretorio_ano dir_existe makedirs_falha ano s)
                  = Raise e).
Proof.
  unfold criar_diretorio_ano, dir_ok, bind, of_outcome, efeito_de, ret,
    fase_extended.
  destruct (dir_existe (path_join OUTPUT_DIR ano)); cbn [negb fst snd].
  - eexists [_]. rewrite app_nil_r. cbn [RELATOS EFEITOS].
    split; [reflexivity|]. split; [reflexivity|]. split; [reflexivity|].
    intros H. exfalso. apply H. now left.
  - destruct (makedirs_falha (path_join OUTPUT_DIR ano)) as [e|];
      cbn [fst snd RELATOS EFEITOS].
    + eexists [_]. rewrite app_nil_r. split; [reflexivity|].
      split; [reflexivity|]. split.
      * intros [H|H]; discriminate H.
      * intros _. now exists e.
    + eexists [_; _]. rewrite app_nil_r, <- app_assoc.
      split; [reflexivity|]. split; [reflexivity|]. split; [reflexivity|].
      intros H. exfalso. apply H. now right.
Qed.

Lemma fase_download_general (ano : str) (links : list link) (s : fase_world) :
  exists rs t,
    snd (fase_download dir_existe makedirs_falha arquivo_existe rede
           ano links s)
    = fase_extended s rs t
    /\ (List.length rs <= List.length links)%nat
    /\ (pedidos t <= 3 * List.length links)%nat
    /\ (fst (fase_download dir_existe makedirs_falha arquivo_existe rede
               ano links s) = Ok tt
        <-> dir_ok dir_existe makedirs_falha ano
            /\ Forall (fun l => url l <> None) links)
    /\ ((forall j p, arquivo_existe j p = true) -> rs = [] /\ pedidos t = 0%nat).
Proof.
  unfold fase_download, bind.
  destruct (criar_diretorio_ano_cases ano s) as (t0 & E0 & Hp0 & Hok & Hko).
  destruct (criar_diretorio_ano dir_existe makedirs_falha ano s)
    as [[base|e] s0]; cbn [fst snd] in *; subst s0.
  - destruct (baixar_links_de_general ano base links 0 (fase_extended s [] t0))
      as (rs & t & E & Hr & Hp & Hiff & Hex).
    exists rs, (t0 ++ t). rewrite E, fase_extended_extended. cbn [app].
    split; [reflexivity|]. rewrite pedidos_app, Hp0.
    split; [assumption|]. split; [assumption|]. split.
    + rewrite Hiff. split; [|tauto]. intros HF. split; [|assumption].
      destruct (dir_existe (path_join OUTPUT_DIR ano)) eqn:Hd;
        [now left|].
      destruct (makedirs_falha (path_join OUTPUT_DIR ano)) eqn:Hm;
        [|now right].
      destruct Hko as [x Hx]; [|discriminate Hx].
      intros [H|H]; congruence.
    + intros Hall. destruct (Hex Hall) as [-> ->]. auto.
  - exists [], t0. split; [reflexivity|]. cbn. split; [lia|].
    split; [lia|]. split; [|auto]. split; [discriminate|].
    intros [Hd _]. specialize (Hok Hd). discriminate Hok.
Qed.

(** X18. The download phase of a year raises in two cases only: the
    directory of the year is missing and cannot be made, or a record
    holds no URL; otherwise it returns, whatever the network does. *)
Theorem download_phase_returns_iff (ano : str) (links : list link)
    (s : fase_world) :
  fst (fase_download dir_existe makedirs_falha arquivo_existe rede ano links s)
  = Ok tt
  <-> dir_ok dir_existe makedirs_falha ano
      /\ Forall (fun l => url l <> None) links.
Proof.
  destruct (fase_download_general ano links s)
    as (rs & t & _ & _ & _ & H & _).
  exact H.
Qed.

(** X19. Whatever the disk and the network do, the phase only adds to the
    reports and to its effects, at most one report and at most three
    requests for each record. *)
Theorem download_phase_bounds (ano : str) (links : list link)
    (s : fase_world) :
  exists rs t,
    snd (fase_download dir_existe makedirs_falha arquivo_existe rede
           ano links s)
    = fase_extended s rs t
    /\ (List.length rs <= List.length links)%nat
    /\ (pedidos t <= 3 * List.length links)%nat.
Proof.
  destruct (fase_download_general ano links s)
    as (rs & t & E & Hr & Hp & _).
  now exists rs, t.
Qed.

(** X20. When every file asked about is on the disk already, the phase
    requests nothing and reports nothing: a second run over the same
    records does not download again. *)
Theorem present_files_are_not_requested (ano : str) (links : list link)
    (s : fase_world) :
  (forall i p, arquivo_existe i p = true) ->
  exists t,
    snd (fase_download dir_existe makedirs_falha arquivo_existe rede
           ano links s)
    = fase_extended s [] t
    /\ pedidos t = 0%nat.
Proof.
  intros Hall.
  destruct (fase_download_general ano links s)
    as (rs & t & E & _ & _ & _ & H).
  destruct (H Hall) as [-> Hp]. now exists t.
Qed.

Lemma baixar_links_de_stops (ano base : str) (before after : list link)
    (l : link) :
  url l = None -> Forall (fun r => url r <> None) before ->
  forall (i : nat) (s : fase_world),
    baixar_links_de arquivo_existe rede ano base i (before ++ l :: after) s
    = (Raise OtherException,
       snd (baixar_links_de arquivo_existe rede ano base i before s)).
Proof.
  intros Hl HF. induction HF as [|r before Hr _ IH]; intros i s.
  - cbn [app baixar_links_de]. unfold bind.
    now rewrite (baixar_link_none ano base i l s Hl).
  - cbn [app baixar_links_de]. unfold bind.
    destruct (url r) as [u|] eqn:Hu; [|contradiction].
    destruct (baixar_link_some ano base i r u s Hu) as (rs & t & E & _).
    rewrite E. apply IH.
Qed.

(** X21. A record without URL ends the phase with an exception when its
    turn comes: the records before it are handled as if the list ended
    there, and those after it are never looked at. *)
Theorem record_without_url_stops_phase (ano : str)
    (before after : list link) (l : link) (s : fase_world) :
  dir_ok dir_existe makedirs_falha ano ->
  url l = None -> Forall (fun r => url r <> None) before ->
  fase_download dir_existe makedirs_falha arquivo_existe rede ano
    (before ++ l :: after) s
  = (Raise OtherException,
     snd (fase_download dir_existe makedirs_falha arquivo_existe rede ano
            before s)).
Proof.
  intros Hd Hl HF. unfold fase_download, bind.
  destruct (criar_diretorio_ano_cases ano s) as (t0 & _ & _ & Hok & _).
  specialize (Hok Hd).
  destruct (criar_diretorio_ano dir_existe makedirs_falha ano s)
    as [[base|e] s0]; cbn [fst] in Hok; [|discriminate Hok].
  now apply baixar_links_de_stops.
Qed.

End FaseDownloadFacts.

Lemma present_files_are_not_requested_witness :
  let links :=
    [ {| ano_of := ustr "2024"; tipo := ustr "regular_d1_prova_azul";
         url := Some (ustr "https://download.inep.gov.br/p1.pdf") |};
      {| ano_of := ustr "2024"; tipo := ustr "regular_d1_gabarito_azul";
         url := Some (ustr "https://download.inep.gov.br/g1.pdf") |} ] in
  exists t,
    snd (fase_download (fun _ => true) (fun _ => None) (fun _ _ => true)
           (fun _ _ => Some ConnectionError) (ustr "2024") links
           {| RELATOS := []; EFEITOS := [] |})
    = fase_extended {| RELATOS := []; EFEITOS := [] |} [] t
    /\ pedidos t = 0%nat.
Proof.
  intros links.
  apply (present_files_are_not_requested (fun _ => true) (fun _ => None)
           (fun _ _ => true) (fun _ _ => Some ConnectionError)).
  reflexivity.
Defined.

Lemma record_without_url_stops_phase_witness :
  let r1 := {| ano_of := ustr "2024"; tipo := ustr "digital_d2_prova_azul";
               url := Some (ustr "https://download.inep.gov.br/d2.pdf") |} in
  let tema := {| ano_of := ustr "2024"; tipo := ustr "reaplicacao_redacao";
                 url := None |} in
  let r2 := {| ano_of := ustr "2024"; tipo := ustr "reaplicacao_d1_prova_azul";
               url := Some (ustr "https://download.inep.gov.br/r1.pdf") |} in
  let fase := fase_download (fun _ => false) (fun _ => None) (fun _ _ => false)
                (fun _ _ => None) (ustr "2024") in
  fase ([r1] ++ tema :: [r2]) {| RELATOS := []; EFEITOS := [] |}
  = (Raise OtherException, snd (fase [r1] {| RELATOS := []; EFEITOS := [] |})).
Proof.
  intros r1 tema r2 fase.
  apply (record_without_url_stops_phase (fun _ => false) (fun _ => None)
           (fun _ _ => false) (fun _ _ => None)).
  - right. reflexivity.
  - reflexivity.
  - constructor; [discriminate|constructor].
Defined.

(** ** The alphabet of a normalised text *)

Lemma words_ok_alphabet (s : str) : forall b,
  words_ok b s = true -> Forall (fun c => is_az09 c = true \/ c = 32) s.
Proof.
  induction s as [|c s IH]; intros b H; [constructor|].
  cbn [words_ok] in H. destruct (N.eqb_spec c 32) as [->|Hc].
  - apply andb_prop in H. destruct H as [_ H].
    constructor; [now right|now apply IH in H].
  - apply andb_prop in H. destruct H as [Ha H].
    constructor; [now left|now apply IH in H].
Qed.

Lemma words_ok_no_double_space (a c : str) : forall b,
  words_ok b (a ++ 32 :: 32 :: c) = false.
Proof.
  induction a as [|x a IH]; intros b.
  - cbn. now rewrite andb_false_r.
  - cbn [app words_ok]. destruct (x =? 32).
    + rewrite (IH true). apply andb_false_r.
    + rewrite (IH false). apply andb_false_r.
Qed.

Section NormalizerShape.

Context {ucd : UnicodeData}.

(** X22. Whatever the input, the normalised text is made of the letters
    a-z, the digits and single spaces only: no two spaces in a row, none at
    the start and none at the end. *)
Theorem normalized_text_shape (texto : option str) :
  let r := normalizar_texto_para_comparacao texto in
  Forall (fun c => is_az09 c = true \/ c = 32) r
  /\ (forall a b, r <> a ++ [32; 32] ++ b)
  /\ hd_error r <> Some 32
  /\ hd_error (rev r) <> Some 32.
Proof.
  intros r. destruct (normalizar_clean texto) as [H1 H2]. fold r in H1, H2.
  split; [now apply words_ok_alphabet in H1|].
  split.
  { intros a b E. cbn [app] in E.
    rewrite E, words_ok_no_double_space in H1. discriminate. }
  split.
  - destruct r as [|c r']; [discriminate|]. intros [= ->]. discriminate H1.
  - destruct (rev r) as [|c r']; [discriminate|]. intros [= ->].
    discriminate H2.
Qed.

End NormalizerShape.
